(** * Linmo kernel: scheduler, blocking primitives, pipes and timers

    A shallow embedding of the kernel's task management (kernel/task.c),
    semaphores, mutexes, message queues, pipes and software timers, with
    the properties checked against the C sources.

    Conventions.
    - C integers are [Z] with the wrap-around of their width written out
      ([u8], [u16], [u32], [i32]).
    - A pointer is an address in [Z]; [NULL] is 0.  Task control blocks and
      timers live in a store keyed by address, so that a wait queue and the
      task list name the same object.
    - Kernel code runs in the monad [M]: it threads the kernel control
      block and ends early on [panic] (which halts the machine) or on a
      dereference of an address that holds no object ([Fault]).
    - A context switch ([yield], [dispatch]) is modelled up to its
      [longjmp]: the state it returns is the one in which the chosen task
      resumes. *)

From Stdlib Require Import ZArith List Bool Lia Sorted Permutation.
From stdpp Require Import base option list gmap sorting.

Local Open Scope Z_scope.

(** ** Machine integers *)

Definition u8 (x : Z) : Z := x mod 2 ^ 8.
Definition u16 (x : Z) : Z := x mod 2 ^ 16.
Definition u32 (x : Z) : Z := x mod 2 ^ 32.
Definition i32 (x : Z) : Z := (x + 2 ^ 31) mod 2 ^ 32 - 2 ^ 31.

Definition NULL : Z := 0.

(** ** Error codes (private/error.h) *)

(** Modelled from the spec: private/error.h is missing.  The codes are
    the distinct members of one C enum ("stable integers"), named as the
    sources use them; [ERR_OK] is 0 and [ERR_FAIL] is the generic failure,
    -1. *)
Inductive err_t :=
  | ERR_OK | ERR_FAIL
  | ERR_NO_TASKS | ERR_KCB_ALLOC | ERR_TCB_ALLOC | ERR_STACK_ALLOC
  | ERR_TASK_CANT_REMOVE | ERR_TASK_NOT_FOUND | ERR_TASK_CANT_SUSPEND
  | ERR_TASK_CANT_RESUME | ERR_TASK_INVALID_PRIO | ERR_TASK_BUSY
  | ERR_NOT_OWNER | ERR_STACK_CHECK | ERR_SEM_OPERATION | ERR_TIMEOUT
  | ERR_MQ_NOTEMPTY | ERR_UNKNOWN.

#[global] Instance err_t_eq_dec : EqDecision err_t.
Proof. solve_decision. Defined.

(** ** Tasks (include/sys/task.h) *)

Definition TASK_PRIO_CRIT : Z := 0x0101.
Definition TASK_PRIO_REALTIME : Z := 0x0303.
Definition TASK_PRIO_HIGH : Z := 0x0707.
Definition TASK_PRIO_ABOVE : Z := 0x0F0F.
Definition TASK_PRIO_NORMAL : Z := 0x1F1F.
Definition TASK_PRIO_BELOW : Z := 0x3F3F.
Definition TASK_PRIO_LOW : Z := 0x7F7F.
Definition TASK_PRIO_IDLE : Z := 0xFFFF.

Inductive task_states :=
  | TASK_STOPPED | TASK_READY | TASK_RUNNING | TASK_BLOCKED | TASK_SUSPENDED.

#[global] Instance task_states_eq_dec : EqDecision task_states.
Proof. solve_decision. Defined.

(** The task control block.  The saved context is opaque and left out;
    [canary_lo] and [canary_hi] are the words at the two ends of the
    task's stack. *)
Record tcb_t := Tcb {
  stack : Z;
  stack_sz : Z;
  entry : Z;
  prio : Z;
  delay : Z;
  id : Z;
  state : task_states;
  flags : Z;
  rt_prio : Z;
  canary_lo : Z;
  canary_hi : Z
}.

Definition set_prio (t : tcb_t) (v : Z) : tcb_t :=
  Tcb (stack t) (stack_sz t) (entry t) v (delay t) (id t) (state t)
      (flags t) (rt_prio t) (canary_lo t) (canary_hi t).
Definition set_delay (t : tcb_t) (v : Z) : tcb_t :=
  Tcb (stack t) (stack_sz t) (entry t) (prio t) v (id t) (state t)
      (flags t) (rt_prio t) (canary_lo t) (canary_hi t).
Definition set_state (t : tcb_t) (v : task_states) : tcb_t :=
  Tcb (stack t) (stack_sz t) (entry t) (prio t) (delay t) (id t) v
      (flags t) (rt_prio t) (canary_lo t) (canary_hi t).
Definition set_rt_prio (t : tcb_t) (v : Z) : tcb_t :=
  Tcb (stack t) (stack_sz t) (entry t) (prio t) (delay t) (id t) (state t)
      (flags t) v (canary_lo t) (canary_hi t).

Definition SCHED_IMAX : Z := 500.
Definition MIN_TASK_STACK_SIZE : Z := 256.
Definition STACK_CHECK_INTERVAL : Z := 32.
Definition TASK_CACHE_SIZE : Z := 4.
Definition STACK_CANARY : Z := 0x33333333.

(** The kernel control block, with the file-level state of task.c
    ([stack_check_counter], [task_cache], [cache_index]) and the store of
    task control blocks [tcbs].

    The list type of lib/list.h is missing; the task list is represented
    as the spec's "ordered circular list of all TCBs": [tasks] is [None]
    for a NULL list and otherwise holds the data pointer of each node in
    list order, and a node is named by its position.  [rt_sched] is the
    value the installed real-time hook returns ([noop_rtsched] returns -1);
    what a hook does to the kernel state is outside the model. *)
Record kcb_t := Kcb {
  tcbs : gmap Z tcb_t;
  tasks : option (list Z);
  task_current : option nat;
  next_tid : Z;
  task_count : Z;
  ticks : Z;
  preemptive : bool;
  last_ready_hint : option nat;
  rt_sched : Z;
  stack_check_counter : Z;
  task_cache : list (Z * Z);
  cache_index : Z
}.

Definition set_tcbs (f : gmap Z tcb_t -> gmap Z tcb_t) (k : kcb_t) : kcb_t :=
  Kcb (f (tcbs k)) (tasks k) (task_current k) (next_tid k) (task_count k)
      (ticks k) (preemptive k) (last_ready_hint k) (rt_sched k)
      (stack_check_counter k) (task_cache k) (cache_index k).
Definition set_tasks (v : option (list Z)) (k : kcb_t) : kcb_t :=
  Kcb (tcbs k) v (task_current k) (next_tid k) (task_count k)
      (ticks k) (preemptive k) (last_ready_hint k) (rt_sched k)
      (stack_check_counter k) (task_cache k) (cache_index k).
Definition set_task_current (v : option nat) (k : kcb_t) : kcb_t :=
  Kcb (tcbs k) (tasks k) v (next_tid k) (task_count k)
      (ticks k) (preemptive k) (last_ready_hint k) (rt_sched k)
      (stack_check_counter k) (task_cache k) (cache_index k).
Definition set_ids (tid cnt : Z) (k : kcb_t) : kcb_t :=
  Kcb (tcbs k) (tasks k) (task_current k) tid cnt
      (ticks k) (preemptive k) (last_ready_hint k) (rt_sched k)
      (stack_check_counter k) (task_cache k) (cache_index k).
Definition set_ticks (v : Z) (k : kcb_t) : kcb_t :=
  Kcb (tcbs k) (tasks k) (task_current k) (next_tid k) (task_count k)
      v (preemptive k) (last_ready_hint k) (rt_sched k)
      (stack_check_counter k) (task_cache k) (cache_index k).
Definition set_last_ready_hint (v : option nat) (k : kcb_t) : kcb_t :=
  Kcb (tcbs k) (tasks k) (task_current k) (next_tid k) (task_count k)
      (ticks k) (preemptive k) v (rt_sched k)
      (stack_check_counter k) (task_cache k) (cache_index k).
Definition set_stack_check_counter (v : Z) (k : kcb_t) : kcb_t :=
  Kcb (tcbs k) (tasks k) (task_current k) (next_tid k) (task_count k)
      (ticks k) (preemptive k) (last_ready_hint k) (rt_sched k)
      v (task_cache k) (cache_index k).
Definition set_cache (c : list (Z * Z)) (i : Z) (k : kcb_t) : kcb_t :=
  Kcb (tcbs k) (tasks k) (task_current k) (next_tid k) (task_count k)
      (ticks k) (preemptive k) (last_ready_hint k) (rt_sched k)
      (stack_check_counter k) c i.

(** ** The kernel monad *)

Inductive result (A : Type) :=
  | Ok (a : A)
  | Panic (e : err_t)
  | Fault.
Arguments Ok {A} a.
Arguments Panic {A} e.
Arguments Fault {A}.

Definition M (A : Type) : Type := kcb_t -> result (A * kcb_t).

Definition ret {A} (a : A) : M A := fun k => Ok (a, k).
Definition bind {A B} (c : M A) (f : A -> M B) : M B :=
  fun k => match c k with
           | Ok (a, k') => f a k'
           | Panic e => Panic e
           | Fault => Fault
           end.
Definition panic {A} (e : err_t) : M A := fun _ => Panic e.
Definition fault {A} : M A := fun _ => Fault.
Definition gets {A} (f : kcb_t -> A) : M A := fun k => Ok (f k, k).
Definition modify (f : kcb_t -> kcb_t) : M unit := fun k => Ok (tt, f k).

Declare Scope kernel_scope.
Delimit Scope kernel_scope with kernel.
Notation "x <- c ;; k" := (bind c (fun x => k))
  (at level 100, c at next level, k at level 200, right associativity)
  : kernel_scope.
Notation "c ;; k" := (bind c (fun _ => k))
  (at level 100, k at level 200, right associativity) : kernel_scope.
Local Open Scope kernel_scope.

(** [*p] for a task pointer, and the assignment of a whole TCB. *)
Definition deref (p : Z) : M tcb_t :=
  fun k => match tcbs k !! p with
           | Some t => Ok (t, k)
           | None => Fault
           end.
Definition store (p : Z) (t : tcb_t) : M unit :=
  modify (set_tcbs (fun h => <[p := t]> h)).

(** [node->data] for a node of the task list. *)
Definition node_data (n : nat) : M Z :=
  fun k => match tasks k with
           | Some l => match l !! n with
                       | Some p => Ok (p, k)
                       | None => Fault
                       end
           | None => Fault
           end.

(** Modelled from the spec: lib/list.h is missing.  [list_cnext] is the
    successor in the circular list, skipping the sentinels; NULL for a
    NULL list or node. *)
Definition list_cnext (l : option (list Z)) (node : option nat) : option nat :=
  match l, node with
  | Some l, Some n =>
      if (S n <? length l)%nat then Some (S n)
      else match l with [] => None | _ => Some 0%nat end
  | _, _ => None
  end.

(** Modelled from the spec: lib/list.h is missing.  [list_foreach] calls
    the callback on each node in order and stops at the first node for
    which it returns non-NULL. *)
Fixpoint list_foreach_from (i : nat) (l : list Z)
    (cb : nat -> Z -> M (option nat)) : M (option nat) :=
  match l with
  | [] => ret None
  | p :: l' =>
      r <- cb i p ;;
      match r with
      | Some n => ret (Some n)
      | None => list_foreach_from (S i) l' cb
      end
  end.

(** Modelled from the spec: lib/list.h is missing.  [list_foreach] on
    the task list; NULL for a NULL list. *)
Definition list_foreach (cb : nat -> Z -> M (option nat)) : M (option nat) :=
  l <- gets tasks ;;
  match l with
  | None => ret None
  | Some l => list_foreach_from 0 l cb
  end.

(** The heap (lib/malloc.c) is an external collaborator: [malloc] returns
    NULL for a request of size 0, and otherwise the block its first-fit
    search finds, [found], which is NULL when there is none. *)
Definition malloc (size : Z) (found : Z) : Z :=
  if size =? 0 then NULL else found.

(** ** Task management and scheduling (kernel/task.c) *)

Definition is_valid_task (p : Z) : M bool :=
  if p =? NULL then ret false
  else
    t <- deref p ;;
    ret (negb (stack t =? NULL) && (MIN_TASK_STACK_SIZE <=? stack_sz t)
         && negb (entry t =? NULL) && negb (id t =? 0)).

Definition cache_task (tid : Z) (task : Z) : M unit :=
  modify (fun k =>
    set_cache (<[Z.to_nat (cache_index k) := (tid, task)]> (task_cache k))
              (u8 ((cache_index k + 1) mod TASK_CACHE_SIZE)) k).

Fixpoint cache_lookup_from (c : list (Z * Z)) (tid : Z) : M Z :=
  match c with
  | [] => ret NULL
  | (cid, ctask) :: c' =>
      if cid =? tid then
        v <- is_valid_task ctask ;;
        if (v : bool) then ret ctask else cache_lookup_from c' tid
      else cache_lookup_from c' tid
  end.

Definition cache_lookup_task (tid : Z) : M Z :=
  c <- gets task_cache ;;
  cache_lookup_from c tid.

Definition task_stack_check : M unit :=
  cnt <- gets (fun k => u32 (stack_check_counter k + 1)) ;;
  let should_check := STACK_CHECK_INTERVAL <=? cnt in
  modify (set_stack_check_counter (if should_check then 0 else cnt)) ;;
  if negb should_check then ret tt
  else
    cur <- gets task_current ;;
    match cur with
    | None => panic ERR_STACK_CHECK
    | Some c =>
        p <- node_data c ;;
        if p =? NULL then panic ERR_STACK_CHECK
        else
          v <- is_valid_task p ;;
          if negb v then panic ERR_STACK_CHECK
          else
            self <- deref p ;;
            if negb (canary_lo self =? STACK_CANARY)
               || negb (canary_hi self =? STACK_CANARY)
            then panic ERR_STACK_CHECK
            else ret tt
    end.

Definition delay_update (node : nat) (data : Z) : M (option nat) :=
  if data =? NULL then ret None
  else
    t <- deref data ;;
    if bool_decide (state t = TASK_BLOCKED) && (0 <? delay t) then
      let d := u16 (delay t - 1) in
      store data (if d =? 0 then set_state (set_delay t d) TASK_READY
                  else set_delay t d) ;;
      ret None
    else ret None.

Definition idcmp (arg : Z) (node : nat) (data : Z) : M (option nat) :=
  if data =? NULL then ret None
  else
    t <- deref data ;;
    ret (if id t =? u16 arg then Some node else None).

Fixpoint find_data_from (i : nat) (l : list Z) (p : Z) : option nat :=
  match l with
  | [] => None
  | q :: l' => if q =? p then Some i else find_data_from (S i) l' p
  end.

Definition find_task_node_by_id (tid : Z) : M (option nat) :=
  l <- gets tasks ;;
  match l with
  | None => ret None
  | Some l =>
      if tid =? 0 then ret None
      else
        cached <- cache_lookup_task tid ;;
        match (if cached =? NULL then None else find_data_from 0 l cached) with
        | Some n => ret (Some n)
        | None =>
            node <- list_foreach (idcmp tid) ;;
            match node with
            | None => ret None
            | Some n =>
                p <- node_data n ;;
                (if p =? NULL then ret tt else cache_task tid p) ;;
                ret (Some n)
            end
        end
  end.

Definition valid_priorities : list Z :=
  [TASK_PRIO_CRIT; TASK_PRIO_REALTIME; TASK_PRIO_HIGH; TASK_PRIO_ABOVE;
   TASK_PRIO_NORMAL; TASK_PRIO_BELOW; TASK_PRIO_LOW; TASK_PRIO_IDLE].

Definition is_valid_priority (priority : Z) : bool :=
  existsb (fun v => priority =? v) valid_priorities.

(** The hint test at the head of [find_next_ready_task]: [Some n] when the
    function returns the hint node at once. *)
Definition ready_hint : M (option nat) :=
  h <- gets last_ready_hint ;;
  match h with
  | None => ret None
  | Some n =>
      p <- node_data n ;;
      if p =? NULL then ret None
      else
        hint_task <- deref p ;;
        if bool_decide (state hint_task = TASK_READY)
           && (rt_prio hint_task =? NULL) then
          let counter := u8 (Z.land (prio hint_task) 0xFF) in
          if counter =? 0 then
            let counter := u8 (Z.land (Z.shiftr (prio hint_task) 8) 0xFF) in
            store p (set_prio hint_task
                       (u16 (Z.lor (Z.land (prio hint_task) 0xFF00) counter))) ;;
            ret (Some n)
          else ret None
        else ret None
  end.

(** The loop [while (itcnt++ < SCHED_IMAX)] of [find_next_ready_task]: [n]
    is the number of iterations left, [SCHED_IMAX - itcnt].  The second
    component of the result counts the iterations run, one node of the
    circular list each. *)
Fixpoint ready_walk (n : nat) (node : option nat) (visits : nat)
    : M (option nat * nat) :=
  match n with
  | O => ret (None, visits)
  | S n' =>
      l <- gets tasks ;;
      match list_cnext l node with
      | None => ret (None, S visits)
      | Some i =>
          p <- node_data i ;;
          if p =? NULL then ret (None, S visits)
          else
            task <- deref p ;;
            if negb (bool_decide (state task = TASK_READY))
               || negb (rt_prio task =? NULL)
            then ready_walk n' (Some i) (S visits)
            else
              let counter := u8 (Z.land (prio task) 0xFF) in
              let counter := if counter =? 0 then counter
                             else u8 (counter - 1) in
              let task1 :=
                set_prio task (u16 (Z.lor (Z.land (prio task) 0xFF00) counter)) in
              if counter =? 0 then
                let counter := u8 (Z.land (Z.shiftr (prio task1) 8) 0xFF) in
                store p (set_prio task1
                           (u16 (Z.lor (Z.land (prio task1) 0xFF00) counter))) ;;
                modify (set_last_ready_hint (Some i)) ;;
                ret (Some i, S visits)
              else
                store p task1 ;;
                ready_walk n' (Some i) (S visits)
      end
  end.

(** [find_next_ready_task], returning with the node the number of list
    nodes its loop visited. *)
Definition find_next_ready_task_visits : M (option nat * nat) :=
  cur <- gets task_current ;;
  match cur with
  | None => ret (None, 0%nat)
  | Some _ =>
      h <- ready_hint ;;
      match h with
      | Some n => ret (Some n, 0%nat)
      | None =>
          r <- ready_walk (Z.to_nat SCHED_IMAX) cur 0 ;;
          match fst r with
          | Some _ => ret r
          | None => modify (set_last_ready_hint None) ;; ret r
          end
      end
  end.

Definition find_next_ready_task : M (option nat) :=
  r <- find_next_ready_task_visits ;;
  ret (fst r).

Definition schedule_next_task : M Z :=
  cur <- gets task_current ;;
  match cur with
  | None => panic ERR_NO_TASKS
  | Some c =>
      p <- node_data c ;;
      if p =? NULL then panic ERR_NO_TASKS
      else
        current_task <- deref p ;;
        (if bool_decide (state current_task = TASK_RUNNING)
         then store p (set_state current_task TASK_READY)
         else ret tt) ;;
        next_node <- find_next_ready_task ;;
        match next_node with
        | None => panic ERR_NO_TASKS
        | Some n =>
            modify (set_task_current (Some n)) ;;
            np <- node_data n ;;
            next_task <- deref np ;;
            store np (set_state next_task TASK_RUNNING) ;;
            ret (id next_task)
        end
  end.

(** [get_task_current() && get_task_current()->data] *)
Definition current_task_ptr : M Z :=
  cur <- gets task_current ;;
  match cur with
  | None => ret NULL
  | Some c => node_data c
  end.

(** [dispatch], from the direct return of [setjmp] to the [longjmp] into
    the task the scheduler chose. *)
Definition dispatch : M unit :=
  p <- current_task_ptr ;;
  if p =? NULL then panic ERR_NO_TASKS
  else
    task_stack_check ;;
    list_foreach delay_update ;;
    r <- gets rt_sched ;;
    (if r <? 0 then schedule_next_task ;; ret tt else ret tt) ;;
    p' <- current_task_ptr ;;
    deref p' ;;
    ret tt.

(** [yield], likewise. *)
Definition yield : M unit :=
  p <- current_task_ptr ;;
  if p =? NULL then ret tt
  else
    task_stack_check ;;
    pre <- gets preemptive ;;
    (if negb pre then list_foreach delay_update ;; ret tt else ret tt) ;;
    schedule_next_task ;;
    ret tt.

(** The first step of [dispatcher], before the timer handler and
    [dispatch]: the tick counter goes up by one. *)
Definition dispatcher_tick : M unit :=
  modify (fun k => set_ticks (u32 (ticks k + 1)) k).

Definition mo_task_yield : M unit := yield.

Definition mo_task_id : M Z :=
  p <- current_task_ptr ;;
  if p =? NULL then ret 0
  else t <- deref p ;; ret (id t).

Definition mo_ticks : M Z := gets ticks.

Definition init_task_stack (tcb : Z) (stack_size : Z) (found : Z) : M bool :=
  let stk := malloc stack_size found in
  if stk =? NULL then ret false
  else if negb (Z.land stk 0x3 =? 0) then ret false
  else
    t <- deref tcb ;;
    store tcb (Tcb stk stack_size (entry t) (prio t) (delay t) (id t)
                   (state t) (flags t) (rt_prio t)
                   STACK_CANARY STACK_CANARY) ;;
    ret true.

(** [mo_task_spawn].  [tcb_found] is what [malloc(sizeof(tcb_t))] returns
    and [stack_found] the block the heap has for the stack; [list_ok] and
    [node_ok] tell whether [list_create] and [list_pushback] get their
    memory.  The fields of the fresh TCB that the function assigns later
    are 0 until then. *)
Definition mo_task_spawn (task_entry : Z) (stack_size_req : Z)
    (tcb_found stack_found : Z) (list_ok node_ok : bool) : M Z :=
  if task_entry =? NULL then panic ERR_TCB_ALLOC
  else
    let new_stack_size := stack_size_req in
    let new_stack_size :=
      if new_stack_size <? MIN_TASK_STACK_SIZE then MIN_TASK_STACK_SIZE
      else new_stack_size in
    let new_stack_size := u32 (Z.land (new_stack_size + 0xF) (u32 (Z.lnot 0xF))) in
    let tcb := tcb_found in
    if tcb =? NULL then panic ERR_TCB_ALLOC
    else
      let base := u8 (Z.shiftr TASK_PRIO_NORMAL 8) in
      store tcb (Tcb 0 0 task_entry (u16 (Z.shiftl (u16 base) 8)) 0 0
                     TASK_STOPPED 0 NULL 0 0) ;;
      ok <- init_task_stack tcb new_stack_size stack_found ;;
      if negb ok then panic ERR_STACK_ALLOC
      else
        l <- gets tasks ;;
        (match l with
         | Some _ => ret tt
         | None => if list_ok then modify (set_tasks (Some []))
                   else panic ERR_KCB_ALLOC
         end) ;;
        if negb node_ok then panic ERR_TCB_ALLOC
        else
          l <- gets (fun k => default [] (tasks k)) ;;
          let node := length l in
          modify (set_tasks (Some (l ++ [tcb]))) ;;
          t <- deref tcb ;;
          tid <- gets next_tid ;;
          store tcb (Tcb (stack t) (stack_sz t) (entry t) (prio t) (delay t)
                         tid (state t) (flags t) (rt_prio t)
                         (canary_lo t) (canary_hi t)) ;;
          modify (fun k => set_ids (u16 (next_tid k + 1))
                                   (u16 (task_count k + 1)) k) ;;
          cur <- gets task_current ;;
          (match cur with
           | None => modify (set_task_current (Some node))
           | Some _ => ret tt
           end) ;;
          cache_task tid tcb ;;
          t <- deref tcb ;;
          store tcb (set_state t TASK_READY) ;;
          ret tid.

(** [mo_task_delay] up to the end of its critical section; the boolean
    tells whether the function then calls [mo_task_yield]. *)
Definition mo_task_delay_enter (ticks : Z) : M bool :=
  if ticks =? 0 then ret false
  else
    p <- current_task_ptr ;;
    if p =? NULL then ret false
    else
      self <- deref p ;;
      store p (set_state (set_delay self ticks) TASK_BLOCKED) ;;
      ret true.

Definition mo_task_delay (ticks : Z) : M unit :=
  y <- mo_task_delay_enter ticks ;;
  if (y : bool) then mo_task_yield else ret tt.

Definition mo_task_suspend (tid : Z) : M err_t :=
  if tid =? 0 then ret ERR_TASK_NOT_FOUND
  else
    node <- find_task_node_by_id tid ;;
    match node with
    | None => ret ERR_TASK_NOT_FOUND
    | Some n =>
        p <- node_data n ;;
        if p =? NULL then ret ERR_TASK_CANT_SUSPEND
        else
          task <- deref p ;;
          if negb (bool_decide (state task = TASK_READY))
             && negb (bool_decide (state task = TASK_RUNNING))
             && negb (bool_decide (state task = TASK_BLOCKED))
          then ret ERR_TASK_CANT_SUSPEND
          else
            store p (set_state task TASK_SUSPENDED) ;;
            cur <- gets task_current ;;
            let is_current := bool_decide (cur = Some n) in
            hint <- gets last_ready_hint ;;
            (if bool_decide (hint = Some n)
             then modify (set_last_ready_hint None) else ret tt) ;;
            (if is_current then mo_task_yield else ret tt) ;;
            ret ERR_OK
    end.

Definition mo_task_resume (tid : Z) : M err_t :=
  if tid =? 0 then ret ERR_TASK_NOT_FOUND
  else
    node <- find_task_node_by_id tid ;;
    match node with
    | None => ret ERR_TASK_NOT_FOUND
    | Some n =>
        p <- node_data n ;;
        if p =? NULL then ret ERR_TASK_CANT_RESUME
        else
          task <- deref p ;;
          if negb (bool_decide (state task = TASK_SUSPENDED))
          then ret ERR_TASK_CANT_RESUME
          else
            store p (set_state task TASK_READY) ;;
            ret ERR_OK
    end.

Definition mo_task_priority (tid : Z) (priority : Z) : M err_t :=
  if (tid =? 0) || negb (is_valid_priority priority)
  then ret ERR_TASK_INVALID_PRIO
  else
    node <- find_task_node_by_id tid ;;
    match node with
    | None => ret ERR_TASK_NOT_FOUND
    | Some n =>
        p <- node_data n ;;
        if p =? NULL then ret ERR_TASK_NOT_FOUND
        else
          task <- deref p ;;
          let base := u8 (Z.shiftr priority 8) in
          store p (set_prio task (u16 (Z.lor (Z.shiftl (u16 base) 8) base))) ;;
          ret ERR_OK
    end.

Definition mo_task_rt_priority (tid : Z) (priority : Z) : M err_t :=
  if tid =? 0 then ret ERR_TASK_NOT_FOUND
  else
    node <- find_task_node_by_id tid ;;
    match node with
    | None => ret ERR_TASK_NOT_FOUND
    | Some n =>
        p <- node_data n ;;
        if p =? NULL then ret ERR_TASK_NOT_FOUND
        else
          task <- deref p ;;
          store p (set_rt_prio task priority) ;;
          ret ERR_OK
    end.

(** ** Bounded FIFO (lib/queue.c) and list operations (lib/list.h) *)

(** Modelled from the spec: lib/queue.c is missing.  A queue is the
    spec's "bounded FIFO" of opaque pointers: [q_buf] holds the entries,
    oldest first, and [q_size] is the capacity. *)
Record queue_t := Queue {
  q_buf : list Z;
  q_size : Z
}.

(** Modelled from the spec: lib/queue.c is missing.  The number of
    entries queued. *)
Definition queue_count (q : queue_t) : Z := Z.of_nat (length (q_buf q)).

(** Modelled from the spec: lib/queue.c is missing.  The FIFO is bounded:
    it is full when it holds [q_size] entries. *)
Definition queue_is_full (q : queue_t) : bool := q_size q <=? queue_count q.

(** Modelled from the spec: lib/queue.c is missing.  [queue_enqueue]
    appends at the tail of a "bounded FIFO" that has room, and then
    returns 0: the result is the new queue.  A full queue is left as it
    is and the call returns a code other than 0, [None]; which code is
    decided in lib/queue.c and nowhere in the sources at hand, so the
    model has none. *)
Definition queue_enqueue (q : queue_t) (p : Z) : option queue_t :=
  if queue_is_full q then None
  else Some (Queue (q_buf q ++ [p]) (q_size q)).

(** Modelled from the spec: lib/queue.c is missing.  [queue_dequeue]
    removes the oldest entry; NULL on an empty queue. *)
Definition queue_dequeue (q : queue_t) : Z * queue_t :=
  match q_buf q with
  | [] => (NULL, q)
  | p :: rest => (p, Queue rest (q_size q))
  end.

(** Modelled from the spec: lib/queue.c is missing.  [queue_peek] returns
    the oldest entry without removing it; NULL on an empty queue. *)
Definition queue_peek (q : queue_t) : Z :=
  match q_buf q with
  | [] => NULL
  | p :: _ => p
  end.

(** Modelled from the spec: lib/list.h is missing.  A waiter list holds
    the data pointers of its nodes, in order. *)
Definition list_is_empty (l : list Z) : bool :=
  match l with [] => true | _ => false end.




(** Modelled from the spec: lib/queue.c is missing.  [queue_create]
    returns an empty "fixed-capacity FIFO" of the capacity asked for, or
    NULL ([None]) when it gets no memory; [ok] tells which. *)
Definition queue_create (capacity : Z) (ok : bool) : option queue_t :=
  if ok then Some (Queue [] capacity) else None.

(** [_sched_block] of kernel/task.c: the caller joins [wait_q], becomes
    BLOCKED and yields.  The result is the queue with the caller in it. *)
Definition _sched_block (wait_q : option queue_t) : M queue_t :=
  match wait_q with
  | None => panic ERR_SEM_OPERATION
  | Some q =>
      self <- current_task_ptr ;;
      if self =? NULL then panic ERR_SEM_OPERATION
      else
        match queue_enqueue q self with
        | None => panic ERR_SEM_OPERATION
        | Some q' =>
            t <- deref self ;;
            store self (set_state t TASK_BLOCKED) ;;
            yield ;;
            ret q'
        end
  end.

(** ** Semaphores (kernel/semaphore.c) *)

Record sem_t := Sem {
  sem_wait_q : option queue_t;
  sem_count : Z;
  sem_max_waiters : Z;
  sem_magic : Z
}.

Definition SEM_MAGIC : Z := 0x53454D00.

Definition sem_is_valid (s : sem_t) : bool :=
  (sem_magic s =? SEM_MAGIC) && bool_decide (is_Some (sem_wait_q s)).

Section Semaphore.

(** sys/semaphore.h is missing: the ceiling of the count is a
    parameter. *)
Variable SEM_MAX_COUNT : Z.

(** The critical section of [mo_sem_signal]; the boolean is
    [should_yield]. *)
Definition mo_sem_signal_locked (s : sem_t) : M (sem_t * bool) :=
  match sem_wait_q s with
  | None => fault
  | Some q =>
      if 0 <? queue_count q then
        let (awakened_task, q') := queue_dequeue q in
        let s' := Sem (Some q') (sem_count s) (sem_max_waiters s)
                      (sem_magic s) in
        if awakened_task =? NULL then ret (s', false)
        else
          t <- deref awakened_task ;;
          if bool_decide (state t = TASK_BLOCKED) then
            store awakened_task (set_state t TASK_READY) ;;
            ret (s', true)
          else panic ERR_SEM_OPERATION
      else if sem_count s <? SEM_MAX_COUNT then
        ret (Sem (sem_wait_q s) (i32 (sem_count s + 1)) (sem_max_waiters s)
                 (sem_magic s), false)
      else ret (s, false)
  end.


End Semaphore.

Definition set_sem_count (s : sem_t) (v : Z) : sem_t :=
  Sem (sem_wait_q s) v (sem_max_waiters s) (sem_magic s).
Definition set_sem_wait_q (s : sem_t) (q : queue_t) : sem_t :=
  Sem (Some q) (sem_count s) (sem_max_waiters s) (sem_magic s).

(** [mo_sem_wait]: the new semaphore, in the state in which the caller
    went on (fast path) or in which the task chosen by the scheduler goes
    on while the caller waits (slow path). *)
Definition mo_sem_wait (s : sem_t) : M sem_t :=
  if negb (sem_is_valid s) then panic ERR_SEM_OPERATION
  else
    match sem_wait_q s with
    | None => fault
    | Some q =>
        if (0 <? sem_count s) && (queue_count q =? 0) then
          ret (set_sem_count s (i32 (sem_count s - 1)))
        else if sem_max_waiters s <=? queue_count q then
          panic ERR_SEM_OPERATION
        else
          q' <- _sched_block (sem_wait_q s) ;;
          ret (set_sem_wait_q s q')
    end.

Definition mo_sem_trywait (s : sem_t) : err_t * sem_t :=
  if negb (sem_is_valid s) then (ERR_FAIL, s)
  else
    match sem_wait_q s with
    | None => (ERR_FAIL, s)
    | Some q =>
        if (0 <? sem_count s) && (queue_count q =? 0) then
          (ERR_OK, set_sem_count s (i32 (sem_count s - 1)))
        else (ERR_FAIL, s)
    end.




Section SemaphoreCreate.

Variable SEM_MAX_COUNT : Z.

(** [mo_sem_create]: [sem_found] is what [malloc(sizeof(sem_t))] returns
    and [queue_ok] tells whether [queue_create] gets its memory; [None] is
    the NULL result. *)
Definition mo_sem_create (max_waiters initial_count : Z)
    (sem_found : Z) (queue_ok : bool) : option sem_t :=
  if (max_waiters =? 0) || (initial_count <? 0)
     || (SEM_MAX_COUNT <? initial_count) then None
  else if sem_found =? NULL then None
  else
    match queue_create max_waiters queue_ok with
    | None => None
    | Some q => Some (Sem (Some q) initial_count max_waiters SEM_MAGIC)
    end.

(** The invariant of a semaphore: it is valid, its count is between 0 and
    the ceiling, tokens and waiters never coexist, and the wait queue has
    room for [max_waiters] tasks. *)
Definition sem_inv (s : sem_t) : Prop :=
  sem_is_valid s = true /\ 0 <= sem_count s <= SEM_MAX_COUNT /\
  exists q, sem_wait_q s = Some q /\
            (0 < sem_count s -> q_buf q = []) /\
            q_size q = sem_max_waiters s /\
            0 < q_size q /\ queue_count q <= q_size q.

End SemaphoreCreate.

(** ** Mutexes (kernel/mutex.c) *)

Record mutex_t := Mutex {
  mutex_waiters : option (list Z);
  owner_tid : Z;
  mutex_magic : Z
}.



Section Mutex.

(** sys/mutex.h is missing: the magic number is a parameter. *)
Variable MUTEX_MAGIC : Z.

Definition mutex_is_valid (m : mutex_t) : bool :=
  (mutex_magic m =? MUTEX_MAGIC) && bool_decide (is_Some (mutex_waiters m)).



(** The condition of the wait loop, and the critical section that
    follows the loop. *)
Definition timedlock_keeps_waiting (self deadline : Z) : M bool :=
  t <- deref self ;;
  now <- mo_ticks ;;
  ret (bool_decide (state t = TASK_BLOCKED) && (now <? deadline)).



End Mutex.


(** Modelled from the spec: sys/mutex.h is missing.  A condition
    variable is the spec's "{ waiters: list of TCB*, magic }". *)
Record cond_t := Cond {
  cond_waiters : option (list Z);
  cond_magic : Z
}.


Section MutexOps.

Variable MUTEX_MAGIC : Z.

(** [mo_mutex_init]; [None] is the NULL pointer, and [list_ok] tells
    whether [list_create] gets its memory. *)
Definition mo_mutex_init (m : option mutex_t) (list_ok : bool)
    : err_t * option mutex_t :=
  match m with
  | None => (ERR_FAIL, None)
  | Some _ =>
      if negb list_ok then (ERR_FAIL, Some (Mutex None 0 0))
      else (ERR_OK, Some (Mutex (Some []) 0 MUTEX_MAGIC))
  end.

Definition mo_mutex_destroy (m : option mutex_t) : err_t * option mutex_t :=
  match m with
  | None => (ERR_OK, None)
  | Some m =>
      if negb (mutex_is_valid MUTEX_MAGIC m) then (ERR_FAIL, Some m)
      else if negb (list_is_empty (default [] (mutex_waiters m))) then
        (ERR_TASK_BUSY, Some m)
      else if negb (owner_tid m =? 0) then (ERR_TASK_BUSY, Some m)
      else (ERR_OK, Some (Mutex None 0 0))
  end.



Definition mo_mutex_waiting_count (m : mutex_t) : Z :=
  if negb (mutex_is_valid MUTEX_MAGIC m) then -1
  else match mutex_waiters m with
       | Some l => i32 (Z.of_nat (length l))
       | None => 0
       end.

(** sys/mutex.h is missing: the magic number of a condition variable is
    a parameter. *)
Variable COND_MAGIC : Z.

Definition cond_is_valid (c : cond_t) : bool :=
  (cond_magic c =? COND_MAGIC) && bool_decide (is_Some (cond_waiters c)).

Definition mo_cond_init (c : option cond_t) (list_ok : bool)
    : err_t * option cond_t :=
  match c with
  | None => (ERR_FAIL, None)
  | Some _ =>
      if negb list_ok then (ERR_FAIL, Some (Cond None 0))
      else (ERR_OK, Some (Cond (Some []) COND_MAGIC))
  end.

Definition mo_cond_destroy (c : option cond_t) : err_t * option cond_t :=
  match c with
  | None => (ERR_OK, None)
  | Some c =>
      if negb (cond_is_valid c) then (ERR_FAIL, Some c)
      else if negb (list_is_empty (default [] (cond_waiters c))) then
        (ERR_TASK_BUSY, Some c)
      else (ERR_OK, Some (Cond None 0))
  end.





Definition mo_cond_waiting_count (c : cond_t) : Z :=
  if negb (cond_is_valid c) then -1
  else match cond_waiters c with
       | Some l => i32 (Z.of_nat (length l))
       | None => 0
       end.




End MutexOps.

(** ** Message queues (kernel/mqueue.c) *)

Record mq_t := Mq { mq_q : queue_t }.

(** [mo_mq_enqueue] returns the code of [queue_enqueue] as it is.
    lib/queue.c is missing: the code it returns on a full queue, which is
    not 0, is the parameter [queue_full_rc]. *)
Definition mo_mq_enqueue (queue_full_rc : Z) (mq : mq_t) (msg : Z)
    : Z * mq_t :=
  match queue_enqueue (mq_q mq) msg with
  | Some q' => (0, Mq q')
  | None => (queue_full_rc, mq)
  end.

Definition mo_mq_dequeue (mq : mq_t) : Z * mq_t :=
  let (msg, q') := queue_dequeue (mq_q mq) in
  (msg, Mq q').

Definition mo_mq_peek (mq : mq_t) : Z := queue_peek (mq_q mq).

(** ** Pipes (kernel/pipe.c) *)

(** Modelled from the spec: private/utils.h is missing.  [ispowerof2]
    tells whether its argument is a power of two, and [nextpowerof2] rounds
    a 32-bit value up to the next power of two. *)
Definition ispowerof2 (x : Z) : bool := (0 <? x) && (2 ^ Z.log2 x =? x).
Definition nextpowerof2 (x : Z) : Z := u32 (2 ^ Z.log2_up x).

(** Modelled from the spec: sys/pipe.h is missing.  The fields of the
    spec's pipe, the indices and the count 16 bits wide like the size
    argument of [mo_pipe_create].  [pipe_buf] is the buffer; a read outside
    it gives 0 and a write outside it is dropped. *)
Record pipe_t := Pipe {
  pipe_buf : list Z;
  pipe_mask : Z;
  pipe_head : Z;
  pipe_tail : Z;
  pipe_used : Z
}.

Definition pipe_is_empty (p : pipe_t) : bool := pipe_used p =? 0.

Definition pipe_is_full (p : pipe_t) : bool := pipe_used p =? pipe_mask p + 1.

Definition pipe_get_byte (p : pipe_t) : Z * pipe_t :=
  (default 0 (pipe_buf p !! Z.to_nat (pipe_head p)),
   Pipe (pipe_buf p) (pipe_mask p)
        (u16 (Z.land (pipe_head p + 1) (pipe_mask p)))
        (pipe_tail p)
        (u16 (pipe_used p - 1))).

Definition pipe_put_byte (p : pipe_t) (c : Z) : pipe_t :=
  Pipe (<[Z.to_nat (pipe_tail p) := c]> (pipe_buf p)) (pipe_mask p)
       (pipe_head p)
       (u16 (Z.land (pipe_tail p + 1) (pipe_mask p)))
       (u16 (pipe_used p + 1)).

(** [mo_pipe_create]: [p_found] is what [malloc(sizeof *p)] returns and
    [buf_found] the block the heap has for the buffer; [None] is the NULL
    result.  The fresh buffer is taken to hold zeros. *)
Definition mo_pipe_create (size : Z) (p_found buf_found : Z) : option pipe_t :=
  let size := if size <? 2 then 2 else size in
  let size := if negb (ispowerof2 size) then u16 (nextpowerof2 size)
              else size in
  if p_found =? NULL then None
  else if malloc size buf_found =? NULL then None
  else Some (Pipe (replicate (Z.to_nat size) 0) (u16 (size - 1)) 0 0 0).

Definition mo_pipe_flush (p : pipe_t) : pipe_t :=
  Pipe (pipe_buf p) (pipe_mask p) 0 0 0.

Definition mo_pipe_size (p : pipe_t) : Z := pipe_used p.

(** What a pipe call has done when it stops: returned an error code,
    returned a byte count, or (blocking calls only) moved [n] bytes and
    then stayed in [pipe_wait_until_readable] or
    [pipe_wait_until_writable], where it spins until another task changes
    the pipe. *)
Inductive pipe_ret :=
  | PipeErr (e : err_t)
  | PipeCount (n : Z)
  | PipeWaits (n : Z).

(** The loops, by the number of bytes still to move; [out] and [i] are
    the bytes moved so far.  In [pipe_read_loop] and [pipe_write_loop] the
    test of the wait and the move of the byte follow each other at once:
    they are [mo_pipe_read] and [mo_pipe_write] for a caller that no other
    task interrupts between its critical sections.  What other tasks can
    do in between is told by [pipe_event] below. *)
Fixpoint pipe_read_loop (n : nat) (p : pipe_t) (out : list Z)
    : pipe_ret * list Z * pipe_t :=
  match n with
  | O => (PipeCount (Z.of_nat (length out)), out, p)
  | S n' =>
      if pipe_is_empty p then (PipeWaits (Z.of_nat (length out)), out, p)
      else let (c, p') := pipe_get_byte p in
           pipe_read_loop n' p' (out ++ [c])
  end.

Fixpoint pipe_write_loop (n : nat) (p : pipe_t) (src : list Z) (i : nat)
    : pipe_ret * pipe_t :=
  match n with
  | O => (PipeCount (Z.of_nat i), p)
  | S n' =>
      if pipe_is_full p then (PipeWaits (Z.of_nat i), p)
      else pipe_write_loop n' (pipe_put_byte p (default 0 (src !! i))) src (S i)
  end.

Fixpoint pipe_nbread_loop (n : nat) (p : pipe_t) (out : list Z)
    : list Z * pipe_t :=
  match n with
  | O => (out, p)
  | S n' =>
      if pipe_is_empty p then (out, p)
      else let (c, p') := pipe_get_byte p in
           pipe_nbread_loop n' p' (out ++ [c])
  end.

Fixpoint pipe_nbwrite_loop (n : nat) (p : pipe_t) (src : list Z) (i : nat)
    : nat * pipe_t :=
  match n with
  | O => (i, p)
  | S n' =>
      if pipe_is_full p then (i, p)
      else pipe_nbwrite_loop n' (pipe_put_byte p (default 0 (src !! i))) src (S i)
  end.

(** [dst] and [src] are the addresses passed; the bytes at [src] are
    [data]. *)
Definition mo_pipe_read (p : pipe_t) (dst : Z) (len : Z)
    : pipe_ret * list Z * pipe_t :=
  if (dst =? NULL) || (len =? 0) then (PipeErr ERR_FAIL, [], p)
  else pipe_read_loop (Z.to_nat len) p [].

Definition mo_pipe_write (p : pipe_t) (src : Z) (data : list Z) (len : Z)
    : pipe_ret * pipe_t :=
  if (src =? NULL) || (len =? 0) then (PipeErr ERR_FAIL, p)
  else pipe_write_loop (Z.to_nat len) p data 0.

Definition mo_pipe_nbread (p : pipe_t) (dst : Z) (len : Z)
    : pipe_ret * list Z * pipe_t :=
  if (dst =? NULL) || (len =? 0) then (PipeErr ERR_FAIL, [], p)
  else let (out, p') := pipe_nbread_loop (Z.to_nat len) p [] in
       (PipeCount (Z.of_nat (length out)), out, p').

Definition mo_pipe_nbwrite (p : pipe_t) (src : Z) (data : list Z) (len : Z)
    : pipe_ret * pipe_t :=
  if (src =? NULL) || (len =? 0) then (PipeErr ERR_FAIL, p)
  else let (i, p') := pipe_nbwrite_loop (Z.to_nat len) p data 0 in
       (PipeCount (Z.of_nat i), p').

(** A pipe operation, and the pipe after a sequence of them. *)
Inductive pipe_op :=
  | OpRead (dst len : Z)
  | OpWrite (src : Z) (data : list Z) (len : Z)
  | OpNbRead (dst len : Z)
  | OpNbWrite (src : Z) (data : list Z) (len : Z)
  | OpFlush.

Definition pipe_apply (p : pipe_t) (op : pipe_op) : pipe_t :=
  match op with
  | OpRead dst len => snd (mo_pipe_read p dst len)
  | OpWrite src data len => snd (mo_pipe_write p src data len)
  | OpNbRead dst len => snd (mo_pipe_nbread p dst len)
  | OpNbWrite src data len => snd (mo_pipe_nbwrite p src data len)
  | OpFlush => mo_pipe_flush p
  end.

Definition pipe_run (p : pipe_t) (ops : list pipe_op) : pipe_t :=
  fold_left pipe_apply ops p.

(** The size [mo_pipe_create] settles on for a request of [size] bytes. *)
Definition pipe_capacity (size : Z) : Z :=
  let size := if size <? 2 then 2 else size in
  if negb (ispowerof2 size) then u16 (nextpowerof2 size) else size.

(** The invariant of the spec (P5) for a pipe of capacity [cap], with the
    width of the mask and the length of the buffer. *)
Definition is_power_of_two (c : Z) : Prop := exists e : Z, 0 <= e /\ c = 2 ^ e.

Record pipe_inv (cap : Z) (p : pipe_t) : Prop := PipeInv {
  inv_cap : pipe_mask p + 1 = cap;
  inv_capacity : is_power_of_two cap;
  inv_capacity_min : 2 <= cap;
  inv_mask : pipe_mask p < 2 ^ 16;
  inv_used : 0 <= pipe_used p <= pipe_mask p + 1;
  inv_head : 0 <= pipe_head p <= pipe_mask p;
  inv_tail : 0 <= pipe_tail p <= pipe_mask p;
  inv_buf : Z.of_nat (length (pipe_buf p)) = pipe_mask p + 1
}.

(** The bytes a pipe holds, oldest first: the [used] bytes of the ring
    from [head] on. *)
Definition pipe_contents (p : pipe_t) : list Z :=
  map (fun i => default 0
                  (pipe_buf p !! Z.to_nat (Z.land (pipe_head p + Z.of_nat i)
                                                  (pipe_mask p))))
      (seq 0 (Z.to_nat (pipe_used p))).

(** A well-formed pipe: the invariant, a capacity that the 16-bit count
    can hold, and [tail] where the ring's content ends. *)
Definition pipe_wf (cap : Z) (p : pipe_t) : Prop :=
  pipe_inv cap p /\ cap <= 2 ^ 15 /\
  pipe_tail p = Z.land (pipe_head p + pipe_used p) (pipe_mask p).

(** *** The critical sections of the blocking calls

    [mo_pipe_read] moves each byte in two critical sections: in the
    first, [pipe_wait_until_readable] tests the pipe under [pipe_lock] and
    gives the lock back; in the second, the byte is taken with
    [pipe_get_byte], without a test.  [mo_pipe_write] does the same with
    [pipe_wait_until_writable] and [pipe_put_byte].  Interrupts are off
    only inside a critical section, so in preemptive mode the tick can
    run another task between the two.  [pipe_read_loop] and
    [pipe_write_loop] above are the calls when nothing runs in between;
    the events below are the critical sections one by one. *)
Inductive pipe_event :=
  | EvReadable
  | EvGet
  | EvWritable
  | EvPut (c : Z)
  | EvCall (op : pipe_op).

(** The pipe, and where the tasks in [mo_pipe_read] and in
    [mo_pipe_write] are: how many of them have left their wait and have
    their byte still to move. *)
Record pipe_sched := PipeSched {
  sched_pipe : pipe_t;
  readers_cleared : nat;
  writers_cleared : nat
}.

(** One event, of any task: [EvReadable] and [EvWritable] are one turn of
    the loop of a wait, which returns when the pipe is not empty (not
    full) and otherwise goes round again; [EvGet] and [EvPut] are the
    second critical sections of [mo_pipe_read] and [mo_pipe_write]; and
    [EvCall] is a call that runs from its first critical section to its
    last with no other task in between, as [mo_pipe_nbread],
    [mo_pipe_nbwrite] and [mo_pipe_flush] always do.  [None] for an event
    the code cannot produce: a byte is moved only by a task whose wait has
    returned. *)
Definition pipe_event_apply (s : pipe_sched) (e : pipe_event)
    : option pipe_sched :=
  match e with
  | EvReadable =>
      Some (PipeSched (sched_pipe s)
              (if pipe_is_empty (sched_pipe s) then readers_cleared s
               else S (readers_cleared s))
              (writers_cleared s))
  | EvGet =>
      match readers_cleared s with
      | O => None
      | S r =>
          Some (PipeSched (pipe_get_byte (sched_pipe s)).2 r
                  (writers_cleared s))
      end
  | EvWritable =>
      Some (PipeSched (sched_pipe s) (readers_cleared s)
              (if pipe_is_full (sched_pipe s) then writers_cleared s
               else S (writers_cleared s)))
  | EvPut c =>
      match writers_cleared s with
      | O => None
      | S w =>
          Some (PipeSched (pipe_put_byte (sched_pipe s) c)
                  (readers_cleared s) w)
      end
  | EvCall op =>
      Some (PipeSched (pipe_apply (sched_pipe s) op)
              (readers_cleared s) (writers_cleared s))
  end.

Fixpoint pipe_schedule (s : pipe_sched) (evs : list pipe_event)
    : option pipe_sched :=
  match evs with
  | [] => Some s
  | e :: evs' =>
      match pipe_event_apply s e with
      | None => None
      | Some s' => pipe_schedule s' evs'
      end
  end.

(** Nothing that takes bytes falls between the wait of a reader and its
    move, and nothing that adds bytes between the wait of a writer and its
    move: a reader tests the pipe only when no other reader has its byte
    still to take, a writer only when no other writer has its byte still
    to put, and a whole call runs only when no task has a byte still to
    move.  One reader and one writer may go on side by side. *)
Fixpoint gap_free (s : pipe_sched) (evs : list pipe_event) : bool :=
  match evs with
  | [] => true
  | e :: evs' =>
      match pipe_event_apply s e with
      | None => false
      | Some s' =>
          match e with
          | EvReadable => (readers_cleared s =? 0)%nat
          | EvWritable => (writers_cleared s =? 0)%nat
          | EvCall _ =>
              (readers_cleared s =? 0)%nat && (writers_cleared s =? 0)%nat
          | _ => true
          end && gap_free s' evs'
      end
  end.

(** A blocking read of [n] bytes that no other task interrupts. *)
Fixpoint read_alone (n : nat) : list pipe_event :=
  match n with
  | O => []
  | S n' => EvReadable :: EvGet :: read_alone n'
  end.


(** ** Software timers (kernel/timer.c) *)

(** Modelled from the spec: sys/timer.h is missing.  The three modes of
    a timer, "mode ∈ {DISABLED, ONESHOT, AUTORELOAD}". *)
Inductive timer_mode := TIMER_DISABLED | TIMER_ONESHOT | TIMER_AUTORELOAD.

#[global] Instance timer_mode_eq_dec : EqDecision timer_mode.
Proof. solve_decision. Defined.

(** Modelled from the spec: sys/timer.h is missing.  The fields are the
    ones the spec lists and timer.c uses. *)
Record timer_t := Timer {
  timer_id : Z;
  callback : Z;
  arg : Z;
  period_ms : Z;
  deadline_ticks : Z;
  mode : timer_mode
}.

Definition set_deadline_ticks (t : timer_t) (v : Z) : timer_t :=
  Timer (timer_id t) (callback t) (arg t) (period_ms t) v (mode t).
Definition set_mode (t : timer_t) (v : timer_mode) : timer_t :=
  Timer (timer_id t) (callback t) (arg t) (period_ms t) (deadline_ticks t) v.

Definition TIMER_NODE_POOL_SIZE : Z := 16.

(** The state the tick handler works on: the timers by address, the
    active list [kcb->timer_list] (the data pointers of its nodes, in
    order), [kcb->ticks], the file-level [timer_initialized] and
    [pool_free_mask], and the calls made to callbacks so far, oldest
    first, as pairs of the function and its argument. *)
Record timer_sys := TimerSys {
  timers : gmap Z timer_t;
  timer_list : list Z;
  kcb_ticks : Z;
  timer_initialized : bool;
  pool_free_mask : Z;
  called : list (Z * Z)
}.

Definition set_timers (f : gmap Z timer_t -> gmap Z timer_t) (s : timer_sys)
    : timer_sys :=
  TimerSys (f (timers s)) (timer_list s) (kcb_ticks s) (timer_initialized s)
           (pool_free_mask s) (called s).
Definition set_timer_list (l : list Z) (s : timer_sys) : timer_sys :=
  TimerSys (timers s) l (kcb_ticks s) (timer_initialized s)
           (pool_free_mask s) (called s).
Definition set_pool_free_mask (v : Z) (s : timer_sys) : timer_sys :=
  TimerSys (timers s) (timer_list s) (kcb_ticks s) (timer_initialized s)
           v (called s).
Definition add_called (c : Z * Z) (s : timer_sys) : timer_sys :=
  TimerSys (timers s) (timer_list s) (kcb_ticks s) (timer_initialized s)
           (pool_free_mask s) (called s ++ [c]).

(** The index of the first free node of the pool, searching [n] indices
    from [i]. *)
Fixpoint pool_first_free (n : nat) (i : Z) (free_mask : Z) : option Z :=
  match n with
  | O => None
  | S n' =>
      if negb (Z.land free_mask (Z.shiftl 1 i) =? 0) then Some i
      else pool_first_free n' (i + 1) free_mask
  end.

Section Timer.

(** sys/timer.h is missing: the conversion macro is a parameter.
    [malloc_node] is what [malloc(sizeof(list_node_t))] returns when the
    pool is used up. *)
Variable MS_TO_TICKS : Z -> Z.
Variable malloc_node : Z.

(** [get_timer_node]: whether a node was obtained. *)
Definition get_timer_node (s : timer_sys) : bool * timer_sys :=
  match pool_first_free (Z.to_nat TIMER_NODE_POOL_SIZE) 0 (pool_free_mask s) with
  | Some i =>
      (true,
       set_pool_free_mask
         (u16 (Z.land (pool_free_mask s) (Z.lnot (Z.shiftl 1 i)))) s)
  | None => (negb (malloc_node =? NULL), s)
  end.

(** The walk of [timer_sorted_insert] to the insertion point: the new
    timer goes in front of the first timer whose deadline is greater than
    [deadline].  [None] when a node holds a dangling pointer. *)
Fixpoint insert_by_deadline (tm : gmap Z timer_t) (deadline : Z) (timer : Z)
    (l : list Z) : option (list Z) :=
  match l with
  | [] => Some [timer]
  | cur :: rest =>
      match tm !! cur with
      | None => None
      | Some current_timer =>
          if deadline <? deadline_ticks current_timer then Some (timer :: l)
          else option_map (cons cur) (insert_by_deadline tm deadline timer rest)
      end
  end.

Definition timer_sorted_insert (timer : Z) (s : timer_sys)
    : option (err_t * timer_sys) :=
  let (got, s1) := get_timer_node s in
  if negb got then Some (ERR_FAIL, s1)
  else
    match timers s1 !! timer with
    | None => None
    | Some t =>
        match insert_by_deadline (timers s1) (deadline_ticks t) timer
                (timer_list s1) with
        | None => None
        | Some l' => Some (ERR_OK, set_timer_list l' s1)
        end
    end.

(** The first loop of [_timer_tick_handler]: [n] is [8 - expired_count];
    the result is [expired_timers] and what is left of the active
    list. *)
Fixpoint collect_expired (n : nat) (tm : gmap Z timer_t) (now : Z)
    (l : list Z) : option (list Z * list Z) :=
  match n, l with
  | O, _ => Some ([], l)
  | S _, [] => Some ([], [])
  | S n', t :: rest =>
      match tm !! t with
      | None => None
      | Some x =>
          if deadline_ticks x <=? now then
            match collect_expired n' tm now rest with
            | None => None
            | Some (expired, l') => Some (t :: expired, l')
            end
          else Some ([], l)
      end
  end.

(** One turn of the second loop.  The callback is outside the model:
    its call is recorded, and it leaves the timers as they are. *)
Definition fire_timer (now : Z) (t : Z) (s : timer_sys) : option timer_sys :=
  match timers s !! t with
  | None => None
  | Some x =>
      let s1 := if callback x =? NULL then s
                else add_called (callback x, arg x) s in
      if bool_decide (mode x = TIMER_AUTORELOAD) then
        let x' := set_deadline_ticks x
                    (u32 (now + MS_TO_TICKS (period_ms x))) in
        option_map snd
          (timer_sorted_insert t (set_timers (fun h => <[t := x']> h) s1))
      else
        Some (set_timers (fun h => <[t := set_mode x TIMER_DISABLED]> h) s1)
  end.

Fixpoint fire_timers (now : Z) (expired : list Z) (s : timer_sys)
    : option timer_sys :=
  match expired with
  | [] => Some s
  | t :: rest =>
      match fire_timer now t s with
      | None => None
      | Some s' => fire_timers now rest s'
      end
  end.

Definition _timer_tick_handler (s : timer_sys) : option timer_sys :=
  if negb (timer_initialized s) || list_is_empty (timer_list s) then Some s
  else
    let now := kcb_ticks s in
    match collect_expired 8 (timers s) now (timer_list s) with
    | None => None
    | Some (expired_timers, l') =>
        fire_timers now expired_timers (set_timer_list l' s)
    end.

End Timer.

(** The deadline a timer of the store has, and the order of the active
    list. *)
Definition deadline_of (tm : gmap Z timer_t) (t : Z) : Z :=
  match tm !! t with
  | Some x => deadline_ticks x
  | None => 0
  end.

Definition deadline_sorted (tm : gmap Z timer_t) (l : list Z) : Prop :=
  StronglySorted Z.le (map (deadline_of tm) l).







(** Every node of the list points to a timer of the store. *)
Definition timers_valid (tm : gmap Z timer_t) (l : list Z) : Prop :=
  forall u, u ∈ l -> is_Some (tm !! u).

(** ** The timer interface (kernel/timer.c) *)

(** A node of a timer list: [&timer_node_pool[index]], or a block of the
    heap. *)
Inductive timer_node := pool_node (index : Z) | heap_node.

(** The state of timer.c with the nodes of the active list and the
    registry: the timers by address, [kcb->timer_list] as the pairs of a
    node and its data pointer, in order, [kcb->ticks], the file-level
    [timer_initialized] and [pool_free_mask], the data pointers of
    [all_timers_list] in order ([None] while it is NULL), and the four
    entries of [timer_cache], each an id and a timer pointer, with
    [timer_cache_index]. *)
Record timer_reg := TimerReg {
  timer_store : gmap Z timer_t;
  active_list : list (timer_node * Z);
  now_ticks : Z;
  initialized : bool;
  free_mask : Z;
  all_timers_list : option (list Z);
  timer_cache : list (Z * Z);
  timer_cache_index : Z
}.

Definition set_timer_store (f : gmap Z timer_t -> gmap Z timer_t)
    (r : timer_reg) : timer_reg :=
  TimerReg (f (timer_store r)) (active_list r) (now_ticks r) (initialized r)
           (free_mask r) (all_timers_list r) (timer_cache r)
           (timer_cache_index r).
Definition set_active_list (l : list (timer_node * Z)) (r : timer_reg)
    : timer_reg :=
  TimerReg (timer_store r) l (now_ticks r) (initialized r)
           (free_mask r) (all_timers_list r) (timer_cache r)
           (timer_cache_index r).
Definition set_free_mask (v : Z) (r : timer_reg) : timer_reg :=
  TimerReg (timer_store r) (active_list r) (now_ticks r) (initialized r)
           v (all_timers_list r) (timer_cache r) (timer_cache_index r).
Definition set_timer_cache (c : list (Z * Z)) (i : Z) (r : timer_reg)
    : timer_reg :=
  TimerReg (timer_store r) (active_list r) (now_ticks r) (initialized r)
           (free_mask r) (all_timers_list r) c i.

(** What the tick handler sees of this state. *)
Definition sys_of (r : timer_reg) : timer_sys :=
  TimerSys (timer_store r) (active_list r).*2 (now_ticks r) (initialized r)
           (free_mask r) [].

(** The walk of [timer_remove_item_by_data]: the first node that holds
    [data], and the list without it. *)
Fixpoint unlink_by_data (data : Z) (l : list (timer_node * Z))
    : option (timer_node * list (timer_node * Z)) :=
  match l with
  | [] => None
  | curr :: rest =>
      if curr.2 =? data then Some (curr.1, rest)
      else match unlink_by_data data rest with
           | Some (node, rest') => Some (node, curr :: rest')
           | None => None
           end
  end.

(** The walk of [timer_sorted_insert] with the nodes. *)
Fixpoint insert_node_by_deadline (tm : gmap Z timer_t) (deadline : Z)
    (new_node : timer_node * Z) (l : list (timer_node * Z))
    : option (list (timer_node * Z)) :=
  match l with
  | [] => Some [new_node]
  | cur :: rest =>
      match tm !! cur.2 with
      | None => None
      | Some current_timer =>
          if deadline <? deadline_ticks current_timer then Some (new_node :: l)
          else option_map (cons cur)
                 (insert_node_by_deadline tm deadline new_node rest)
      end
  end.

(** [cache_lookup_timer] over the entries of the cache. *)
Fixpoint cache_lookup_entries (id : Z) (entries : list (Z * Z)) : Z :=
  match entries with
  | [] => NULL
  | e :: rest =>
      if (e.1 =? id) && negb (e.2 =? NULL) then e.2
      else cache_lookup_entries id rest
  end.

(** The walk of [timer_find_by_id_fast] through the registry, which
    stops at the first id above [id]: the timer found, if any; [None]
    when a node holds a dangling pointer. *)
Fixpoint find_in_registry (tm : gmap Z timer_t) (id : Z) (l : list Z)
    : option (option Z) :=
  match l with
  | [] => Some None
  | timer :: rest =>
      match tm !! timer with
      | None => None
      | Some x =>
          if timer_id x =? id then Some (Some timer)
          else if id <? timer_id x then Some None
          else find_in_registry tm id rest
      end
  end.

Module TimerApi.
Section TimerApiOps.

(** sys/timer.h is missing: the conversion macro is a parameter.
    [malloc_node] is what [malloc(sizeof(list_node_t))] returns when the
    pool is used up. *)
Variable MS_TO_TICKS : Z -> Z.
Variable malloc_node : Z.

(** [get_timer_node]: the node obtained, if any. *)
Definition get_timer_node (r : timer_reg) : option timer_node * timer_reg :=
  match pool_first_free (Z.to_nat TIMER_NODE_POOL_SIZE) 0 (free_mask r) with
  | Some i =>
      (Some (pool_node i),
       set_free_mask (u16 (Z.land (free_mask r) (Z.lnot (Z.shiftl 1 i)))) r)
  | None => (if malloc_node =? NULL then None else Some heap_node, r)
  end.

(** [return_timer_node]; [free] is outside the model. *)
Definition return_timer_node (node : timer_node) (r : timer_reg) : timer_reg :=
  match node with
  | pool_node index =>
      set_free_mask (u16 (Z.lor (free_mask r) (Z.shiftl 1 index))) r
  | heap_node => r
  end.

Definition cache_timer (id timer : Z) (r : timer_reg) : timer_reg :=
  set_timer_cache
    (<[Z.to_nat (timer_cache_index r) := (id, timer)]> (timer_cache r))
    (u8 ((timer_cache_index r + 1) mod 4)) r.

Definition cache_lookup_timer (id : Z) (r : timer_reg) : Z :=
  cache_lookup_entries id (take 4 (timer_cache r)).

(** [timer_remove_item_by_data(kcb->timer_list, data)]. *)
Definition timer_remove_item_by_data (data : Z) (r : timer_reg) : timer_reg :=
  match unlink_by_data data (active_list r) with
  | Some (curr, rest) => return_timer_node curr (set_active_list rest r)
  | None => r
  end.

(** [None] when a pointer that is followed is dangling. *)
Definition timer_sorted_insert (timer : Z) (r : timer_reg)
    : option (err_t * timer_reg) :=
  let (new_node, r1) := get_timer_node r in
  match new_node with
  | None => Some (ERR_FAIL, r1)
  | Some node =>
      match active_list r1 with
      | [] => Some (ERR_OK, set_active_list [(node, timer)] r1)
      | _ =>
          match timer_store r1 !! timer with
          | None => None
          | Some t =>
              match insert_node_by_deadline (timer_store r1)
                      (deadline_ticks t) (node, timer) (active_list r1) with
              | None => None
              | Some l' => Some (ERR_OK, set_active_list l' r1)
              end
          end
      end
  end.

(** The timer found, if any. *)
Definition timer_find_by_id_fast (id : Z) (r : timer_reg)
    : option (option Z * timer_reg) :=
  let cached := cache_lookup_timer id r in
  match (if cached =? NULL then Some false
         else match timer_store r !! cached with
              | None => None
              | Some x => Some (timer_id x =? id)
              end) with
  | None => None
  | Some true => Some (Some cached, r)
  | Some false =>
      match all_timers_list r with
      | None => Some (None, r)
      | Some l =>
          if list_is_empty l then Some (None, r)
          else
            match find_in_registry (timer_store r) id l with
            | None => None
            | Some None => Some (None, r)
            | Some (Some timer) => Some (Some timer, cache_timer id timer r)
            end
      end
  end.

(** The mode is given as a value of the enumeration. *)
Definition mo_timer_start (id : Z) (new_mode : timer_mode) (r : timer_reg)
    : option (err_t * timer_reg) :=
  if bool_decide (new_mode <> TIMER_ONESHOT) &&
     bool_decide (new_mode <> TIMER_AUTORELOAD) then Some (ERR_FAIL, r)
  else if negb (initialized r) then Some (ERR_FAIL, r)
  else
    match timer_find_by_id_fast id r with
    | None => None
    | Some (None, r1) => Some (ERR_FAIL, r1)
    | Some (Some t, r1) =>
        match timer_store r1 !! t with
        | None => None
        | Some x =>
            let r2 := if bool_decide (mode x <> TIMER_DISABLED)
                      then timer_remove_item_by_data t r1 else r1 in
            let x' := set_deadline_ticks (set_mode x new_mode)
                        (u32 (now_ticks r2 + MS_TO_TICKS (period_ms x))) in
            match timer_sorted_insert t
                    (set_timer_store (fun h => <[t := x']> h) r2) with
            | None => None
            | Some (e, r3) =>
                if bool_decide (e <> ERR_OK) then
                  Some (ERR_FAIL,
                        set_timer_store
                          (fun h => <[t := set_mode x' TIMER_DISABLED]> h) r3)
                else Some (ERR_OK, r3)
            end
        end
    end.

Definition mo_timer_cancel (id : Z) (r : timer_reg)
    : option (err_t * timer_reg) :=
  if negb (initialized r) then Some (ERR_FAIL, r)
  else
    match timer_find_by_id_fast id r with
    | None => None
    | Some (None, r1) => Some (ERR_FAIL, r1)
    | Some (Some t, r1) =>
        match timer_store r1 !! t with
        | None => None
        | Some x =>
            if bool_decide (mode x = TIMER_DISABLED) then Some (ERR_FAIL, r1)
            else
              let r2 := timer_remove_item_by_data t r1 in
              Some (ERR_OK,
                    set_timer_store
                      (fun h => <[t := set_mode x TIMER_DISABLED]> h) r2)
        end
    end.

End TimerApiOps.
End TimerApi.

(** The id a timer of the store has. *)
Definition id_of (tm : gmap Z timer_t) (t : Z) : Z :=
  match tm !! t with
  | Some x => timer_id x
  | None => 0
  end.

(** The state the timer interface keeps: the subsystem is initialised;
    the active list holds timers of the store, each once, in the order
    of their deadlines, and none that is DISABLED; the registry holds
    timers of the store in the strict order of their ids; an entry of the
    cache with a timer holds a timer of the registry under its id; the
    mask of the pool is a uint16_t. *)
Record timer_wf (r : timer_reg) : Prop := {
  wf_initialized : initialized r = true;
  wf_free_mask : 0 <= free_mask r < 65536;
  wf_active_valid : timers_valid (timer_store r) (active_list r).*2;
  wf_active_sorted : deadline_sorted (timer_store r) (active_list r).*2;
  wf_active_once : NoDup (active_list r).*2;
  wf_disabled_idle : forall t x,
    timer_store r !! t = Some x -> mode x = TIMER_DISABLED ->
    t ∉ (active_list r).*2;
  wf_registry : exists l,
    all_timers_list r = Some l /\ timers_valid (timer_store r) l /\
    StronglySorted Z.lt (map (id_of (timer_store r)) l);
  wf_cache : forall e, e ∈ timer_cache r -> e.2 <> NULL ->
    e.2 ∈ default [] (all_timers_list r) /\ id_of (timer_store r) e.2 = e.1
}.

(** The active list without timer [t]. *)
Definition others (t : Z) (r : timer_reg) : list Z :=
  filter (fun u => u <> t) (active_list r).*2.

(** ** Notions used in the statements *)

(** The two bytes of a priority word. *)
Definition prio_base (w : Z) : Z := Z.land (Z.shiftr w 8) 0xFF.
Definition prio_counter (w : Z) : Z := Z.land w 0xFF.

(** The first step of [schedule_next_task]: the running task becomes
    READY. *)
Definition mark_current_ready (k : kcb_t) (p : Z) (t : tcb_t) : kcb_t :=
  if bool_decide (state t = TASK_RUNNING)
  then set_tcbs (fun h => <[p := set_state t TASK_READY]> h) k
  else k.

(** A computation keeps the task [t] at address [p], and the task list. *)
Definition keeps {A} (p : Z) (t : tcb_t) (c : M A) : Prop :=
  forall k a k',
    tcbs k !! p = Some t -> c k = Ok (a, k') ->
    tcbs k' !! p = Some t /\ tasks k' = tasks k.

(** The node a search returned holds a READY task of the list. *)
Definition ready_node (k : kcb_t) (r : option nat) : Prop :=
  forall i, r = Some i ->
    exists l q x, tasks k = Some l /\ l !! i = Some q /\
                  tcbs k !! q = Some x /\ state x = TASK_READY.

(** ** The countdowns within the iterations of the ready search *)

(** The visits the loop of [find_next_ready_task] pays to node [i] of a
    list of [len] nodes in [n] iterations that start after node [c]:
    iteration [j] looks at node [(c + j) mod len]. *)
Definition visits_within (n len c i : nat) : nat :=
  length (List.filter (fun j => ((c + j) mod len =? i)%nat) (seq 1 n)).

(** A countdown reaches zero within [n] iterations of the search that
    starts after node [c]: the list holds a READY task without a
    real-time priority whose countdown is at most the number of visits
    the task gets, each visit taking one off. *)
Definition countdown_reaches_zero (n : nat) (k : kcb_t) (l : list Z) (c : nat)
    : bool :=
  existsb
    (fun i =>
       match l !! i with
       | Some p =>
           match tcbs k !! p with
           | Some t =>
               bool_decide (state t = TASK_READY) && (rt_prio t =? NULL)
               && (prio_counter (prio t)
                   <=? Z.of_nat (visits_within n (length l) c i))
           | None => false
           end
       | None => false
       end)
    (seq 0 (length l)).

(** The task list is [l]: each node holds a task of its own, and the
    ready hint, if there is one, is a node of the list. *)
Definition task_list_ok (k : kcb_t) (l : list Z) : Prop :=
  tasks k = Some l /\ NoDup l /\
  (forall p, p ∈ l -> p <> NULL /\ is_Some (tcbs k !! p)) /\
  (forall h, last_ready_hint k = Some h -> (h < length l)%nat).

(** ** Concrete states used in the examples *)

(** The initial [kernel_state] of task.c, with the zeroed file-level
    state. *)
Definition kernel_state : kcb_t :=
  Kcb ∅ None None 1 0 0 true None (-1) 0
      [(0, NULL); (0, NULL); (0, NULL); (0, NULL)] 0.

(** [kernel_state] after a first task, of entry 0x400 and a stack of 1024
    bytes at 0x8000, has been spawned at 0x1000. *)
Definition after_first_spawn : kcb_t :=
  Kcb (<[0x1000 := Tcb 0x8000 1024 0x400 0x1F00 0 1 TASK_READY 0 NULL
                       STACK_CANARY STACK_CANARY]> ∅)
      (Some [0x1000]) (Some 0%nat) 2 1 0 true None (-1) 0
      [(1, 0x1000); (0, NULL); (0, NULL); (0, NULL)] 1.

(** A task with a 256-byte stack of its own and intact canaries. *)
Definition sample_tcb (tid : Z) (st : task_states) (pr dl : Z) : tcb_t :=
  Tcb (0x8000 + 0x100 * tid) 256 0x400 pr dl tid st 0 NULL
      STACK_CANARY STACK_CANARY.

(** Two tasks: task 1 at 0x1000 is running; task 2 at 0x2000 is BLOCKED
    with [dl] ticks of delay. *)
Definition blocked_pair (dl : Z) : kcb_t :=
  Kcb (<[0x1000 := sample_tcb 1 TASK_RUNNING 0x1F1F 0]>
         (<[0x2000 := sample_tcb 2 TASK_BLOCKED 0x1F00 dl]> ∅))
      (Some [0x1000; 0x2000]) (Some 0%nat) 3 2 0 true None (-1) 0
      [(1, 0x1000); (2, 0x2000); (0, NULL); (0, NULL)] 2.

Definition two_tasks : kcb_t := blocked_pair 5.

(** Task 1, of priority IDLE, is running and task 2 sleeps for 1000
    ticks. *)
Definition idle_and_sleeper : kcb_t :=
  Kcb (<[0x1000 := sample_tcb 1 TASK_RUNNING 0xFFFF 0]>
         (<[0x2000 := sample_tcb 2 TASK_BLOCKED 0x1F1F 1000]> ∅))
      (Some [0x1000; 0x2000]) (Some 0%nat) 3 2 0 true None (-1) 0
      [(1, 0x1000); (2, 0x2000); (0, NULL); (0, NULL)] 2.


(** A tick rate of 100 Hz, and three active timers at tick 12: two have
    expired, one of them one-shot. *)
Definition ms_to_ticks_100hz (ms : Z) : Z := u32 (ms * 100 / 1000).

Definition sample_timers : timer_sys :=
  TimerSys (<[0x100 := Timer 0x6000 0x500 0 50 10 TIMER_AUTORELOAD]>
              (<[0x200 := Timer 0x6001 0x504 7 20 12 TIMER_ONESHOT]>
                 (<[0x300 := Timer 0x6002 0x508 0 300 40 TIMER_AUTORELOAD]> ∅)))
           [0x100; 0x200; 0x300] 12 true 0xFFF8 [].

(** ** Notions and states for the scheduler properties *)

(** Between [k] and [k'] the task list and the current node stay, no task
    control block appears or goes, and a task changes at most in its
    priority word, whose base byte stays; a task that is not READY, or
    has a real-time priority, does not change at all. *)
Definition countdown_only (k k' : kcb_t) : Prop :=
  tasks k' = tasks k /\ task_current k' = task_current k /\
  forall q,
    match tcbs k !! q with
    | None => tcbs k' !! q = None
    | Some t =>
        exists w, tcbs k' !! q = Some (set_prio t w) /\
                  prio_base w = prio_base (prio t) /\
                  (state t <> TASK_READY \/ rt_prio t <> NULL -> w = prio t)
    end.

(** The ready search selected node [n]: its task was READY without a
    real-time priority in [k], and in [k'] its countdown is reloaded from
    the base byte. *)
Definition selected (k k' : kcb_t) (n : nat) : Prop :=
  exists l q t w,
    tasks k = Some l /\ l !! n = Some q /\ tcbs k !! q = Some t /\
    state t = TASK_READY /\ rt_prio t = NULL /\
    tcbs k' !! q = Some (set_prio t w) /\
    prio_counter w = prio_base w.

(** Every RUNNING task is the current one. *)
Definition only_current_runs (k : kcb_t) : Prop :=
  forall q t, tcbs k !! q = Some t -> state t = TASK_RUNNING ->
              current_task_ptr k = Ok (q, k).

(** What one pass of [delay_update] does to a task. *)
Definition age (t : tcb_t) : tcb_t :=
  if bool_decide (state t = TASK_BLOCKED) && (0 <? delay t) then
    let d := u16 (delay t - 1) in
    if d =? 0 then set_state (set_delay t d) TASK_READY else set_delay t d
  else t.

(** Task 1 is running and task 2 is READY with its countdown at 0. *)
Definition ready_pair : kcb_t :=
  Kcb (<[0x1000 := sample_tcb 1 TASK_RUNNING 0x1F1F 0]>
         (<[0x2000 := sample_tcb 2 TASK_READY 0x1F00 0]> ∅))
      (Some [0x1000; 0x2000]) (Some 0%nat) 3 2 0 true None (-1) 0
      [(1, 0x1000); (2, 0x2000); (0, NULL); (0, NULL)] 2.

(** [ready_pair] after the scheduler has switched to task 2. *)
Definition ready_pair_switched : kcb_t :=
  Kcb (<[0x1000 := sample_tcb 1 TASK_READY 0x1F1F 0]>
         (<[0x2000 := sample_tcb 2 TASK_RUNNING 0x1F1F 0]> ∅))
      (Some [0x1000; 0x2000]) (Some 1%nat) 3 2 0 true (Some 1%nat) (-1) 0
      [(1, 0x1000); (2, 0x2000); (0, NULL); (0, NULL)] 2.

(** The stack size [mo_task_spawn] settles on for a request. *)
Definition spawn_stack_size (stack_size_req : Z) : Z :=
  let s := if stack_size_req <? MIN_TASK_STACK_SIZE then MIN_TASK_STACK_SIZE
           else stack_size_req in
  u32 (Z.land (s + 0xF) (u32 (Z.lnot 0xF))).

(** Every entry of the lookup cache that points to a live task carries
    that task's id. *)
Definition cache_coherent (k : kcb_t) : Prop :=
  forall cid ctask t,
    (cid, ctask) ∈ task_cache k -> tcbs k !! ctask = Some t -> id t = cid.

(** Node [n] of the task list holds a task with id [tid]. *)
Definition node_has_id (k : kcb_t) (n : nat) (tid : Z) : Prop :=
  exists l q t, tasks k = Some l /\ l !! n = Some q /\ q <> NULL /\
                tcbs k !! q = Some t /\ id t = tid.



(** Two tasks that both have the id 2: the first READY, the second
    SUSPENDED. *)
Definition twin_ids : kcb_t :=
  Kcb (<[0x1000 := sample_tcb 2 TASK_READY 0x1F1F 0]>
         (<[0x2000 := Tcb 0x8300 256 0x400 0x1F00 0 2 TASK_SUSPENDED 0 NULL
                            STACK_CANARY STACK_CANARY]> ∅))
      (Some [0x1000; 0x2000]) (Some 0%nat) 3 2 0 true None (-1) 0
      [(0, NULL); (0, NULL); (0, NULL); (0, NULL)] 0.

(** ** Notions and states for the blocking primitives *)

Definition stocked_sem : sem_t := Sem (Some (Queue [] 4)) 2 4 SEM_MAGIC.



(** ** A state for the timer interface *)

(** Two timers at tick 100 with a tick rate of 100 Hz: 0x9100, created
    first and never started, and 0x9200, a one-shot that is running.  The
    registry holds nodes 0 and 1 of the pool, the active list node 2. *)
Definition sample_reg : timer_reg :=
  TimerReg (<[0x9100 := Timer 0x6000 0x500 0 50 0 TIMER_DISABLED]>
              (<[0x9200 := Timer 0x6001 0x504 7 2000 300 TIMER_ONESHOT]> ∅))
           [(pool_node 2, 0x9200)] 100 true 0xFFF8
           (Some [0x9100; 0x9200])
           [(0x6000, 0x9100); (0x6001, 0x9200); (0, 0); (0, 0)] 2.

(** * Properties *)

(** ** The monad *)

Lemma bind_ok {A B} (c : M A) (f : A -> M B) k a k' :
  c k = Ok (a, k') -> bind c f k = f a k'.
Proof. unfold bind. intros ->. reflexivity. Qed.

Lemma bind_inv_ok {A B} (c : M A) (f : A -> M B) k b k2 :
  bind c f k = Ok (b, k2) ->
  exists a k1, c k = Ok (a, k1) /\ f a k1 = Ok (b, k2).
Proof.
  unfold bind. destruct (c k) as [[a k1]| |]; try discriminate.
  intros H. exists a, k1. auto.
Qed.

(** Unfold the monad's combinators. *)
Ltac monad_unfold :=
  unfold deref, store, node_data in *;
  unfold bind, ret, gets, modify, panic, fault in *.

(** Project the fields out of updated control blocks. *)
Ltac kcb_simpl :=
  cbn [tcbs tasks task_current next_tid task_count ticks preemptive
       last_ready_hint rt_sched stack_check_counter task_cache cache_index
       set_tcbs set_tasks set_task_current set_ids set_ticks
       set_last_ready_hint set_stack_check_counter set_cache
       fst snd negb] in *.

(** [current_task_ptr], [mo_task_id] and [is_valid_task] read the state
    and leave it. *)
Lemma current_task_ptr_state k p k' :
  current_task_ptr k = Ok (p, k') -> k' = k.
Proof.
  unfold current_task_ptr. monad_unfold.
  destruct (task_current k); [|congruence].
  destruct (tasks k) as [l|]; [|discriminate].
  destruct (l !! n); congruence.
Qed.

Lemma mo_task_id_state k v k' :
  mo_task_id k = Ok (v, k') -> k' = k.
Proof.
  unfold mo_task_id. intros H.
  apply bind_inv_ok in H as (p & k1 & Hp & H).
  apply current_task_ptr_state in Hp as ->.
  destruct (p =? NULL); monad_unfold; [congruence|].
  destruct (tcbs k !! p); congruence.
Qed.

Lemma is_valid_task_state q k v k' :
  is_valid_task q k = Ok (v, k') -> k' = k.
Proof.
  unfold is_valid_task. destruct (q =? NULL); monad_unfold; [congruence|].
  destruct (tcbs k !! q); congruence.
Qed.

(** ** The ready search and its iteration cap *)

Lemma ready_walk_visits n :
  forall node v k r k',
    ready_walk n node v k = Ok (r, k') -> (r.2 <= v + n)%nat.
Proof.
  induction n as [|n IH]; intros node v k r k' H; cbn [ready_walk] in H.
  - monad_unfold. inversion H. simpl. lia.
  - monad_unfold.
    destruct (list_cnext (tasks k) node) as [i|]; [|inversion H; simpl; lia].
    destruct (tasks k) as [l|]; [|discriminate].
    destruct (l !! i) as [p|]; [|discriminate].
    destruct (p =? NULL); [inversion H; simpl; lia|].
    destruct (tcbs k !! p) as [t|]; [|discriminate].
    destruct (negb _ || negb _); [apply IH in H; lia|].
    cbv zeta in H.
    match type of H with context [if ?c then _ else _] => destruct c end.
    + inversion H. simpl. lia.
    + apply IH in H. lia.
Qed.

Lemma find_next_ready_task_visits_bound k r k' :
  find_next_ready_task_visits k = Ok (r, k') ->
  (r.2 <= Z.to_nat SCHED_IMAX)%nat.
Proof.
  unfold find_next_ready_task_visits. intros H.
  apply bind_inv_ok in H as (cur & k1 & Hc & H).
  destruct cur; [|inversion H; simpl; lia].
  apply bind_inv_ok in H as (h & k2 & Hh & H).
  destruct h; [inversion H; simpl; lia|].
  apply bind_inv_ok in H as (r' & k3 & Hw & H).
  apply ready_walk_visits in Hw.
  destruct (r'.1); monad_unfold; inversion H; subst; lia.
Qed.

(** ** The priority word *)

Lemma spawn_prio_value :
  u16 (Z.shiftl (u16 (u8 (Z.shiftr TASK_PRIO_NORMAL 8))) 8) = 0x1F00.
Proof. reflexivity. Qed.

Lemma mo_task_spawn_prio task_entry stack_size_req tcb_found stack_found
    list_ok node_ok k tid k' :
  mo_task_spawn task_entry stack_size_req tcb_found stack_found
    list_ok node_ok k = Ok (tid, k') ->
  exists t, tcbs k' !! tcb_found = Some t /\ prio t = 0x1F00 /\
            id t = tid /\ state t = TASK_READY.
Proof.
  unfold mo_task_spawn, init_task_stack, cache_task. rewrite spawn_prio_value.
  intros H.
  destruct (task_entry =? NULL); [discriminate|].
  destruct (tcb_found =? NULL); [discriminate|].
  monad_unfold. kcb_simpl.
  destruct (malloc _ stack_found =? NULL); [discriminate|].
  destruct (negb (Z.land _ 3 =? 0)); [discriminate|].
  kcb_simpl. rewrite !lookup_insert_eq in H. kcb_simpl.
  destruct (tasks k) as [l|]; [|destruct list_ok; [|discriminate]];
    kcb_simpl; (destruct node_ok; [|discriminate]); kcb_simpl;
    rewrite !lookup_insert_eq in H; kcb_simpl;
    destruct (task_current k); kcb_simpl;
    rewrite !lookup_insert_eq in H; inversion H; subst; kcb_simpl;
    rewrite lookup_insert_eq; eexists; split; try reflexivity; auto.
Qed.

Lemma valid_priority_dup priority :
  is_valid_priority priority = true ->
  let w := u16 (Z.lor (Z.shiftl (u16 (u8 (Z.shiftr priority 8))) 8)
                      (u8 (Z.shiftr priority 8))) in
  prio_base w = prio_base priority /\ prio_counter w = prio_base priority /\
  prio_counter priority = prio_base priority.
Proof.
  unfold is_valid_priority, valid_priorities. cbn [existsb]. intros Hv.
  repeat (apply orb_true_iff in Hv as [Hv|Hv]);
    try discriminate; apply Z.eqb_eq in Hv; subst priority;
    vm_compute; repeat split; reflexivity.
Qed.

Lemma mo_task_priority_prio tid priority k k' :
  mo_task_priority tid priority k = Ok (ERR_OK, k') ->
  exists p t, tcbs k' !! p = Some t /\
              prio_base (prio t) = prio_base priority /\
              prio_counter (prio t) = prio_base priority.
Proof.
  unfold mo_task_priority. intros H.
  destruct (tid =? 0); [discriminate|]. cbn [orb] in H.
  destruct (is_valid_priority priority) eqn:Hv; cbn [negb] in H; [|discriminate].
  apply bind_inv_ok in H as (node & k1 & Hf & H).
  destruct node as [n|]; [|discriminate].
  apply bind_inv_ok in H as (p & k2 & Hd & H).
  destruct (p =? NULL); [discriminate|].
  monad_unfold. destruct (tcbs k2 !! p) as [t|]; [|discriminate].
  inversion H; subst. kcb_simpl. eexists p, _. rewrite lookup_insert_eq.
  split; [reflexivity|]. cbn [prio set_prio].
  destruct (valid_priority_dup priority Hv) as (H1 & H2 & _). auto.
Qed.

(** C2, as amended.  A task that [mo_task_spawn] creates has the base
    byte of TASK_PRIO_NORMAL (0x1F) in the high byte of its priority word
    and a countdown of 0 in the low byte.  The eight named constants have
    the base byte in both halves, and [mo_task_priority] stores the base
    byte of the priority it is given in both halves. *)
Theorem spawn_priority_word :
  (forall task_entry stack_size_req tcb_found stack_found list_ok node_ok
          k tid k',
     mo_task_spawn task_entry stack_size_req tcb_found stack_found
       list_ok node_ok k = Ok (tid, k') ->
     exists t, tcbs k' !! tcb_found = Some t /\ id t = tid /\
               prio_base (prio t) = prio_base TASK_PRIO_NORMAL /\
               prio_counter (prio t) = 0) /\
  Forall (fun w => prio_counter w = prio_base w) valid_priorities /\
  (forall tid priority k k',
     mo_task_priority tid priority k = Ok (ERR_OK, k') ->
     exists p t, tcbs k' !! p = Some t /\
                 prio_base (prio t) = prio_base priority /\
                 prio_counter (prio t) = prio_base priority).
Proof.
  split; [|split].
  - intros task_entry stack_size_req tcb_found stack_found list_ok node_ok
           k tid k' H.
    apply mo_task_spawn_prio in H as (t & Ht & Hp & Hid & _).
    exists t. rewrite Hp. repeat split; auto.
  - repeat constructor.
  - exact mo_task_priority_prio.
Qed.

Lemma spawn_priority_word_witness :
  exists t, tcbs after_first_spawn !! 0x1000 = Some t /\
            id t = 1 /\
            prio_base (prio t) = prio_base TASK_PRIO_NORMAL /\
            prio_counter (prio t) = 0.
Proof.
  refine (proj1 spawn_priority_word 0x400 1024 0x1000 0x8000 true true
            kernel_state 1 after_first_spawn _).
  vm_compute. reflexivity.
Defined.

(** The first task spawned: its countdown byte is 0, its base byte
    0x1F. *)
Lemma spawn_countdown_not_base :
  exists k t,
    mo_task_spawn 0x400 1024 0x1000 0x8000 true true kernel_state = Ok (1, k) /\
    tcbs k !! 0x1000 = Some t /\
    prio_base (prio t) = 0x1F /\ prio_counter (prio t) = 0 /\
    prio_counter (prio t) <> prio_base (prio t).
Proof.
  do 2 eexists. split; [vm_compute; reflexivity|].
  split; [vm_compute; reflexivity|]. repeat split. discriminate.
Qed.

(** ** Delays *)

(** C10.  [mo_task_delay(0)] returns at once: it leaves the whole kernel
    state as it is (no field of the caller changes, and no yield runs the
    scheduler).  For a non-zero tick count the calling task gets
    [delay = n] and state BLOCKED, and the function then yields from that
    state. *)
Theorem mo_task_delay_zero_or_block :
  (forall k, mo_task_delay_enter 0 k = Ok (false, k) /\
             mo_task_delay 0 k = Ok (tt, k)) /\
  (forall n k p self,
     0 < n < 2 ^ 16 -> current_task_ptr k = Ok (p, k) -> p <> NULL ->
     tcbs k !! p = Some self ->
     let k1 := set_tcbs
                 (fun h => <[p := set_state (set_delay self n) TASK_BLOCKED]> h)
                 k in
     mo_task_delay_enter n k = Ok (true, k1) /\
     mo_task_delay n k = mo_task_yield k1).
Proof.
  split.
  - intros k. split; reflexivity.
  - intros n k p self Hn Hcur Hp Hself k1.
    assert (He : mo_task_delay_enter n k = Ok (true, k1)).
    { unfold mo_task_delay_enter.
      destruct (Z.eqb_spec n 0) as [->|_]; [lia|].
      rewrite (bind_ok _ _ _ _ _ Hcur).
      apply Z.eqb_neq in Hp. rewrite Hp.
      monad_unfold. rewrite Hself. reflexivity. }
    split; [exact He|].
    unfold mo_task_delay. rewrite (bind_ok _ _ _ _ _ He). reflexivity.
Qed.

Lemma mo_task_delay_zero_or_block_witness :
  mo_task_delay_enter 7 two_tasks =
    Ok (true,
        set_tcbs (fun h => <[0x1000 := sample_tcb 1 TASK_BLOCKED 0x1F1F 7]> h)
                 two_tasks) /\
  mo_task_delay 7 two_tasks =
    mo_task_yield
      (set_tcbs (fun h => <[0x1000 := sample_tcb 1 TASK_BLOCKED 0x1F1F 7]> h)
                two_tasks).
Proof.
  refine (proj2 mo_task_delay_zero_or_block 7 two_tasks 0x1000
            (sample_tcb 1 TASK_RUNNING 0x1F1F 0) _ _ _ _).
  - lia.
  - reflexivity.
  - discriminate.
  - reflexivity.
Defined.

(** ** Suspended tasks *)

Section Suspended.

(** A suspended task [t] at address [p]. *)
Variable p : Z.
Variable t : tcb_t.
Hypothesis t_suspended : state t = TASK_SUSPENDED.

Lemma store_other q x y k :
  tcbs k !! p = Some t -> tcbs k !! q = Some x -> state x <> TASK_SUSPENDED ->
  tcbs (set_tcbs (fun h => <[q := y]> h) k) !! p = Some t.
Proof.
  intros Hp Hq Hx. kcb_simpl. rewrite lookup_insert_ne; [exact Hp|].
  intros ->. rewrite Hp in Hq. inversion Hq. subst. congruence.
Qed.

Lemma task_stack_check_keeps : keeps p t task_stack_check.
Proof.
  intros k a k' Hp H. unfold task_stack_check in H.
  monad_unfold. kcb_simpl.
  destruct (negb _); kcb_simpl; [inversion H; subst; kcb_simpl; auto|].
  destruct (task_current k); kcb_simpl; [|discriminate].
  destruct (tasks k) as [l|] eqn:Hl; kcb_simpl; [|discriminate].
  destruct (l !! n) as [q|]; kcb_simpl; [|discriminate].
  destruct (q =? NULL); kcb_simpl; [discriminate|].
  match type of H with context [is_valid_task q ?k0] =>
    destruct (is_valid_task q k0) as [[v k1]| |] eqn:Hv; kcb_simpl;
    try discriminate;
    apply is_valid_task_state in Hv; subst k1 end.
  destruct v; kcb_simpl; [|discriminate].
  destruct (tcbs k !! q); kcb_simpl; [|discriminate].
  destruct (negb _ || negb _); kcb_simpl; [discriminate|].
  inversion H; subst; kcb_simpl; auto.
Qed.

Lemma delay_update_keeps node data : keeps p t (delay_update node data).
Proof.
  intros k a k' Hp H. unfold delay_update in H.
  destruct (data =? NULL); monad_unfold; [inversion H; subst; auto|].
  destruct (tcbs k !! data) as [x|] eqn:Hx; [|discriminate].
  destruct (bool_decide (state x = TASK_BLOCKED)) eqn:Hb; cbn [andb] in H.
  - apply bool_decide_eq_true in Hb.
    destruct (0 <? delay x); inversion H; subst; auto.
    split; [|reflexivity].
    apply (store_other data x); auto. congruence.
  - inversion H; subst; auto.
Qed.

Lemma foreach_delay_update_keeps l :
  forall i, keeps p t (list_foreach_from i l delay_update).
Proof.
  induction l as [|q l IH]; intros i k a k' Hp H; cbn [list_foreach_from] in H.
  - inversion H; subst; auto.
  - apply bind_inv_ok in H as (r & k1 & Hd & H).
    apply delay_update_keeps in Hd as [Hp1 Ht1]; [|exact Hp].
    destruct r.
    + inversion H; subst; auto.
    + apply IH in H as [Hp2 Ht2]; [|exact Hp1]. split; congruence.
Qed.

Lemma list_foreach_delay_update_keeps : keeps p t (list_foreach delay_update).
Proof.
  intros k a k' Hp H. unfold list_foreach in H.
  apply bind_inv_ok in H as (l & k1 & Hg & H).
  unfold gets in Hg. inversion Hg; subst.
  destruct (tasks k1) as [l|] eqn:Hl; [|inversion H; subst; auto].
  rewrite <- Hl. eapply (foreach_delay_update_keeps l 0%nat); eauto.
Qed.

Lemma ready_hint_keeps k r k' :
  tcbs k !! p = Some t -> ready_hint k = Ok (r, k') ->
  tcbs k' !! p = Some t /\ tasks k' = tasks k /\ ready_node k' r.
Proof.
  intros Hp H. unfold ready_hint in H. monad_unfold.
  assert (Hnone : forall k0, ready_node k0 None) by (intros k0 i; discriminate).
  destruct (last_ready_hint k) as [n|]; [|inversion H; subst; auto].
  destruct (tasks k) as [l|] eqn:Hl; [|discriminate].
  destruct (l !! n) as [q|] eqn:Hq; [|discriminate].
  destruct (q =? NULL); [inversion H; subst; auto|].
  destruct (tcbs k !! q) as [x|] eqn:Hx; [|discriminate].
  destruct (bool_decide (state x = TASK_READY)) eqn:Hr; cbn [andb] in H;
    [|inversion H; subst; auto].
  apply bool_decide_eq_true in Hr.
  destruct (rt_prio x =? NULL); [|inversion H; subst; auto].
  cbv zeta in H.
  destruct (_ =? 0) in H; inversion H; subst; auto.
  split; [|split; [exact Hl|]].
  - apply (store_other q x); auto. congruence.
  - intros i Hi. inversion Hi; subst. eexists l, q, _. kcb_simpl.
    rewrite lookup_insert_eq. repeat split; eauto.
Qed.

Lemma ready_walk_keeps n :
  forall node v k r k',
    tcbs k !! p = Some t -> ready_walk n node v k = Ok (r, k') ->
    tcbs k' !! p = Some t /\ tasks k' = tasks k /\ ready_node k' r.1.
Proof.
  induction n as [|n IH]; intros node v k r k' Hp H; cbn [ready_walk] in H.
  - monad_unfold. inversion H; subst. repeat split; auto. intros i; discriminate.
  - monad_unfold.
    assert (Hnone : forall k0, ready_node k0 None) by (intros k0 i; discriminate).
    destruct (list_cnext (tasks k) node) as [i|]; [|inversion H; subst; auto].
    destruct (tasks k) as [l|] eqn:Hl; [|discriminate].
    destruct (l !! i) as [q|] eqn:Hq; [|discriminate].
    destruct (q =? NULL); [inversion H; subst; auto|].
    destruct (tcbs k !! q) as [x|] eqn:Hx; [|discriminate].
    destruct (bool_decide (state x = TASK_READY)) eqn:Hr; cbn [negb orb] in H;
      [|apply IH in H; [rewrite <- Hl|]; auto].
    apply bool_decide_eq_true in Hr.
    destruct (rt_prio x =? NULL); cbn [negb] in H;
      [|apply IH in H; [rewrite <- Hl|]; auto].
    cbv zeta in H.
    match type of H with context [if ?c then _ else _] => destruct c end.
    + inversion H; subst. kcb_simpl. split; [|split; [exact Hl|]].
      * apply (store_other q x); auto. congruence.
      * intros j Hj. inversion Hj; subst. eexists l, q, _. kcb_simpl.
        rewrite lookup_insert_eq. repeat split; eauto.
    + apply IH in H.
      * kcb_simpl. rewrite <- Hl. exact H.
      * apply (store_other q x); auto. congruence.
Qed.

Lemma find_next_ready_task_keeps k r k' :
  tcbs k !! p = Some t -> find_next_ready_task k = Ok (r, k') ->
  tcbs k' !! p = Some t /\ tasks k' = tasks k /\ ready_node k' r.
Proof.
  intros Hp H. unfold find_next_ready_task, find_next_ready_task_visits in H.
  apply bind_inv_ok in H as (r0 & k0 & H & Hr). inversion Hr; subst. clear Hr.
  apply bind_inv_ok in H as (cur & k1 & Hc & H).
  unfold gets in Hc. inversion Hc; subst. clear Hc.
  destruct (task_current k1); kcb_simpl;
    [|inversion H; subst; repeat split; auto; intros i; discriminate].
  apply bind_inv_ok in H as (h & k2 & Hh & H).
  apply ready_hint_keeps in Hh as (Hp2 & Ht2 & Hn2); [|exact Hp].
  destruct h; kcb_simpl; [inversion H; subst; auto|].
  apply bind_inv_ok in H as (r' & k3 & Hw & H).
  apply ready_walk_keeps in Hw as (Hp3 & Ht3 & Hn3); [|exact Hp2].
  destruct (r'.1) eqn:Hr1; kcb_simpl.
  - inversion H; subst. rewrite Hr1. repeat split; auto; congruence.
  - monad_unfold. inversion H; subst. rewrite Hr1. kcb_simpl.
    repeat split; auto; first [congruence | intros ?; discriminate].
Qed.

Lemma schedule_next_task_keeps : keeps p t schedule_next_task.
Proof.
  intros k a k' Hp H. unfold schedule_next_task in H.
  apply bind_inv_ok in H as (cur & k1 & Hc & H).
  unfold gets in Hc. inversion Hc; subst. clear Hc.
  destruct (task_current k1) as [c|]; kcb_simpl; [|discriminate].
  apply bind_inv_ok in H as (q & k2 & Hq & H).
  assert (k2 = k1) as ->.
  { unfold node_data in Hq. destruct (tasks k1) as [l|]; [|discriminate].
    destruct (l !! c); inversion Hq; auto. }
  destruct (q =? NULL); kcb_simpl; [discriminate|].
  apply bind_inv_ok in H as (x & k2 & Hx & H).
  unfold deref in Hx. destruct (tcbs k1 !! q) as [x'|] eqn:Hx'; [|discriminate].
  inversion Hx; subst. clear Hx.
  apply bind_inv_ok in H as ([] & k3 & Hm & H).
  assert (Hk3 : tcbs k3 !! p = Some t /\ tasks k3 = tasks k2).
  { destruct (bool_decide (state x = TASK_RUNNING)) eqn:Hr.
    - apply bool_decide_eq_true in Hr. monad_unfold. inversion Hm; subst.
      split; [|reflexivity]. apply (store_other q x); auto. congruence.
    - inversion Hm; subst. auto. }
  destruct Hk3 as [Hp3 Ht3].
  apply bind_inv_ok in H as (nx & k4 & Hf & H).
  apply find_next_ready_task_keeps in Hf as (Hp4 & Ht4 & Hn4); [|exact Hp3].
  destruct nx as [n|]; [|discriminate].
  destruct (Hn4 n eq_refl) as (l & q' & y & Hl & Hq' & Hy & Hys).
  monad_unfold. kcb_simpl. rewrite Hl in H. kcb_simpl.
  rewrite Hq' in H. kcb_simpl. rewrite Hy in H. kcb_simpl.
  inversion H; subst. kcb_simpl. split; [|congruence].
  apply (store_other q' y); auto. congruence.
Qed.

(** Neither a dispatcher pass nor a yield touches a suspended task: its
    delay is not aged and the scheduler does not select it. *)
Lemma suspended_task_stays_out k k' :
  tcbs k !! p = Some t ->
  (dispatch k = Ok (tt, k') -> tcbs k' !! p = Some t) /\
  (yield k = Ok (tt, k') -> tcbs k' !! p = Some t).
Proof.
  intros Hp. split; intros H.
  - unfold dispatch in H.
    apply bind_inv_ok in H as (q & k1 & Hq & H).
    apply current_task_ptr_state in Hq as ->.
    destruct (q =? NULL); [discriminate|].
    apply bind_inv_ok in H as ([] & k2 & Hs & H).
    apply task_stack_check_keeps in Hs as [Hp2 _]; [|exact Hp].
    apply bind_inv_ok in H as (r & k3 & Hd & H).
    apply list_foreach_delay_update_keeps in Hd as [Hp3 _]; [|exact Hp2].
    apply bind_inv_ok in H as (rt & k4 & Hg & H).
    unfold gets in Hg. inversion Hg; subst. clear Hg.
    apply bind_inv_ok in H as ([] & k5 & Hn & H).
    assert (Hp5 : tcbs k5 !! p = Some t).
    { destruct (rt_sched k4 <? 0).
      - apply bind_inv_ok in Hn as (i & k6 & Hn & Hr). inversion Hr; subst.
        apply schedule_next_task_keeps in Hn as [Hn _]; auto.
      - inversion Hn; subst. auto. }
    apply bind_inv_ok in H as (q' & k6 & Hq' & H).
    apply current_task_ptr_state in Hq' as ->.
    monad_unfold. destruct (tcbs k5 !! q'); inversion H; subst. auto.
  - unfold yield in H.
    apply bind_inv_ok in H as (q & k1 & Hq & H).
    apply current_task_ptr_state in Hq as ->.
    destruct (q =? NULL); [inversion H; subst; auto|].
    apply bind_inv_ok in H as ([] & k2 & Hs & H).
    apply task_stack_check_keeps in Hs as [Hp2 _]; [|exact Hp].
    apply bind_inv_ok in H as (pre & k3 & Hg & H).
    unfold gets in Hg. inversion Hg; subst. clear Hg.
    apply bind_inv_ok in H as ([] & k4 & Hd & H).
    assert (Hp4 : tcbs k4 !! p = Some t).
    { destruct (negb (preemptive k3)).
      - apply bind_inv_ok in Hd as (r & k5 & Hd & Hr). inversion Hr; subst.
        apply list_foreach_delay_update_keeps in Hd as [Hd _]; auto.
      - inversion Hd; subst. auto. }
    apply bind_inv_ok in H as (i & k5 & Hn & H). inversion H; subst.
    apply schedule_next_task_keeps in Hn as [Hn _]; auto.
Qed.

End Suspended.

Lemma find_task_node_by_id_nonzero tid k n k1 :
  find_task_node_by_id tid k = Ok (Some n, k1) -> tid <> 0.
Proof.
  unfold find_task_node_by_id. monad_unfold.
  destruct (tasks k); [|discriminate].
  destruct (Z.eqb_spec tid 0); [discriminate|auto].
Qed.

(** C3, as amended.  A task that [mo_task_suspend] finds BLOCKED with a
    delay pending becomes SUSPENDED and keeps its delay.  While it is
    suspended no dispatcher pass and no yield changes it: the delay is not
    aged and the task is not selected.  [mo_task_resume] then makes it
    READY at once, with the delay that was left still in place and without
    a tick having to pass: the pending delay no longer holds the task
    back. *)
Theorem suspend_blocked_then_resume tid k n k1 p t :
  find_task_node_by_id tid k = Ok (Some n, k1) ->
  node_data n k1 = Ok (p, k1) -> p <> NULL ->
  tcbs k1 !! p = Some t -> state t = TASK_BLOCKED -> 0 < delay t ->
  task_current k1 <> Some n ->
  let ts := set_state t TASK_SUSPENDED in
  (exists k2, mo_task_suspend tid k = Ok (ERR_OK, k2) /\
              tcbs k2 !! p = Some ts) /\
  (forall ka kb,
     tcbs ka !! p = Some ts ->
     dispatch ka = Ok (tt, kb) \/ yield ka = Ok (tt, kb) ->
     tcbs kb !! p = Some ts) /\
  (forall ka n' ka1,
     find_task_node_by_id tid ka = Ok (Some n', ka1) ->
     node_data n' ka1 = Ok (p, ka1) ->
     tcbs ka1 !! p = Some ts ->
     exists kb, mo_task_resume tid ka = Ok (ERR_OK, kb) /\
                tcbs kb !! p = Some (set_state t TASK_READY) /\
                delay (set_state t TASK_READY) = delay t /\
                ticks kb = ticks ka1).
Proof.
  intros Hf Hd Hp Ht Hst Hdl Hcur ts.
  pose proof (find_task_node_by_id_nonzero _ _ _ _ Hf) as Htid.
  apply Z.eqb_neq in Htid. apply Z.eqb_neq in Hp.
  split; [|split].
  - unfold mo_task_suspend. rewrite Htid.
    rewrite (bind_ok _ _ _ _ _ Hf). rewrite (bind_ok _ _ _ _ _ Hd). rewrite Hp.
    monad_unfold. rewrite Ht, Hst.
    rewrite (bool_decide_eq_true_2 (TASK_BLOCKED = TASK_BLOCKED) eq_refl).
    rewrite andb_false_r. kcb_simpl.
    rewrite (bool_decide_eq_false_2 _ Hcur).
    destruct (bool_decide (last_ready_hint k1 = Some n)); kcb_simpl;
      eexists; (split; [reflexivity|]); kcb_simpl; apply lookup_insert_eq.
  - intros ka kb Hka [H|H].
    + exact (proj1 (suspended_task_stays_out p ts eq_refl ka kb Hka) H).
    + exact (proj2 (suspended_task_stays_out p ts eq_refl ka kb Hka) H).
  - intros ka n' ka1 Hf' Hd' Hts.
    unfold mo_task_resume. rewrite Htid.
    rewrite (bind_ok _ _ _ _ _ Hf'). rewrite (bind_ok _ _ _ _ _ Hd'). rewrite Hp.
    monad_unfold. rewrite Hts.
    rewrite (bool_decide_eq_true_2 (state ts = TASK_SUSPENDED) eq_refl).
    kcb_simpl.
    eexists. split; [reflexivity|]. kcb_simpl. rewrite lookup_insert_eq.
    repeat split.
Qed.

Lemma suspend_blocked_then_resume_witness :
  exists k2, mo_task_suspend 2 two_tasks = Ok (ERR_OK, k2) /\
             tcbs k2 !! 0x2000 =
               Some (set_state (sample_tcb 2 TASK_BLOCKED 0x1F00 5)
                       TASK_SUSPENDED).
Proof.
  refine (proj1 (suspend_blocked_then_resume 2 two_tasks 1 two_tasks 0x2000
                   (sample_tcb 2 TASK_BLOCKED 0x1F00 5) _ _ _ _ _ _ _)).
  - reflexivity.
  - reflexivity.
  - discriminate.
  - reflexivity.
  - reflexivity.
  - reflexivity.
  - discriminate.
Defined.

(** Task 2 sleeps for 5 ticks.  It is suspended and resumed, and at the
    next yield of task 1 it runs, with its 5 ticks of delay left and no
    tick gone by. *)
Lemma resumed_sleeper_runs_early :
  exists k1 k2 k3 t,
    mo_task_suspend 2 two_tasks = Ok (ERR_OK, k1) /\
    mo_task_resume 2 k1 = Ok (ERR_OK, k2) /\
    mo_task_yield k2 = Ok (tt, k3) /\
    tcbs k3 !! 0x2000 = Some t /\
    state t = TASK_RUNNING /\ delay t = 5 /\ ticks k3 = ticks two_tasks.
Proof.
  do 4 eexists.
  split; [vm_compute; reflexivity|].
  split; [vm_compute; reflexivity|].
  split; [vm_compute; reflexivity|].
  split; [vm_compute; reflexivity|].
  repeat split.
Qed.

(** ** Semaphores *)

Section SemaphoreProps.

Variable SEM_MAX_COUNT : Z.



End SemaphoreProps.


(** ** Mutexes *)

Section MutexProps.

Variable MUTEX_MAGIC : Z.




End MutexProps.



(** ** Message queues *)

(** [mo_mq_enqueue] adds no code of its own: on a full queue it returns
    the code of [queue_enqueue], whatever that is, and leaves the queue;
    with room it appends the message at the tail and returns 0.  Which
    code a full queue gives is decided by lib/queue.c, which the sources
    do not hold. *)
Lemma mo_mq_enqueue_passes_code queue_full_rc mq msg :
  (queue_is_full (mq_q mq) = true ->
     mo_mq_enqueue queue_full_rc mq msg = (queue_full_rc, mq)) /\
  (queue_is_full (mq_q mq) = false ->
     mo_mq_enqueue queue_full_rc mq msg =
       (0, Mq (Queue (q_buf (mq_q mq) ++ [msg]) (q_size (mq_q mq))))).
Proof.
  unfold mo_mq_enqueue, queue_enqueue. split; intros ->; reflexivity.
Qed.

(** The messages come out in the order they went in. *)
Lemma mo_mq_enqueue_dequeue queue_full_rc msg cap :
  0 < cap ->
  let mq := Mq (Queue [] cap) in
  mo_mq_dequeue (mo_mq_enqueue queue_full_rc mq msg).2 = (msg, mq) /\
  mo_mq_peek (mo_mq_enqueue queue_full_rc mq msg).2 = msg.
Proof.
  intros Hc mq. unfold mo_mq_enqueue, queue_enqueue, queue_is_full, queue_count.
  cbn [mq_q mq q_buf q_size length].
  destruct (Z.leb_spec cap (Z.of_nat 0)) as [Hle|_]; [cbn in Hle; lia|].
  split; reflexivity.
Qed.

(** ** Pipes *)

Lemma land_mask_range x m :
  is_power_of_two (m + 1) -> 0 <= x -> 0 <= Z.land x m <= m.
Proof.
  intros (e & He & Hm) Hx.
  replace m with (Z.ones e) by (rewrite Z.ones_equiv; lia).
  rewrite Z.land_ones by lia.
  pose proof (Z.mod_pos_bound x (2 ^ e) ltac:(lia)). rewrite Z.ones_equiv. lia.
Qed.

Lemma u16_small x : 0 <= x < 2 ^ 16 -> u16 x = x.
Proof. intros H. unfold u16. apply Z.mod_small. exact H. Qed.

Ltac pipe_simpl :=
  cbn [snd pipe_mask pipe_used pipe_head pipe_tail pipe_buf].

Lemma pipe_get_byte_inv cap p :
  pipe_inv cap p -> pipe_is_empty p = false -> pipe_inv cap (pipe_get_byte p).2.
Proof.
  intros [Hcap Hc Hm H16 Hu Hh Ht Hb] He. subst cap.
  unfold pipe_is_empty in He. apply Z.eqb_neq in He.
  pose proof (land_mask_range (pipe_head p + 1) (pipe_mask p) Hc ltac:(lia)).
  unfold pipe_get_byte. constructor; pipe_simpl; auto.
  - rewrite u16_small by lia. lia.
  - rewrite u16_small by lia. lia.
Qed.

Lemma pipe_put_byte_inv cap p c :
  pipe_inv cap p -> pipe_is_full p = false -> pipe_inv cap (pipe_put_byte p c).
Proof.
  intros [Hcap Hc Hm H16 Hu Hh Ht Hb] He. subst cap.
  unfold pipe_is_full in He. apply Z.eqb_neq in He.
  pose proof (land_mask_range (pipe_tail p + 1) (pipe_mask p) Hc ltac:(lia)).
  unfold pipe_put_byte. constructor; pipe_simpl; auto.
  - unfold u16.
    pose proof (Z.mod_pos_bound (pipe_used p + 1) (2 ^ 16) ltac:(lia)).
    destruct (Z.eq_dec (pipe_used p + 1) (2 ^ 16)) as [E|E].
    + rewrite E, Z.mod_same by lia. lia.
    + rewrite Z.mod_small by lia. lia.
  - rewrite u16_small by lia. lia.
  - rewrite length_insert. exact Hb.
Qed.

Lemma pipe_read_loop_inv cap n :
  forall p out, pipe_inv cap p -> pipe_inv cap (pipe_read_loop n p out).2.
Proof.
  induction n as [|n IH]; intros p out Hp; cbn [pipe_read_loop]; [exact Hp|].
  destruct (pipe_is_empty p) eqn:He; [exact Hp|].
  pose proof (pipe_get_byte_inv cap p Hp He) as H.
  destruct (pipe_get_byte p) as [c p']. apply IH. exact H.
Qed.

Lemma pipe_nbread_loop_inv cap n :
  forall p out, pipe_inv cap p -> pipe_inv cap (pipe_nbread_loop n p out).2.
Proof.
  induction n as [|n IH]; intros p out Hp; cbn [pipe_nbread_loop]; [exact Hp|].
  destruct (pipe_is_empty p) eqn:He; [exact Hp|].
  pose proof (pipe_get_byte_inv cap p Hp He) as H.
  destruct (pipe_get_byte p) as [c p']. apply IH. exact H.
Qed.

Lemma pipe_write_loop_inv cap n :
  forall p src i, pipe_inv cap p -> pipe_inv cap (pipe_write_loop n p src i).2.
Proof.
  induction n as [|n IH]; intros p src i Hp; cbn [pipe_write_loop]; [exact Hp|].
  destruct (pipe_is_full p) eqn:He; [exact Hp|].
  apply IH. apply pipe_put_byte_inv; assumption.
Qed.

Lemma pipe_nbwrite_loop_inv cap n :
  forall p src i, pipe_inv cap p -> pipe_inv cap (pipe_nbwrite_loop n p src i).2.
Proof.
  induction n as [|n IH]; intros p src i Hp; cbn [pipe_nbwrite_loop]; [exact Hp|].
  destruct (pipe_is_full p) eqn:He; [exact Hp|].
  apply IH. apply pipe_put_byte_inv; assumption.
Qed.

Lemma pipe_apply_inv cap p op : pipe_inv cap p -> pipe_inv cap (pipe_apply p op).
Proof.
  intros Hp. destruct op as [dst len|src data len|dst len|src data len|];
    cbn [pipe_apply].
  - unfold mo_pipe_read. destruct (_ || _); [exact Hp|].
    apply pipe_read_loop_inv. exact Hp.
  - unfold mo_pipe_write. destruct (_ || _); [exact Hp|].
    apply pipe_write_loop_inv. exact Hp.
  - unfold mo_pipe_nbread. destruct (_ || _); [exact Hp|].
    pose proof (pipe_nbread_loop_inv cap (Z.to_nat len) p [] Hp) as H.
    destruct (pipe_nbread_loop _ _ _). exact H.
  - unfold mo_pipe_nbwrite. destruct (_ || _); [exact Hp|].
    pose proof (pipe_nbwrite_loop_inv cap (Z.to_nat len) p data 0 Hp) as H.
    destruct (pipe_nbwrite_loop _ _ _ _). exact H.
  - destruct Hp. unfold mo_pipe_flush. constructor; cbn; auto; lia.
Qed.

Lemma pipe_run_inv cap ops :
  forall p, pipe_inv cap p -> pipe_inv cap (pipe_run p ops).
Proof.
  induction ops as [|op ops IH]; intros p Hp; [exact Hp|].
  apply IH. apply pipe_apply_inv. exact Hp.
Qed.

(** The capacity is the request rounded up: the least power of two that
    is at least the request, and at least 2. *)
Lemma pipe_capacity_rounds_up size :
  0 <= size < 2 ^ 16 -> pipe_capacity size <> 0 ->
  is_power_of_two (pipe_capacity size) /\
  2 <= pipe_capacity size < 2 ^ 16 /\
  size <= pipe_capacity size /\
  (pipe_capacity size < 2 * size \/ pipe_capacity size = 2).
Proof.
  intros Hs. unfold pipe_capacity.
  set (s := if size <? 2 then 2 else size).
  assert (Hs2 : 2 <= s < 2 ^ 16 /\ size <= s /\ (s = size \/ s = 2)).
  { subst s. destruct (Z.ltb_spec size 2); lia. }
  clearbody s. destruct Hs2 as (Hs2 & Hle & Hor).
  unfold ispowerof2.
  destruct (Z.ltb_spec 0 s) as [_|]; [|lia]. cbn [andb].
  destruct (Z.eqb_spec (2 ^ Z.log2 s) s) as [Hpow|Hpow]; cbn [negb].
  - intros _. split; [exists (Z.log2 s); split; [apply Z.log2_nonneg|lia]|].
    lia.
  - unfold nextpowerof2.
    pose proof (Z.log2_up_spec s ltac:(lia)) as [Hlo Hhi].
    pose proof (Z.log2_up_nonneg s) as Hnn.
    assert (He : Z.log2_up s <= 16).
    { apply Z.log2_up_le_pow2; lia. }
    assert (Hb : 2 ^ Z.log2_up s <= 2 ^ 16).
    { apply Z.pow_le_mono_r; lia. }
    assert (Hu32 : u32 (2 ^ Z.log2_up s) = 2 ^ Z.log2_up s).
    { unfold u32. apply Z.mod_small. lia. }
    rewrite Hu32.
    destruct (Z.eq_dec (2 ^ Z.log2_up s) (2 ^ 16)) as [E|E].
    + rewrite E. intros H. exfalso. apply H. reflexivity.
    + intros _. rewrite u16_small by lia.
      split; [exists (Z.log2_up s); split; auto|].
      assert (2 ^ Z.log2_up s = 2 * 2 ^ Z.pred (Z.log2_up s)).
      { rewrite <- Z.pow_succ_r.
        - f_equal. lia.
        - assert (0 < Z.log2_up s) by (apply Z.log2_up_pos; lia). lia. }
      lia.
Qed.

Lemma mo_pipe_create_inv size p_found buf_found p :
  0 <= size < 2 ^ 16 ->
  mo_pipe_create size p_found buf_found = Some p ->
  pipe_inv (pipe_capacity size) p /\ pipe_capacity size <> 0.
Proof.
  intros Hs. unfold mo_pipe_create. fold (pipe_capacity size).
  destruct (p_found =? NULL); [discriminate|].
  unfold malloc.
  destruct (Z.eqb_spec (pipe_capacity size) 0) as [|Hnz]; [discriminate|].
  destruct (buf_found =? NULL); [discriminate|].
  intros H. inversion H. subst p. clear H.
  destruct (pipe_capacity_rounds_up size Hs Hnz) as (Hpow & Hr & Hle & Hmin).
  split; [|exact Hnz].
  constructor; pipe_simpl; rewrite ?u16_small by lia; try lia.
  - exact Hpow.
  - rewrite length_replicate. lia.
Qed.

(** [pipe_get_byte] has no guard of its own: on an empty pipe the count
    wraps around.  Its callers test [pipe_is_empty] first, in the same
    critical section for the non-blocking read and in the one before for
    the blocking read. *)
Example pipe_get_byte_unguarded :
  pipe_used (pipe_get_byte (Pipe (replicate 8 0) 7 0 0 0)).2 = 65535.
Proof. reflexivity. Qed.

(** Scenario 4 of the spec: a pipe of capacity 8 takes 8 bytes and the
    writer then waits; after 3 bytes are read, 3 more go in. *)
Example pipe_scenario :
  let p := Pipe (replicate 8 0) 7 0 0 0 in
  let w1 := mo_pipe_write p 0x700 [72; 69; 76; 76; 79; 72; 69; 76; 33] 9 in
  let r := mo_pipe_nbread w1.2 0x710 3 in
  let w2 := mo_pipe_nbwrite r.2 0x700 [33; 34; 35] 3 in
  w1.1 = PipeWaits 8 /\ pipe_used w1.2 = 8 /\
  r.1 = (PipeCount 3, [72; 69; 76]) /\
  w2.1 = PipeCount 3 /\ pipe_used w2.2 = 8.
Proof. repeat split. Qed.

(** ** Software timers *)



Lemma deadline_of_insert_other tm t x l :
  t ∉ l ->
  map (deadline_of (<[t := x]> tm)) l = map (deadline_of tm) l.
Proof.
  intros Hn. apply map_ext_in. intros u Hu. unfold deadline_of.
  rewrite lookup_insert_ne; [reflexivity|].
  intros ->. apply Hn. apply list_elem_of_In. exact Hu.
Qed.

Lemma timers_valid_insert tm t x l :
  timers_valid tm l -> timers_valid (<[t := x]> tm) l.
Proof.
  intros Hv u Hu. destruct (decide (t = u)) as [->|Hne].
  - rewrite lookup_insert_eq. eauto.
  - rewrite lookup_insert_ne by exact Hne. apply Hv. exact Hu.
Qed.

Lemma pool_first_free_spec m : forall n i0 i,
  0 <= i0 ->
  pool_first_free n i0 m = Some i ->
  i0 <= i < i0 + Z.of_nat n /\ Z.testbit m i = true.
Proof.
  induction n as [|n IH]; intros i0 i H0 H; [discriminate|].
  cbn [pool_first_free] in H.
  destruct (Z.eqb_spec (Z.land m (Z.shiftl 1 i0)) 0) as [He|He]; cbn [negb] in H.
  - apply IH in H as [Hr Hb]; [|lia]. split; [lia|exact Hb].
  - inversion H; subst i. split; [lia|].
    destruct (Z.testbit m i0) eqn:Hb; [reflexivity|].
    exfalso. apply He. apply Z.bits_inj'. intros k Hk.
    rewrite Z.land_spec, Z.bits_0, Z.shiftl_spec by lia.
    destruct (Z.eq_dec k i0) as [->|Hne].
    + rewrite Hb. reflexivity.
    + destruct (Z.ltb_spec k i0).
      * rewrite (Z.testbit_neg_r 1 (k - i0)) by lia. apply andb_false_r.
      * replace (Z.testbit 1 (k - i0)) with false; [apply andb_false_r|].
        symmetry. change 1 with (Z.ones 1). apply Z.ones_spec_high. lia.
Qed.

Section TimerProps.

Variable MS_TO_TICKS : Z -> Z.
Variable malloc_node : Z.








(** The sorted insert adds the timer and keeps the order. *)
Lemma insert_by_deadline_spec tm d t : forall l,
  timers_valid tm l ->
  exists l', insert_by_deadline tm d t l = Some l' /\
             Permutation l' (t :: l) /\
             (deadline_of tm t = d -> deadline_sorted tm l ->
              deadline_sorted tm l').
Proof.
  induction l as [|c rest IH]; intros Hv.
  - exists [t]. repeat split; auto.
    intros _ _. repeat constructor.
  - cbn [insert_by_deadline].
    destruct (Hv c ltac:(left)) as [x Hx]. rewrite Hx.
    assert (Hdc : deadline_of tm c = deadline_ticks x)
      by (unfold deadline_of; rewrite Hx; reflexivity).
    destruct (Z.ltb_spec d (deadline_ticks x)) as [Hlt|Hge].
    + exists (t :: c :: rest). repeat split; auto.
      intros Hd Hs. unfold deadline_sorted in *. cbn [map] in *.
      constructor; [exact Hs|].
      apply StronglySorted_inv in Hs as [_ Hall].
      constructor; [lia|].
      eapply Forall_impl; [exact Hall|]. cbn. intros; lia.
    + destruct IH as (l' & Hl' & Hperm & Hsort).
      { intros u Hu. apply Hv. right. exact Hu. }
      rewrite Hl'. exists (c :: l'). split; [reflexivity|]. split.
      * rewrite Hperm. apply perm_swap.
      * intros Hd Hs. unfold deadline_sorted in *. cbn [map] in *.
        apply StronglySorted_inv in Hs as [Hs Hall].
        constructor; [apply Hsort; auto|].
        assert (Hp : Permutation (map (deadline_of tm) l')
                       (map (deadline_of tm) (t :: rest)))
          by (apply Permutation_map; exact Hperm).
        eapply Permutation_Forall; [symmetry; exact Hp|].
        cbn [map]. constructor; [lia|exact Hall].
Qed.




End TimerProps.

(** At tick 12, timers 0x100 (auto-reload, 50 ms) and 0x200 (one-shot)
    fire; 0x100 comes back with deadline 17, in front of 0x300. *)
Example sample_timers_tick :
  _timer_tick_handler ms_to_ticks_100hz NULL sample_timers =
    Some (TimerSys
            (<[0x100 := Timer 0x6000 0x500 0 50 17 TIMER_AUTORELOAD]>
               (<[0x200 := Timer 0x6001 0x504 7 20 12 TIMER_DISABLED]>
                  (<[0x300 := Timer 0x6002 0x508 0 300 40 TIMER_AUTORELOAD]> ∅)))
            [0x100; 0x300] 12 true 0xFFF0 [(0x500, 0); (0x504, 7)]).
Proof. vm_compute. reflexivity. Qed.




(** ** The pipe as a first-in first-out byte queue *)

Lemma land_mask_mod x m :
  is_power_of_two (m + 1) -> Z.land x m = x mod (m + 1).
Proof.
  intros (e & He & Hm).
  replace m with (Z.ones e) at 1 by (rewrite Z.ones_equiv; lia).
  rewrite Z.land_ones by lia. rewrite Hm. reflexivity.
Qed.

Lemma pipe_contents_length cap p :
  pipe_inv cap p -> Z.of_nat (length (pipe_contents p)) = pipe_used p.
Proof.
  intros [? ? ? ? ? ? ? ?]. unfold pipe_contents.
  rewrite length_map, length_seq. lia.
Qed.

Lemma pipe_get_byte_contents cap p :
  pipe_wf cap p -> pipe_is_empty p = false ->
  exists c rest,
    pipe_contents p = c :: rest /\
    (pipe_get_byte p).1 = c /\
    pipe_contents (pipe_get_byte p).2 = rest /\
    pipe_wf cap (pipe_get_byte p).2.
Proof.
  intros (Hinv & Hcap & Htail) He.
  pose proof (pipe_get_byte_inv cap p Hinv He) as Hinv'.
  destruct Hinv as [Hc Hpow Hmin H16 Hu Hh Ht Hb].
  unfold pipe_is_empty in He. apply Z.eqb_neq in He.
  assert (Hpow' : is_power_of_two (pipe_mask p + 1)) by (rewrite Hc; exact Hpow).
  pose proof (land_mask_range (pipe_head p + 1) (pipe_mask p) Hpow' ltac:(lia)) as Hr.
  unfold pipe_contents.
  replace (Z.to_nat (pipe_used p)) with (S (Z.to_nat (pipe_used p - 1))) by lia.
  cbn [seq map]. eexists _, _. split; [reflexivity|].
  unfold pipe_get_byte. cbn [fst snd pipe_buf pipe_head pipe_mask pipe_used pipe_tail].
  split; [|split].
  - change (Z.of_nat 0) with 0. rewrite Z.add_0_r, land_mask_mod by exact Hpow'.
    rewrite Z.mod_small by lia. reflexivity.
  - rewrite !u16_small by lia.
    rewrite <- seq_shift, map_map. apply map_ext. intros i.
    rewrite !land_mask_mod by exact Hpow'.
    rewrite Zplus_mod_idemp_l. replace (pipe_head p + Z.of_nat (S i)) with (pipe_head p + 1 + Z.of_nat i) by lia. reflexivity.
  - split; [exact Hinv'|]. split; [exact Hcap|].
    cbn [pipe_tail pipe_head pipe_used pipe_mask].
    rewrite !u16_small by lia. rewrite Htail.
    rewrite !land_mask_mod by exact Hpow'.
    rewrite Zplus_mod_idemp_l. f_equal. lia.
Qed.

Lemma pipe_put_byte_contents cap p c :
  pipe_wf cap p -> pipe_is_full p = false ->
  pipe_contents (pipe_put_byte p c) = pipe_contents p ++ [c] /\
  pipe_wf cap (pipe_put_byte p c).
Proof.
  intros (Hinv & Hcap & Htail) He.
  pose proof (pipe_put_byte_inv cap p c Hinv He) as Hinv'.
  destruct Hinv as [Hc Hpow Hmin H16 Hu Hh Ht Hb].
  unfold pipe_is_full in He. apply Z.eqb_neq in He.
  assert (Hpow' : is_power_of_two (pipe_mask p + 1)) by (rewrite Hc; exact Hpow).
  pose proof (land_mask_range (pipe_tail p + 1) (pipe_mask p) Hpow' ltac:(lia)) as Hr.
  split.
  - unfold pipe_contents, pipe_put_byte.
    cbn [pipe_buf pipe_head pipe_mask pipe_used pipe_tail].
    rewrite u16_small by lia.
    replace (Z.to_nat (pipe_used p + 1)) with (Z.to_nat (pipe_used p) + 1)%nat by lia.
    rewrite seq_app, map_app. cbn [seq map]. f_equal.
    + apply map_ext_in. intros i Hi. apply in_seq in Hi.
      rewrite list_lookup_insert_ne; [reflexivity|].
      rewrite Htail, !land_mask_mod by exact Hpow'.
      intros Heq. apply Z2Nat.inj in Heq;
        try (apply Z.mod_pos_bound; lia).
      assert (Hd : (pipe_used p - Z.of_nat i) mod (pipe_mask p + 1) = 0).
      { rewrite Zminus_mod.
        replace (pipe_used p) with (pipe_head p + pipe_used p - pipe_head p) at 1 by lia.
        replace (Z.of_nat i) with (pipe_head p + Z.of_nat i - pipe_head p) at 1 by lia.
        rewrite (Zminus_mod (pipe_head p + pipe_used p)),
                (Zminus_mod (pipe_head p + Z.of_nat i)).
        rewrite Heq. rewrite Z.sub_diag. reflexivity. }
      rewrite Z.mod_small in Hd by lia. lia.
    + rewrite Nat.add_0_l, Z2Nat.id by lia. rewrite <- Htail.
      rewrite list_lookup_insert_eq by lia. reflexivity.
  - split; [exact Hinv'|]. split; [exact Hcap|].
    unfold pipe_put_byte. cbn [pipe_tail pipe_head pipe_used pipe_mask].
    rewrite !u16_small by lia. rewrite Htail.
    rewrite !land_mask_mod by exact Hpow'.
    rewrite Zplus_mod_idemp_l. f_equal. lia.
Qed.

Lemma pipe_contents_empty cap p :
  pipe_inv cap p -> pipe_is_empty p = true -> pipe_contents p = [].
Proof.
  intros _ He. unfold pipe_is_empty in He. apply Z.eqb_eq in He.
  unfold pipe_contents. rewrite He. reflexivity.
Qed.

Lemma pipe_is_full_length cap p :
  pipe_inv cap p ->
  pipe_is_full p = true <-> length (pipe_contents p) = Z.to_nat cap.
Proof.
  intros Hinv. pose proof (pipe_contents_length cap p Hinv) as Hl.
  destruct Hinv as [Hc Hpow Hmin H16 Hu Hh Ht Hb].
  unfold pipe_is_full. rewrite Z.eqb_eq. lia.
Qed.

Lemma pipe_contents_bound cap p :
  pipe_inv cap p -> (length (pipe_contents p) <= Z.to_nat cap)%nat.
Proof.
  intros Hinv. pose proof (pipe_contents_length cap p Hinv) as Hl.
  destruct Hinv as [Hc Hpow Hmin H16 Hu Hh Ht Hb]. lia.
Qed.

(** What the read loops do: they take the [k] oldest bytes, [k] the
    smaller of the request and the content. *)
Lemma pipe_nbread_loop_spec cap n : forall p out,
  pipe_wf cap p ->
  let k := Nat.min n (length (pipe_contents p)) in
  let r := pipe_nbread_loop n p out in
  r.1 = out ++ take k (pipe_contents p) /\
  pipe_contents r.2 = drop k (pipe_contents p) /\
  pipe_wf cap r.2.
Proof.
  induction n as [|n IH]; intros p out Hwf; cbn [pipe_nbread_loop].
  - cbn. rewrite app_nil_r. auto.
  - destruct (pipe_is_empty p) eqn:He.
    + rewrite (pipe_contents_empty cap p (proj1 Hwf) He). cbn.
      rewrite app_nil_r. split_and!; auto.
      apply (pipe_contents_empty cap p (proj1 Hwf) He).
    + destruct (pipe_get_byte_contents cap p Hwf He)
        as (c & rest & Hc & Hb & Hrest & Hwf').
      destruct (pipe_get_byte p) as [c' p']. cbn [fst snd] in *. subst c'.
      destruct (IH p' (out ++ [c]) Hwf') as (H1 & H2 & H3).
      rewrite Hrest in H1, H2. rewrite Hc. cbn [length Nat.min take drop].
      rewrite H1, H2, <- app_assoc. auto.
Qed.

Lemma pipe_read_loop_spec cap n : forall p out,
  pipe_wf cap p ->
  let k := Nat.min n (length (pipe_contents p)) in
  let r := pipe_read_loop n p out in
  r.1.1 = (if (n <=? length (pipe_contents p))%nat
           then PipeCount (Z.of_nat (length out + n))
           else PipeWaits (Z.of_nat (length out + length (pipe_contents p)))) /\
  r.1.2 = out ++ take k (pipe_contents p) /\
  pipe_contents r.2 = drop k (pipe_contents p) /\
  pipe_wf cap r.2.
Proof.
  induction n as [|n IH]; intros p out Hwf; cbn [pipe_read_loop].
  - cbn. rewrite app_nil_r, Nat.add_0_r. auto.
  - destruct (pipe_is_empty p) eqn:He.
    + rewrite (pipe_contents_empty cap p (proj1 Hwf) He). cbn.
      rewrite app_nil_r, Nat.add_0_r. split_and!; auto.
      apply (pipe_contents_empty cap p (proj1 Hwf) He).
    + destruct (pipe_get_byte_contents cap p Hwf He)
        as (c & rest & Hc & Hb & Hrest & Hwf').
      destruct (pipe_get_byte p) as [c' p']. cbn [fst snd] in *. subst c'.
      destruct (IH p' (out ++ [c]) Hwf') as (H0 & H1 & H2 & H3).
      rewrite Hrest in H0, H1, H2. rewrite Hc. cbn [length Nat.min take drop].
      rewrite H0, H1, H2, <- app_assoc. rewrite length_app. cbn [length].
      split_and!; auto.
      change (S n <=? S (length rest))%nat with (n <=? length rest)%nat.
      destruct (n <=? length rest)%nat; f_equal; lia.
Qed.

(** What the write loops do: they append the next [k] bytes of the
    source, [k] the smaller of the request and the free space. *)
Lemma pipe_nbwrite_loop_spec cap n : forall p src i,
  pipe_wf cap p -> (i + n <= length src)%nat ->
  let k := Nat.min n (Z.to_nat cap - length (pipe_contents p)) in
  let r := pipe_nbwrite_loop n p src i in
  r.1 = (i + k)%nat /\
  pipe_contents r.2 = pipe_contents p ++ take k (drop i src) /\
  pipe_wf cap r.2.
Proof.
  induction n as [|n IH]; intros p src i Hwf Hlen; cbn [pipe_nbwrite_loop]; cbv zeta.
  - cbn. rewrite app_nil_r, Nat.add_0_r. auto.
  - pose proof (pipe_contents_bound cap p (proj1 Hwf)) as Hbound.
    destruct (pipe_is_full p) eqn:He.
    + apply (pipe_is_full_length cap p (proj1 Hwf)) in He.
      rewrite He, Nat.sub_diag. cbn. rewrite app_nil_r, Nat.add_0_r. auto.
    + assert (Hlt : (length (pipe_contents p) < Z.to_nat cap)%nat).
      { destruct (Nat.eq_dec (length (pipe_contents p)) (Z.to_nat cap)) as [E|E];
          [|lia].
        apply (pipe_is_full_length cap p (proj1 Hwf)) in E. congruence. }
      destruct (lookup_lt_is_Some_2 src i ltac:(lia)) as [c Hc].
      rewrite Hc. change (default 0 (Some c)) with c.
      destruct (pipe_put_byte_contents cap p c Hwf He) as [Hcont Hwf'].
      destruct (IH (pipe_put_byte p c) src (S i) Hwf' ltac:(lia)) as (H1 & H2 & H3).
      cbv zeta in H1, H2, H3. rewrite Hcont, length_app in H1, H2. cbn [length] in H1, H2.
      replace (Nat.min (S n) (Z.to_nat cap - length (pipe_contents p)))
        with (S (Nat.min n (Z.to_nat cap - (length (pipe_contents p) + 1)))) by lia.
      rewrite H1, H2, <- app_assoc. split_and!; [lia| |assumption].
      rewrite (drop_S src c i Hc). reflexivity.
Qed.

Lemma pipe_write_loop_spec cap n : forall p src i,
  pipe_wf cap p -> (i + n <= length src)%nat ->
  let free := (Z.to_nat cap - length (pipe_contents p))%nat in
  let k := Nat.min n free in
  let r := pipe_write_loop n p src i in
  r.1 = (if (n <=? free)%nat then PipeCount (Z.of_nat (i + n))
         else PipeWaits (Z.of_nat (i + free))) /\
  pipe_contents r.2 = pipe_contents p ++ take k (drop i src) /\
  pipe_wf cap r.2.
Proof.
  induction n as [|n IH]; intros p src i Hwf Hlen; cbn [pipe_write_loop]; cbv zeta.
  - cbn. rewrite app_nil_r, Nat.add_0_r. auto.
  - pose proof (pipe_contents_bound cap p (proj1 Hwf)) as Hbound.
    destruct (pipe_is_full p) eqn:He.
    + apply (pipe_is_full_length cap p (proj1 Hwf)) in He.
      rewrite He, Nat.sub_diag. cbn. rewrite app_nil_r, Nat.add_0_r. auto.
    + assert (Hlt : (length (pipe_contents p) < Z.to_nat cap)%nat).
      { destruct (Nat.eq_dec (length (pipe_contents p)) (Z.to_nat cap)) as [E|E];
          [|lia].
        apply (pipe_is_full_length cap p (proj1 Hwf)) in E. congruence. }
      destruct (lookup_lt_is_Some_2 src i ltac:(lia)) as [c Hc].
      rewrite Hc. change (default 0 (Some c)) with c.
      destruct (pipe_put_byte_contents cap p c Hwf He) as [Hcont Hwf'].
      destruct (IH (pipe_put_byte p c) src (S i) Hwf' ltac:(lia)) as (H1 & H2 & H3).
      cbv zeta in H1, H2, H3. rewrite Hcont, length_app in H1, H2. cbn [length] in H1, H2.
      replace (Nat.min (S n) (Z.to_nat cap - length (pipe_contents p)))
        with (S (Nat.min n (Z.to_nat cap - (length (pipe_contents p) + 1)))) by lia.
      rewrite H1, H2, <- app_assoc. split_and!; [| |assumption].
      * destruct (Nat.leb_spec n (Z.to_nat cap - (length (pipe_contents p) + 1)));
          destruct (Nat.leb_spec (S n) (Z.to_nat cap - length (pipe_contents p)));
          try lia; f_equal; lia.
      * rewrite (drop_S src c i Hc). reflexivity.
Qed.

Lemma is_power_of_two_below c :
  is_power_of_two c -> c < 2 ^ 16 -> c <= 2 ^ 15.
Proof.
  intros (e & He & ->) Hlt.
  apply Z.pow_lt_mono_r_iff in Hlt; [|lia|lia].
  apply Z.pow_le_mono_r; lia.
Qed.

Lemma mo_pipe_create_wf size p_found buf_found p :
  0 <= size < 2 ^ 16 ->
  mo_pipe_create size p_found buf_found = Some p ->
  pipe_wf (pipe_capacity size) p /\ pipe_contents p = [].
Proof.
  intros Hs Hc.
  destruct (mo_pipe_create_inv size p_found buf_found p Hs Hc) as [Hinv Hnz].
  destruct (pipe_capacity_rounds_up size Hs Hnz) as (Hpow & Hrange & _).
  unfold mo_pipe_create in Hc.
  destruct (p_found =? NULL); [discriminate|].
  destruct (malloc _ _ =? NULL); [discriminate|].
  injection Hc as <-. split; [|reflexivity].
  split_and!; [exact Hinv|apply is_power_of_two_below; [exact Hpow|lia]|].
  cbn. reflexivity.
Qed.

Lemma mo_pipe_flush_wf cap p :
  pipe_wf cap p ->
  pipe_wf cap (mo_pipe_flush p) /\ pipe_contents (mo_pipe_flush p) = [].
Proof.
  intros (Hinv & Hcap & Ht). split; [|reflexivity].
  destruct Hinv as [Hc Hpow Hmin H16 Hu Hh Htl Hb].
  split_and!; [split; cbn; try assumption; lia|assumption|reflexivity].
Qed.

Lemma default_lookup_pad (src : list Z) m j :
  default 0 ((src ++ replicate m 0) !! j) = default 0 (src !! j).
Proof.
  destruct (Nat.lt_ge_cases j (length src)) as [H|H].
  - rewrite lookup_app_l by exact H. reflexivity.
  - rewrite lookup_app_r by exact H. rewrite (lookup_ge_None_2 _ _ H).
    destruct (replicate m 0 !! (j - length src)%nat) as [x|] eqn:E; [|reflexivity].
    apply lookup_replicate in E. destruct E as [-> _]. reflexivity.
Qed.

Lemma pipe_nbwrite_loop_pad m n : forall p src i,
  pipe_nbwrite_loop n p src i = pipe_nbwrite_loop n p (src ++ replicate m 0) i.
Proof.
  induction n as [|n IH]; intros p src i; cbn [pipe_nbwrite_loop]; [reflexivity|].
  rewrite default_lookup_pad, <- IH. reflexivity.
Qed.

Lemma pipe_write_loop_pad m n : forall p src i,
  pipe_write_loop n p src i = pipe_write_loop n p (src ++ replicate m 0) i.
Proof.
  induction n as [|n IH]; intros p src i; cbn [pipe_write_loop]; [reflexivity|].
  rewrite default_lookup_pad, <- IH. reflexivity.
Qed.

Lemma pipe_apply_wf cap p op : pipe_wf cap p -> pipe_wf cap (pipe_apply p op).
Proof.
  intros Hwf. destruct op as [dst len|src data len|dst len|src data len|];
    cbn [pipe_apply].
  - unfold mo_pipe_read. destruct (_ || _); [exact Hwf|].
    apply (pipe_read_loop_spec cap (Z.to_nat len) p [] Hwf).
  - unfold mo_pipe_write. destruct (_ || _); [exact Hwf|].
    rewrite (pipe_write_loop_pad (Z.to_nat len)).
    apply (pipe_write_loop_spec cap (Z.to_nat len) p _ 0%nat Hwf).
    rewrite length_app, length_replicate. lia.
  - unfold mo_pipe_nbread. destruct (_ || _); [exact Hwf|].
    pose proof (pipe_nbread_loop_spec cap (Z.to_nat len) p [] Hwf) as H.
    destruct (pipe_nbread_loop _ _ _). apply H.
  - unfold mo_pipe_nbwrite. destruct (_ || _); [exact Hwf|].
    rewrite (pipe_nbwrite_loop_pad (Z.to_nat len)).
    assert (Hl : (0 + Z.to_nat len <= length (data ++ replicate (Z.to_nat len) 0%Z))%nat)
      by (rewrite length_app, length_replicate; lia).
    pose proof (pipe_nbwrite_loop_spec cap (Z.to_nat len) p _ 0%nat Hwf Hl) as H.
    destruct (pipe_nbwrite_loop _ _ _). apply H.
  - apply mo_pipe_flush_wf, Hwf.
Qed.

Lemma pipe_run_wf cap ops : forall p, pipe_wf cap p -> pipe_wf cap (pipe_run p ops).
Proof.
  unfold pipe_run. induction ops as [|op ops IH]; intros p Hwf; cbn; [exact Hwf|].
  apply IH, pipe_apply_wf, Hwf.
Qed.

(** [pipe_wf] of a concrete pipe whose capacity is [2 ^ e]. *)
Ltac pipe_wf_concrete e :=
  split_and!;
  [split; cbn; try lia; exists e; split; [lia|reflexivity] | lia | reflexivity].

(** X1. In every state a created pipe reaches, the write index is the
    read index advanced by the byte count, modulo the capacity, and
    [mo_pipe_size] is the number of bytes waiting to be read. *)
Theorem pipe_tail_follows_head size p_found buf_found p ops :
  0 <= size < 2 ^ 16 ->
  mo_pipe_create size p_found buf_found = Some p ->
  let q := pipe_run p ops in
  pipe_tail q = (pipe_head q + pipe_used q) mod (pipe_mask q + 1) /\
  mo_pipe_size q = Z.of_nat (length (pipe_contents q)).
Proof.
  intros Hs Hc q.
  destruct (mo_pipe_create_wf size p_found buf_found p Hs Hc) as [Hwf _].
  pose proof (pipe_run_wf _ ops p Hwf) as Hq. fold q in Hq.
  destruct Hq as (Hinv & Hcap & Ht). split.
  - rewrite Ht. apply land_mask_mod.
    destruct Hinv as [Hc' Hpow _ _ _ _ _ _]. rewrite Hc'. exact Hpow.
  - unfold mo_pipe_size. symmetry. apply (pipe_contents_length _ _ Hinv).
Qed.

Lemma pipe_tail_follows_head_witness :
  let q := pipe_run (Pipe (replicate 4 0) 3 0 0 0)
                    [OpNbWrite 1 [7; 8; 9] 3; OpNbRead 1 2; OpNbWrite 1 [1; 2; 3] 3] in
  pipe_tail q = (pipe_head q + pipe_used q) mod (pipe_mask q + 1) /\
  mo_pipe_size q = Z.of_nat (length (pipe_contents q)).
Proof.
  apply (pipe_tail_follows_head 3 1 1); [lia|vm_compute; reflexivity].
Defined.

(** X2. A non-blocking write of [len] bytes into a pipe appends the
    first [k] of them behind the bytes already waiting and returns [k],
    where [k] is [len] or the free space, whichever is smaller. *)
Theorem mo_pipe_nbwrite_appends cap p src data len :
  pipe_wf cap p -> src <> NULL -> 0 < len ->
  (Z.to_nat len <= length data)%nat ->
  let k := Nat.min (Z.to_nat len) (Z.to_nat cap - length (pipe_contents p)) in
  let r := mo_pipe_nbwrite p src data len in
  r.1 = PipeCount (Z.of_nat k) /\
  pipe_contents r.2 = pipe_contents p ++ take k data /\
  pipe_wf cap r.2.
Proof.
  intros Hwf Hsrc Hlen Hdata k r. subst r. unfold mo_pipe_nbwrite.
  rewrite (proj2 (Z.eqb_neq src NULL) Hsrc), (proj2 (Z.eqb_neq len 0)) by lia.
  cbn [orb].
  pose proof (pipe_nbwrite_loop_spec cap (Z.to_nat len) p data 0%nat Hwf Hdata) as H.
  cbv zeta in H. fold k in H.
  destruct (pipe_nbwrite_loop _ _ _ _) as [i p']. cbn [fst snd] in *.
  destruct H as (-> & H2 & H3). auto.
Qed.

Lemma mo_pipe_nbwrite_appends_witness :
  let p := Pipe [0; 5; 6; 0] 3 1 3 2 in
  let r := mo_pipe_nbwrite p 1 [7; 8; 9] 3 in
  r.1 = PipeCount 2 /\
  pipe_contents r.2 = [5; 6] ++ [7; 8] /\
  pipe_wf 4 r.2.
Proof.
  apply (mo_pipe_nbwrite_appends 4 (Pipe [0; 5; 6; 0] 3 1 3 2) 1 [7; 8; 9] 3);
    [|discriminate|lia|vm_compute; lia].
  pipe_wf_concrete 2.
Defined.

(** X3. A non-blocking read of [len] bytes returns the [k] oldest bytes
    of the pipe in the order they were written and leaves the rest, where
    [k] is [len] or the byte count, whichever is smaller. *)
Theorem mo_pipe_nbread_takes cap p dst len :
  pipe_wf cap p -> dst <> NULL -> 0 < len ->
  let k := Nat.min (Z.to_nat len) (length (pipe_contents p)) in
  let r := mo_pipe_nbread p dst len in
  r.1.1 = PipeCount (Z.of_nat k) /\
  r.1.2 = take k (pipe_contents p) /\
  pipe_contents r.2 = drop k (pipe_contents p) /\
  pipe_wf cap r.2.
Proof.
  intros Hwf Hdst Hlen k r. subst r. unfold mo_pipe_nbread.
  rewrite (proj2 (Z.eqb_neq dst NULL) Hdst), (proj2 (Z.eqb_neq len 0)) by lia.
  cbn [orb].
  pose proof (pipe_nbread_loop_spec cap (Z.to_nat len) p [] Hwf) as H.
  cbv zeta in H. fold k in H.
  destruct (pipe_nbread_loop _ _ _) as [out p']. cbn [fst snd app] in *.
  destruct H as (-> & H2 & H3). split_and!; auto.
  rewrite length_take. f_equal. lia.
Qed.

Lemma mo_pipe_nbread_takes_witness :
  let p := Pipe [0; 5; 6; 0] 3 1 3 2 in
  let r := mo_pipe_nbread p 1 5 in
  r.1.1 = PipeCount 2 /\
  r.1.2 = [5; 6] /\
  pipe_contents r.2 = [] /\
  pipe_wf 4 r.2.
Proof.
  apply (mo_pipe_nbread_takes 4 (Pipe [0; 5; 6; 0] 3 1 3 2) 1 5);
    [|discriminate|lia].
  pipe_wf_concrete 2.
Defined.

(** X4. A blocking write of [len] bytes returns [len] with all of them
    appended when they fit in the free space; otherwise it fills the pipe
    with the first bytes and stays waiting for room after them. *)
Theorem mo_pipe_write_completes_or_waits cap p src data len :
  pipe_wf cap p -> src <> NULL -> 0 < len ->
  (Z.to_nat len <= length data)%nat ->
  let free := (Z.to_nat cap - length (pipe_contents p))%nat in
  let r := mo_pipe_write p src data len in
  r.1 = (if (Z.to_nat len <=? free)%nat then PipeCount len
         else PipeWaits (Z.of_nat free)) /\
  pipe_contents r.2
    = pipe_contents p ++ take (Nat.min (Z.to_nat len) free) data /\
  pipe_wf cap r.2.
Proof.
  intros Hwf Hsrc Hlen Hdata free r. subst r. unfold mo_pipe_write.
  rewrite (proj2 (Z.eqb_neq src NULL) Hsrc), (proj2 (Z.eqb_neq len 0)) by lia.
  cbn [orb].
  pose proof (pipe_write_loop_spec cap (Z.to_nat len) p data 0%nat Hwf Hdata) as H.
  cbv zeta in H. fold free in H. destruct H as (H1 & H2 & H3).
  rewrite H1, H2. split_and!; auto.
  cbn [Nat.add]. rewrite Z2Nat.id by lia. reflexivity.
Qed.

Lemma mo_pipe_write_completes_or_waits_witness :
  let p := Pipe [0; 5; 6; 0] 3 1 3 2 in
  let r := mo_pipe_write p 1 [7; 8; 9] 3 in
  r.1 = PipeWaits 2 /\
  pipe_contents r.2 = [5; 6] ++ [7; 8] /\
  pipe_wf 4 r.2.
Proof.
  apply (mo_pipe_write_completes_or_waits 4 (Pipe [0; 5; 6; 0] 3 1 3 2) 1
           [7; 8; 9] 3); [|discriminate|lia|vm_compute; lia].
  pipe_wf_concrete 2.
Defined.

(** X5. A blocking read of [len] bytes returns [len] with the oldest
    [len] bytes when the pipe holds that many; otherwise it takes every
    byte there is and stays waiting for more, the pipe empty. *)
Theorem mo_pipe_read_completes_or_waits cap p dst len :
  pipe_wf cap p -> dst <> NULL -> 0 < len ->
  let used := length (pipe_contents p) in
  let r := mo_pipe_read p dst len in
  r.1.1 = (if (Z.to_nat len <=? used)%nat then PipeCount len
           else PipeWaits (Z.of_nat used)) /\
  r.1.2 = take (Z.to_nat len) (pipe_contents p) /\
  pipe_contents r.2 = drop (Z.to_nat len) (pipe_contents p) /\
  pipe_wf cap r.2.
Proof.
  intros Hwf Hdst Hlen used r. subst r. unfold mo_pipe_read.
  rewrite (proj2 (Z.eqb_neq dst NULL) Hdst), (proj2 (Z.eqb_neq len 0)) by lia.
  cbn [orb].
  pose proof (pipe_read_loop_spec cap (Z.to_nat len) p [] Hwf) as H.
  cbv zeta in H. fold used in H. destruct H as (H0 & H1 & H2 & H3).
  rewrite H0, H1, H2. cbn [length Nat.add app].
  rewrite Z2Nat.id by lia. split_and!; auto.
  - destruct (Nat.min_spec (Z.to_nat len) used) as [[_ ->]|[Hle ->]];
      [reflexivity|].
    unfold used in *. rewrite !take_ge by lia. reflexivity.
  - destruct (Nat.min_spec (Z.to_nat len) used) as [[_ ->]|[Hle ->]];
      [reflexivity|].
    unfold used in *. rewrite !drop_ge by lia. reflexivity.
Qed.

Lemma mo_pipe_read_completes_or_waits_witness :
  let p := Pipe [0; 5; 6; 0] 3 1 3 2 in
  let r := mo_pipe_read p 1 3 in
  r.1.1 = PipeWaits 2 /\
  r.1.2 = [5; 6] /\
  pipe_contents r.2 = [] /\
  pipe_wf 4 r.2.
Proof.
  apply (mo_pipe_read_completes_or_waits 4 (Pipe [0; 5; 6; 0] 3 1 3 2) 1 3);
    [|discriminate|lia].
  pipe_wf_concrete 2.
Defined.

(** X6. First in, first out: bytes written to a pipe that has room for
    them come back unchanged, behind the bytes that were already waiting,
    and the pipe is empty after reading them all. *)
Theorem pipe_write_then_read cap p src dst data :
  pipe_wf cap p -> src <> NULL -> dst <> NULL -> data <> [] ->
  (length (pipe_contents p) + length data <= Z.to_nat cap)%nat ->
  let w := mo_pipe_write p src data (Z.of_nat (length data)) in
  let n := Z.of_nat (length (pipe_contents p) + length data) in
  let r := mo_pipe_read w.2 dst n in
  w.1 = PipeCount (Z.of_nat (length data)) /\
  r.1.1 = PipeCount n /\
  r.1.2 = pipe_contents p ++ data /\
  pipe_is_empty r.2 = true.
Proof.
  intros Hwf Hsrc Hdst Hdata Hfit w n r.
  assert (Hpos : (0 < length data)%nat) by (destruct data; [congruence|cbn; lia]).
  assert (Hw : w.1 = PipeCount (Z.of_nat (length data)) /\
               pipe_contents w.2 = pipe_contents p ++ data /\ pipe_wf cap w.2).
  { subst w. unfold mo_pipe_write.
    rewrite (proj2 (Z.eqb_neq src NULL) Hsrc), (proj2 (Z.eqb_neq _ 0)) by lia.
    cbn [orb]. rewrite Nat2Z.id.
    pose proof (pipe_write_loop_spec cap (length data) p data 0%nat Hwf
                  ltac:(lia)) as H.
    cbv zeta in H. destruct H as (H1 & H2 & H3).
    rewrite (proj2 (Nat.leb_le _ _)) in H1 by lia.
    rewrite Nat.min_l, drop_0, take_ge in H2 by lia. auto. }
  destruct Hw as (Hw1 & Hw2 & Hw3). split; [exact Hw1|].
  subst r. unfold mo_pipe_read.
  rewrite (proj2 (Z.eqb_neq dst NULL) Hdst), (proj2 (Z.eqb_neq n 0)) by lia.
  cbn [orb]. unfold n. rewrite Nat2Z.id.
  pose proof (pipe_read_loop_spec cap (length (pipe_contents p) + length data)
                w.2 [] Hw3) as H.
  cbv zeta in H. rewrite Hw2, length_app in H. destruct H as (H0 & H1 & H2 & H3).
  rewrite (proj2 (Nat.leb_le _ _)) in H0 by lia.
  rewrite Nat.min_id in H1, H2. rewrite take_ge in H1 by (rewrite length_app; lia).
  rewrite drop_ge in H2 by (rewrite length_app; lia).
  split_and!; [exact H0|exact H1|].
  pose proof (pipe_contents_length cap _ (proj1 H3)) as Hl. rewrite H2 in Hl.
  unfold pipe_is_empty. apply Z.eqb_eq. cbn in Hl. lia.
Qed.

Lemma pipe_write_then_read_witness :
  let p := Pipe [0; 5; 6; 0] 3 1 3 2 in
  let w := mo_pipe_write p 1 [7; 8] 2 in
  let r := mo_pipe_read w.2 1 4 in
  w.1 = PipeCount 2 /\
  r.1.1 = PipeCount 4 /\
  r.1.2 = [5; 6] ++ [7; 8] /\
  pipe_is_empty r.2 = true.
Proof.
  apply (pipe_write_then_read 4 (Pipe [0; 5; 6; 0] 3 1 3 2) 1 1 [7; 8]);
    [|discriminate|discriminate|discriminate|vm_compute; lia].
  pipe_wf_concrete 2.
Defined.

(** X7. [mo_pipe_flush] throws away everything waiting in the pipe and
    keeps its capacity: the size is 0, a read finds nothing, and a write
    has the whole capacity free. *)
Theorem mo_pipe_flush_discards cap p src dst data len :
  pipe_wf cap p -> src <> NULL -> dst <> NULL -> 0 < len ->
  (Z.to_nat len <= length data)%nat ->
  let q := mo_pipe_flush p in
  mo_pipe_size q = 0 /\
  mo_pipe_nbread q dst len = (PipeCount 0, [], q) /\
  (mo_pipe_nbwrite q src data len).1
    = PipeCount (Z.of_nat (Nat.min (Z.to_nat len) (Z.to_nat cap))) /\
  pipe_contents (mo_pipe_nbwrite q src data len).2
    = take (Nat.min (Z.to_nat len) (Z.to_nat cap)) data.
Proof.
  intros Hwf Hsrc Hdst Hlen Hdata q.
  destruct (mo_pipe_flush_wf cap p Hwf) as [Hq Hempty]. fold q in Hq, Hempty.
  split; [reflexivity|]. split.
  - unfold mo_pipe_nbread.
    rewrite (proj2 (Z.eqb_neq dst NULL) Hdst), (proj2 (Z.eqb_neq len 0)) by lia.
    cbn [orb]. destruct (Z.to_nat len); reflexivity.
  - unfold mo_pipe_nbwrite.
    rewrite (proj2 (Z.eqb_neq src NULL) Hsrc), (proj2 (Z.eqb_neq len 0)) by lia.
    cbn [orb].
    pose proof (pipe_nbwrite_loop_spec cap (Z.to_nat len) q data 0%nat Hq Hdata)
      as H.
    cbv zeta in H. rewrite Hempty in H. cbn [length app] in H.
    rewrite Nat.sub_0_r, drop_0 in H.
    destruct (pipe_nbwrite_loop _ _ _ _) as [i q']. cbn [fst snd] in *.
    destruct H as (-> & H2 & _). auto.
Qed.

Lemma mo_pipe_flush_discards_witness :
  let q := mo_pipe_flush (Pipe [0; 5; 6; 0] 3 1 3 2) in
  mo_pipe_size q = 0 /\
  mo_pipe_nbread q 1 5 = (PipeCount 0, [], q) /\
  (mo_pipe_nbwrite q 1 [1; 2; 3; 4; 5] 5).1 = PipeCount 4 /\
  pipe_contents (mo_pipe_nbwrite q 1 [1; 2; 3; 4; 5] 5).2 = [1; 2; 3; 4].
Proof.
  apply (mo_pipe_flush_discards 4 (Pipe [0; 5; 6; 0] 3 1 3 2) 1 1
           [1; 2; 3; 4; 5] 5); [|discriminate|discriminate|lia|vm_compute; lia].
  pipe_wf_concrete 2.
Defined.

(** ** The pipe invariant under interleaving *)















(** A blocking read that runs to its end without another task in
    between does what [pipe_read_loop] does, and leaves no gap. *)
Lemma pipe_schedule_read_alone n : forall p out w,
  (exists c, (pipe_read_loop n p out).1.1 = PipeCount c) ->
  pipe_schedule (PipeSched p 0 w) (read_alone n)
    = Some (PipeSched (pipe_read_loop n p out).2 0 w) /\
  gap_free (PipeSched p 0 w) (read_alone n) = true.
Proof.
  induction n as [|n IH]; intros p out w [c Hc]; [split; reflexivity|].
  cbn [pipe_read_loop] in *.
  cbn [read_alone pipe_schedule gap_free pipe_event_apply sched_pipe
       readers_cleared writers_cleared].
  destruct (pipe_is_empty p); [discriminate|].
  cbn [Nat.eqb andb]. destruct (pipe_get_byte p) as [b p'] eqn:Hg. cbn [snd].
  apply (IH p' (out ++ [b]) w). eauto.
Qed.




(** ** The scheduler, the tick and task management *)

Lemma set_prio_same t : set_prio t (prio t) = t.
Proof. destruct t; reflexivity. Qed.

Lemma set_prio_set_prio t a b : set_prio (set_prio t a) b = set_prio t b.
Proof. reflexivity. Qed.

Lemma u8_testbit_high x i : 8 <= i -> Z.testbit (u8 x) i = false.
Proof. intros Hi. unfold u8. apply Z.mod_pow2_bits_high. lia. Qed.

(** Writing a countdown into the low byte of a priority word keeps the
    base byte and stores the countdown. *)
Lemma prio_base_countdown p c :
  prio_base (u16 (Z.lor (Z.land p 0xFF00) (u8 c))) = prio_base p.
Proof.
  unfold prio_base, u16. apply Z.bits_inj'. intros i Hi.
  rewrite !Z.land_spec, !Z.shiftr_spec by lia.
  destruct (Z.ltb_spec i 8) as [Hlt|Hge].
  - rewrite Z.mod_pow2_bits_low by lia.
    rewrite Z.lor_spec, Z.land_spec, u8_testbit_high by lia.
    change 0xFF00 with (Z.shiftl (Z.ones 8) 8).
    rewrite Z.shiftl_spec by lia.
    replace (i + 8 - 8) with i by lia.
    rewrite Z.ones_spec_low by lia. rewrite andb_true_r, orb_false_r.
    reflexivity.
  - change 0xFF with (Z.ones 8). rewrite Z.ones_spec_high by lia.
    rewrite !andb_false_r. reflexivity.
Qed.

Lemma prio_counter_countdown p c :
  prio_counter (u16 (Z.lor (Z.land p 0xFF00) (u8 c))) = u8 c.
Proof.
  unfold prio_counter, u16. apply Z.bits_inj'. intros i Hi.
  rewrite Z.land_spec.
  destruct (Z.ltb_spec i 8) as [Hlt|Hge].
  - rewrite Z.mod_pow2_bits_low by lia.
    rewrite Z.lor_spec, Z.land_spec.
    change 0xFF00 with (Z.shiftl (Z.ones 8) 8).
    rewrite Z.shiftl_spec_low by lia.
    change 0xFF with (Z.ones 8). rewrite Z.ones_spec_low by lia.
    rewrite andb_false_r, andb_true_r. reflexivity.
  - change 0xFF with (Z.ones 8). rewrite Z.ones_spec_high by lia.
    rewrite u8_testbit_high by lia. rewrite andb_false_r. reflexivity.
Qed.

Lemma u8_idem x : u8 (u8 x) = u8 x.
Proof. unfold u8. apply Z.mod_mod. lia. Qed.

Lemma u8_prio_base p : u8 (prio_base p) = prio_base p.
Proof.
  unfold u8, prio_base. change 0xFF with (Z.ones 8).
  rewrite Z.land_ones by lia. apply Z.mod_mod. lia.
Qed.

Lemma u8_prio_counter p : u8 (prio_counter p) = prio_counter p.
Proof.
  unfold u8, prio_counter. change 0xFF with (Z.ones 8).
  rewrite Z.land_ones by lia. apply Z.mod_mod. lia.
Qed.

Lemma countdown_only_refl k : countdown_only k k.
Proof.
  split; [reflexivity|]. split; [reflexivity|]. intros q.
  destruct (tcbs k !! q) as [t|]; [|reflexivity].
  exists (prio t). rewrite set_prio_same. auto.
Qed.

Lemma countdown_only_trans k1 k2 k3 :
  countdown_only k1 k2 -> countdown_only k2 k3 -> countdown_only k1 k3.
Proof.
  intros (Ht1 & Hc1 & H1) (Ht2 & Hc2 & H2).
  split; [congruence|]. split; [congruence|]. intros q.
  specialize (H1 q). specialize (H2 q).
  destruct (tcbs k1 !! q) as [t|].
  - destruct H1 as (w1 & Hq1 & Hb1 & Hs1). rewrite Hq1 in H2.
    destruct H2 as (w2 & Hq2 & Hb2 & Hs2).
    exists w2. split; [rewrite Hq2; destruct t; reflexivity|].
    destruct t; cbn in *. split; [congruence|].
    intros Hn. rewrite Hs2 by exact Hn. apply Hs1, Hn.
  - rewrite H1 in H2. exact H2.
Qed.

Lemma selected_trans k1 k2 k3 n :
  countdown_only k1 k2 -> selected k2 k3 n -> selected k1 k3 n.
Proof.
  intros (Ht1 & Hc1 & H1) (l & q & t & w & Hl & Hn & Hq & Hs & Hr & Hq3 & Hw).
  specialize (H1 q). destruct (tcbs k1 !! q) as [t0|] eqn:Hq1; [|congruence].
  destruct H1 as (w1 & Hq2 & _). rewrite Hq in Hq2. inversion Hq2; subst t.
  exists l, q, t0, w. destruct t0; cbn in *.
  split_and!; auto; congruence.
Qed.

(** A store to a READY task that changes its countdown only. *)
Lemma countdown_only_store k q t w :
  tcbs k !! q = Some t ->
  prio_base w = prio_base (prio t) ->
  state t = TASK_READY -> rt_prio t = NULL ->
  countdown_only k (set_tcbs (fun h => <[q := set_prio t w]> h) k).
Proof.
  intros Hq Hb Hs Hr. split; [reflexivity|]. split; [reflexivity|].
  intros q'. kcb_simpl. destruct (decide (q' = q)) as [->|Hne].
  - rewrite Hq, lookup_insert_eq. exists w. split_and!; auto.
    intros [H|H]; congruence.
  - rewrite lookup_insert_ne by congruence.
    destruct (tcbs k !! q') as [t'|]; [|reflexivity].
    exists (prio t'). rewrite set_prio_same. auto.
Qed.

Lemma countdown_only_hint k h : countdown_only k (set_last_ready_hint h k).
Proof. unfold countdown_only. kcb_simpl. exact (countdown_only_refl k). Qed.

Lemma ready_hint_frame k r k' :
  ready_hint k = Ok (r, k') ->
  countdown_only k k' /\ forall n, r = Some n -> selected k k' n.
Proof.
  intros H. unfold ready_hint in H. monad_unfold.
  assert (Hnone : forall k0 : kcb_t,
             countdown_only k0 k0 /\ forall n, @None nat = Some n -> selected k0 k0 n).
  { intros k0. split; [apply countdown_only_refl|discriminate]. }
  destruct (last_ready_hint k) as [n|]; [|inversion H; subst; auto].
  destruct (tasks k) as [l|] eqn:Hl; [|discriminate].
  destruct (l !! n) as [q|] eqn:Hq; [|discriminate].
  destruct (q =? NULL); [inversion H; subst; auto|].
  destruct (tcbs k !! q) as [x|] eqn:Hx; [|discriminate].
  destruct (bool_decide (state x = TASK_READY)) eqn:Hr; cbn [andb] in H;
    [|inversion H; subst; auto].
  apply bool_decide_eq_true in Hr.
  destruct (Z.eqb_spec (rt_prio x) NULL) as [Hrt|]; [|inversion H; subst; auto].
  cbv zeta in H.
  destruct (_ =? 0) in H; inversion H; subst; auto. clear H.
  fold (prio_base (prio x)).
  split.
  - apply countdown_only_store; auto. apply prio_base_countdown.
  - intros i Hi. inversion Hi; subst i.
    eexists l, q, x, _. kcb_simpl. rewrite lookup_insert_eq.
    split_and!; eauto.
    rewrite prio_counter_countdown, prio_base_countdown, u8_prio_base.
    reflexivity.
Qed.

Lemma ready_walk_frame n :
  forall node v k r k',
    ready_walk n node v k = Ok (r, k') ->
    countdown_only k k' /\ forall i, r.1 = Some i -> selected k k' i.
Proof.
  induction n as [|n IH]; intros node v k r k' H; cbn [ready_walk] in H.
  - monad_unfold. inversion H; subst.
    split; [apply countdown_only_refl|discriminate].
  - monad_unfold.
    assert (Hnone : forall k0 : kcb_t,
               countdown_only k0 k0 /\
               forall i, @None nat = Some i -> selected k0 k0 i).
    { intros k0. split; [apply countdown_only_refl|discriminate]. }
    destruct (list_cnext (tasks k) node) as [i|]; [|inversion H; subst; auto].
    destruct (tasks k) as [l|] eqn:Hl; [|discriminate].
    destruct (l !! i) as [q|] eqn:Hq; [|discriminate].
    destruct (q =? NULL); [inversion H; subst; auto|].
    destruct (tcbs k !! q) as [x|] eqn:Hx; [|discriminate].
    destruct (bool_decide (state x = TASK_READY)) eqn:Hr; cbn [negb orb] in H;
      [|apply IH in H; auto].
    apply bool_decide_eq_true in Hr.
    destruct (Z.eqb_spec (rt_prio x) NULL) as [Hrt|]; cbn [negb] in H;
      [|apply IH in H; auto].
    cbv zeta in H. fold (prio_counter (prio x)) in H.
    set (c := if u8 (prio_counter (prio x)) =? 0 then u8 (prio_counter (prio x))
              else u8 (u8 (prio_counter (prio x)) - 1)) in H.
    assert (Hc : c = u8 c).
    { subst c. destruct (u8 (prio_counter (prio x)) =? 0);
        rewrite u8_idem; reflexivity. }
    destruct (c =? 0) eqn:Hc0.
    + inversion H; subst r k'. clear H. cbn [fst]. kcb_simpl.
      rewrite set_prio_set_prio.
      set (w1 := u16 (Z.lor (Z.land (prio x) 65280) c)).
      fold (prio_base w1).
      assert (Hb1 : prio_base w1 = prio_base (prio x)).
      { unfold w1. rewrite Hc. apply prio_base_countdown. }
      split.
      * apply (countdown_only_trans _ (set_tcbs (fun h => <[q := set_prio x
                 (u16 (Z.lor (Z.land w1 65280) (u8 (prio_base w1))))]> h) k)).
        -- apply countdown_only_store; auto.
           rewrite prio_base_countdown. exact Hb1.
        -- apply countdown_only_hint.
      * intros j Hj. inversion Hj; subst j.
        eexists l, q, x, _. kcb_simpl. rewrite lookup_insert_eq.
        split_and!; eauto.
        rewrite prio_counter_countdown, prio_base_countdown, u8_prio_base.
        reflexivity.
    + apply IH in H. destruct H as [Hf Hs].
      assert (Hstep : countdown_only k
                (set_tcbs (fun h => <[q := set_prio x
                                      (u16 (Z.lor (Z.land (prio x) 65280) c))]> h) k)).
      { apply countdown_only_store; auto. rewrite Hc. apply prio_base_countdown. }
      split; [eapply countdown_only_trans; eauto|].
      intros j Hj. eapply selected_trans; eauto.
Qed.

Lemma find_next_ready_task_frame k r k' :
  find_next_ready_task k = Ok (r, k') ->
  countdown_only k k' /\ forall n, r = Some n -> selected k k' n.
Proof.
  intros H. unfold find_next_ready_task, find_next_ready_task_visits in H.
  apply bind_inv_ok in H as (r0 & k0 & H & Hr). inversion Hr; subst. clear Hr.
  apply bind_inv_ok in H as (cur & k1 & Hc & H).
  unfold gets in Hc. inversion Hc; subst. clear Hc.
  destruct (task_current k1); kcb_simpl;
    [|inversion H; subst; split; [apply countdown_only_refl|discriminate]].
  apply bind_inv_ok in H as (h & k2 & Hh & H).
  apply ready_hint_frame in Hh as (Hf2 & Hs2).
  destruct h; kcb_simpl; [inversion H; subst; auto|].
  apply bind_inv_ok in H as (r' & k3 & Hw & H).
  apply ready_walk_frame in Hw as (Hf3 & Hs3).
  destruct (r'.1) eqn:Hr1; kcb_simpl.
  - inversion H; subst. rewrite Hr1.
    split; [eapply countdown_only_trans; eauto|].
    intros i Hi. eapply selected_trans; eauto.
  - monad_unfold. inversion H; subst. rewrite Hr1.
    split; [|discriminate].
    eapply countdown_only_trans; [exact Hf2|].
    eapply countdown_only_trans; [exact Hf3|]. apply countdown_only_hint.
Qed.

(** A successful [schedule_next_task], step by step. *)
Lemma schedule_next_task_inv k tid k' :
  schedule_next_task k = Ok (tid, k') ->
  exists c p x n k2 l q t w,
    task_current k = Some c /\ node_data c k = Ok (p, k) /\ p <> NULL /\
    tcbs k !! p = Some x /\
    countdown_only (mark_current_ready k p x) k2 /\
    tasks k = Some l /\ l !! n = Some q /\
    tcbs (mark_current_ready k p x) !! q = Some t /\
    state t = TASK_READY /\ rt_prio t = NULL /\
    tcbs k2 !! q = Some (set_prio t w) /\
    prio_counter w = prio_base w /\ prio_base w = prio_base (prio t) /\
    tid = id t /\
    k' = set_tcbs (fun h => <[q := set_state (set_prio t w) TASK_RUNNING]> h)
           (set_task_current (Some n) k2).
Proof.
  intros H. unfold schedule_next_task in H.
  apply bind_inv_ok in H as (cur & k1 & Hc & H).
  unfold gets in Hc. inversion Hc; subst. clear Hc.
  destruct (task_current k1) as [c|] eqn:Hcur; kcb_simpl; [|discriminate].
  apply bind_inv_ok in H as (p & k2 & Hp & H).
  assert (k2 = k1) as ->.
  { unfold node_data in Hp. destruct (tasks k1) as [l|]; [|discriminate].
    destruct (l !! c); inversion Hp; auto. }
  destruct (Z.eqb_spec p NULL) as [|Hnz]; kcb_simpl; [discriminate|].
  apply bind_inv_ok in H as (x & k2 & Hx & H).
  unfold deref in Hx. destruct (tcbs k1 !! p) as [x'|] eqn:Hx'; [|discriminate].
  inversion Hx; subst. clear Hx.
  apply bind_inv_ok in H as ([] & k3 & Hm & H).
  assert (k3 = mark_current_ready k2 p x) as ->.
  { unfold mark_current_ready. destruct (bool_decide _);
      monad_unfold; inversion Hm; reflexivity. }
  apply bind_inv_ok in H as (nx & k4 & Hf & H).
  apply find_next_ready_task_frame in Hf as (Hfr & Hsel).
  destruct nx as [n|]; [|discriminate].
  destruct (Hsel n eq_refl) as (l & q & t & w & Hl & Hn & Hq & Hs & Hr & Hq4 & Hw).
  assert (Hl2 : tasks k2 = Some l).
  { unfold mark_current_ready in Hl. destruct (bool_decide _); exact Hl. }
  assert (Hbase : prio_base w = prio_base (prio t)).
  { destruct Hfr as (_ & _ & Hfr). specialize (Hfr q). rewrite Hq in Hfr.
    destruct Hfr as (w' & Hq4' & Hb & _). rewrite Hq4 in Hq4'.
    destruct t; cbn in *. inversion Hq4'; subst. exact Hb. }
  assert (Hfin : tid = id t /\
            k' = set_tcbs
                   (fun h => <[q := set_state (set_prio t w) TASK_RUNNING]> h)
                   (set_task_current (Some n) k4)).
  { destruct Hfr as (Ht4 & _).
    monad_unfold. kcb_simpl. rewrite Ht4, Hl in H. kcb_simpl.
    rewrite Hn in H. kcb_simpl. rewrite Hq4 in H. kcb_simpl.
    inversion H; subst. auto. }
  destruct Hfin as [-> ->].
  exists c, p, x, n, k4, l, q, t, w. split_and!; auto.
Qed.

Lemma current_task_ptr_ok k c l q :
  task_current k = Some c -> tasks k = Some l -> l !! c = Some q ->
  current_task_ptr k = Ok (q, k).
Proof.
  intros Hc Hl Hq. unfold current_task_ptr. monad_unfold.
  rewrite Hc, Hl, Hq. reflexivity.
Qed.

Lemma node_data_inv n k p k' :
  node_data n k = Ok (p, k') ->
  k' = k /\ exists l, tasks k = Some l /\ l !! n = Some p.
Proof.
  unfold node_data. destruct (tasks k) as [l|]; [|discriminate].
  destruct (l !! n) eqn:Hn; [|discriminate].
  intros H. inversion H; subst. eauto.
Qed.

(** X8. The scheduler only ever selects a task of the list that is
    READY (or is the running task it has just made READY) and has no
    real-time priority; it makes that task RUNNING and current, returns
    its id, and reloads its countdown from the base byte of its priority,
    which stays as it was. *)
Theorem schedule_next_task_picks_ready k tid k' :
  schedule_next_task k = Ok (tid, k') ->
  exists n l q t w,
    tasks k = Some l /\ l !! n = Some q /\ tcbs k !! q = Some t /\
    (state t = TASK_READY \/
     (state t = TASK_RUNNING /\ current_task_ptr k = Ok (q, k))) /\
    rt_prio t = NULL /\ id t = tid /\
    tasks k' = Some l /\ task_current k' = Some n /\
    tcbs k' !! q = Some (set_state (set_prio t w) TASK_RUNNING) /\
    prio_counter w = prio_base w /\ prio_base w = prio_base (prio t).
Proof.
  intros H. apply schedule_next_task_inv in H
    as (c & p & x & n & k2 & l & q & t & w & Hc & Hp & Hnz & Hx & Hfr & Hl & Hn
        & Hq & Hs & Hr & Hq2 & Hw & Hb & -> & ->).
  destruct Hfr as (Ht2 & Hc2 & _).
  assert (Ht1 : tasks (mark_current_ready k p x) = tasks k)
    by (unfold mark_current_ready; destruct (bool_decide _); reflexivity).
  apply node_data_inv in Hp as (_ & l' & Hl' & Hcp).
  rewrite Hl in Hl'. inversion Hl'; subst l'.
  unfold mark_current_ready in Hq.
  destruct (bool_decide (state x = TASK_RUNNING)) eqn:Hrun.
  - apply bool_decide_eq_true in Hrun. kcb_simpl.
    destruct (decide (q = p)) as [->|Hne].
    + rewrite lookup_insert_eq in Hq. inversion Hq; subst t.
      exists n, l, p, x, w. kcb_simpl. rewrite lookup_insert_eq.
      split_and!; auto; try congruence.
      right. split; [exact Hrun|]. eapply current_task_ptr_ok; eauto.
    + rewrite lookup_insert_ne in Hq by congruence.
      exists n, l, q, t, w. kcb_simpl. rewrite lookup_insert_eq.
      split_and!; auto; congruence.
  - exists n, l, q, t, w. kcb_simpl. rewrite lookup_insert_eq.
    split_and!; auto; congruence.
Qed.

(** X9. If only the current task is RUNNING before
    [schedule_next_task], then afterwards exactly one task is RUNNING: the
    new current task, whose id the function returns. *)
Theorem schedule_next_task_one_running k tid k' :
  only_current_runs k ->
  schedule_next_task k = Ok (tid, k') ->
  only_current_runs k' /\
  exists q t, current_task_ptr k' = Ok (q, k') /\ tcbs k' !! q = Some t /\
              state t = TASK_RUNNING /\ id t = tid.
Proof.
  intros Hone H. apply schedule_next_task_inv in H
    as (c & p & x & n & k2 & l & q & t & w & Hc & Hp & Hnz & Hx & Hfr & Hl & Hn
        & Hq & Hs & Hr & Hq2 & Hw & Hb & -> & ->).
  assert (Ht1 : tasks (mark_current_ready k p x) = tasks k)
    by (unfold mark_current_ready; destruct (bool_decide _); reflexivity).
  assert (Hcur : current_task_ptr k = Ok (p, k)).
  { apply node_data_inv in Hp as (_ & l' & Hl' & Hcp).
    exact (current_task_ptr_ok k c l' p Hc Hl' Hcp). }
  assert (Hnorun : forall q' t', tcbs (mark_current_ready k p x) !! q' = Some t' ->
                                 state t' <> TASK_RUNNING).
  { intros q' t' Hq' Hrun. unfold mark_current_ready in Hq'.
    destruct (bool_decide (state x = TASK_RUNNING)) eqn:Hbx; kcb_simpl.
    - destruct (decide (q' = p)) as [->|Hne].
      + rewrite lookup_insert_eq in Hq'. inversion Hq'; subst t'. discriminate.
      + rewrite lookup_insert_ne in Hq' by congruence.
        pose proof (Hone q' t' Hq' Hrun) as Hq''. congruence.
    - apply bool_decide_eq_false in Hbx.
      pose proof (Hone q' t' Hq' Hrun) as Hq''.
      assert (q' = p) by congruence. subst q'. congruence. }
  destruct Hfr as (Ht2 & Hc2 & Hfr).
  assert (Hcur' : forall m,
            current_task_ptr
              (set_tcbs m (set_task_current (Some n) k2)) =
            Ok (q, set_tcbs m (set_task_current (Some n) k2))).
  { intros m. eapply current_task_ptr_ok; kcb_simpl; eauto. congruence. }
  split.
  - intros q' t' Hq' Hrun. kcb_simpl.
    destruct (decide (q' = q)) as [->|Hne]; [apply Hcur'|].
    rewrite lookup_insert_ne in Hq' by congruence.
    specialize (Hfr q').
    destruct (tcbs (mark_current_ready k p x) !! q') as [t0|] eqn:Hq0;
      [|congruence].
    destruct Hfr as (w' & Hq2' & _). rewrite Hq' in Hq2'.
    inversion Hq2'; subst t'. destruct t0; cbn in *.
    exfalso. eapply Hnorun; [exact Hq0|exact Hrun].
  - eexists q, _. split; [apply Hcur'|]. kcb_simpl.
    rewrite lookup_insert_eq. split_and!; reflexivity.
Qed.

(** X10. [schedule_next_task] leaves every task that is BLOCKED,
    SUSPENDED or STOPPED exactly as it was, and changes no task's fields
    other than the state and the countdown byte of the priority word. *)
Theorem schedule_next_task_frame k tid k' :
  schedule_next_task k = Ok (tid, k') ->
  tasks k' = tasks k /\
  forall q t, tcbs k !! q = Some t ->
    exists w s, tcbs k' !! q = Some (set_state (set_prio t w) s) /\
                prio_base w = prio_base (prio t) /\
                (state t <> TASK_READY -> state t <> TASK_RUNNING ->
                 tcbs k' !! q = Some t).
Proof.
  intros H. apply schedule_next_task_inv in H
    as (c & p & x & n & k2 & l & q & t & w & Hc & Hp & Hnz & Hx & Hfr & Hl & Hn
        & Hq & Hs & Hr & Hq2 & Hw & Hb & -> & ->).
  assert (Ht1 : tasks (mark_current_ready k p x) = tasks k)
    by (unfold mark_current_ready; destruct (bool_decide _); reflexivity).
  destruct Hfr as (Ht2 & Hc2 & Hfr). kcb_simpl.
  split; [congruence|]. intros q' t' Hq'.
  (* the task at q' after the first step *)
  assert (H1 : exists s1, tcbs (mark_current_ready k p x) !! q'
                          = Some (set_state t' s1) /\
                          (state t' <> TASK_RUNNING -> s1 = state t') /\
                          (s1 = state t' \/ s1 = TASK_READY)).
  { unfold mark_current_ready.
    destruct (bool_decide (state x = TASK_RUNNING)) eqn:Hbx; kcb_simpl.
    - apply bool_decide_eq_true in Hbx.
      destruct (decide (q' = p)) as [->|Hne].
      + rewrite lookup_insert_eq. rewrite Hx in Hq'. inversion Hq'; subst t'.
        exists TASK_READY. split_and!; auto. congruence.
      + rewrite lookup_insert_ne by congruence. exists (state t').
        destruct t'; cbn; auto.
    - exists (state t'). destruct t'; cbn; auto. }
  destruct H1 as (s1 & Hq1 & Hs1 & Hs1').
  specialize (Hfr q'). rewrite Hq1 in Hfr.
  destruct Hfr as (w2 & Hq2' & Hb2 & Hsame).
  destruct (decide (q' = q)) as [->|Hne].
  - rewrite lookup_insert_eq. rewrite Hq1 in Hq. inversion Hq; subst t.
    exists w, TASK_RUNNING. destruct t'; cbn in *. split_and!; auto.
    intros Hnr Hnrun. exfalso. apply Hnr. rewrite <- (Hs1 Hnrun). exact Hs.
  - rewrite lookup_insert_ne by congruence. rewrite Hq2'.
    exists w2, s1. destruct t'; cbn in *. split_and!; auto.
    intros Hnr Hnrun. rewrite Hs1 by exact Hnrun.
    rewrite Hsame; [reflexivity|]. left. rewrite Hs1 by exact Hnrun. exact Hnr.
Qed.

Lemma set_tcbs_id k m : m = tcbs k -> set_tcbs (fun _ => m) k = k.
Proof. intros ->. destruct k; reflexivity. Qed.

Lemma delay_update_inv node data k r k' :
  delay_update node data k = Ok (r, k') ->
  r = None /\
  ((data = NULL /\ k' = k) \/
   (data <> NULL /\ exists t, tcbs k !! data = Some t /\
      k' = set_tcbs (fun _ => <[data := age t]> (tcbs k)) k)).
Proof.
  intros H. unfold delay_update in H.
  destruct (Z.eqb_spec data NULL) as [->|Hnz]; monad_unfold;
    [inversion H; subst; auto|].
  destruct (tcbs k !! data) as [x|] eqn:Hx; [|discriminate].
  destruct (bool_decide (state x = TASK_BLOCKED) && (0 <? delay x)) eqn:Hcond.
  - inversion H; subst. split; [reflexivity|]. right.
    split; [exact Hnz|]. exists x. split; [reflexivity|].
    unfold age. rewrite Hcond. reflexivity.
  - inversion H; subst. split; [reflexivity|]. right.
    split; [exact Hnz|]. exists x. split; [reflexivity|].
    unfold age. rewrite Hcond. symmetry. apply set_tcbs_id, insert_id, Hx.
Qed.

(** One pass of [list_foreach] with [delay_update] over the nodes [l]. *)
Lemma foreach_delay_update_inv l :
  forall i k r k',
    list_foreach_from i l delay_update k = Ok (r, k') ->
    r = None /\ (exists m, k' = set_tcbs (fun _ => m) k) /\
    (forall q t, tcbs k !! q = Some t -> age t = t -> tcbs k' !! q = Some t) /\
    (forall q, q ∉ l -> tcbs k' !! q = tcbs k !! q) /\
    (NoDup l -> forall q, q ∈ l -> q <> NULL ->
                          tcbs k' !! q = age <$> tcbs k !! q).
Proof.
  induction l as [|p l IH]; intros i k r k' H; cbn [list_foreach_from] in H.
  - unfold ret in H. inversion H; subst r k'. split_and!; auto.
    + exists (tcbs k). symmetry. apply set_tcbs_id. reflexivity.
    + intros _ q Hq. apply elem_of_nil in Hq. contradiction.
  - apply bind_inv_ok in H as (r1 & k1 & Hd & H).
    apply delay_update_inv in Hd as (-> & Hd).
    apply IH in H as (-> & (m & ->) & Hkeep & Hout & Hin).
    split; [reflexivity|].
    assert (Hk1 : exists m1, k1 = set_tcbs (fun _ => m1) k /\
              (p = NULL /\ m1 = tcbs k \/
               p <> NULL /\ exists t, tcbs k !! p = Some t /\
                                      m1 = <[p := age t]> (tcbs k))).
    { destruct Hd as [[-> ->]|(Hnz & t & Ht & ->)].
      - exists (tcbs k). split; [symmetry; apply set_tcbs_id; reflexivity|auto].
      - eexists. split; [reflexivity|]. right. eauto. }
    destruct Hk1 as (m1 & -> & Hm1). kcb_simpl.
    split; [exists m; reflexivity|].
    split_and!.
    + intros q t Hq Ha. apply Hkeep; [|exact Ha].
      destruct Hm1 as [[_ ->]|(Hnz & t0 & Ht0 & ->)]; [exact Hq|].
      destruct (decide (q = p)) as [->|Hne].
      * rewrite lookup_insert_eq. rewrite Ht0 in Hq. inversion Hq; subst.
        rewrite Ha. reflexivity.
      * rewrite lookup_insert_ne by congruence. exact Hq.
    + intros q Hq. apply not_elem_of_cons in Hq as [Hne Hq].
      rewrite (Hout q Hq).
      destruct Hm1 as [[_ ->]|(Hnz & t0 & Ht0 & ->)]; [reflexivity|].
      rewrite lookup_insert_ne by congruence. reflexivity.
    + intros Hnd q Hq Hqnz. apply NoDup_cons in Hnd as [Hp Hnd].
      apply elem_of_cons in Hq as [->|Hq].
      * rewrite (Hout p Hp).
        destruct Hm1 as [[-> _]|(Hnz & t0 & Ht0 & ->)]; [contradiction|].
        rewrite lookup_insert_eq, Ht0. reflexivity.
      * rewrite (Hin Hnd q Hq Hqnz).
        destruct Hm1 as [[_ ->]|(Hnz & t0 & Ht0 & ->)]; [reflexivity|].
        rewrite lookup_insert_ne; [reflexivity|]. intros ->. contradiction.
Qed.

Lemma list_foreach_delay_update_inv k r k' :
  list_foreach delay_update k = Ok (r, k') ->
  (exists m, k' = set_tcbs (fun _ => m) k) /\
  (forall q t, tcbs k !! q = Some t -> age t = t -> tcbs k' !! q = Some t) /\
  (forall l, tasks k = Some l -> NoDup l ->
     forall q, q ∈ l -> q <> NULL -> tcbs k' !! q = age <$> tcbs k !! q).
Proof.
  intros H. unfold list_foreach in H.
  apply bind_inv_ok in H as (l & k1 & Hg & H).
  unfold gets in Hg. inversion Hg; subst. clear Hg.
  destruct (tasks k1) as [l|] eqn:Hl.
  - apply foreach_delay_update_inv in H as (_ & Hm & Hkeep & _ & Hin).
    split_and!; auto. intros l' Hl'. inversion Hl'; subst. exact Hin.
  - inversion H; subst. split_and!; auto; [|discriminate].
    exists (tcbs k'). symmetry. apply set_tcbs_id. reflexivity.
Qed.

(** [task_stack_check] changes nothing but its counter. *)
Lemma task_stack_check_inv k k' :
  task_stack_check k = Ok (tt, k') ->
  exists c, k' = set_stack_check_counter c k.
Proof.
  intros H. unfold task_stack_check in H.
  monad_unfold. kcb_simpl.
  destruct (negb _); kcb_simpl; [inversion H; subst; eauto|].
  destruct (task_current k); kcb_simpl; [|discriminate].
  destruct (tasks k) as [l|] eqn:Hl; kcb_simpl; [|discriminate].
  destruct (l !! n) as [q|]; kcb_simpl; [|discriminate].
  destruct (q =? NULL); kcb_simpl; [discriminate|].
  match type of H with context [is_valid_task q ?k0] =>
    destruct (is_valid_task q k0) as [[v k1]| |] eqn:Hv; kcb_simpl;
    try discriminate;
    apply is_valid_task_state in Hv; subst k1 end.
  destruct v; kcb_simpl; [|discriminate].
  destruct (tcbs k !! q); kcb_simpl; [|discriminate].
  destruct (negb _ || negb _); kcb_simpl; [discriminate|].
  inversion H; subst; eauto.
Qed.

(** A successful [dispatch], step by step: the stack check, the aging
    pass, and the scheduler unless the real-time hook took over. *)
Lemma dispatch_inv k k' :
  dispatch k = Ok (tt, k') ->
  exists c k2,
    list_foreach delay_update (set_stack_check_counter c k) = Ok (None, k2) /\
    ((exists tid, schedule_next_task k2 = Ok (tid, k')) \/ k' = k2).
Proof.
  intros H. unfold dispatch in H.
  apply bind_inv_ok in H as (q & k1 & Hq & H).
  apply current_task_ptr_state in Hq as ->.
  destruct (q =? NULL); [discriminate|].
  apply bind_inv_ok in H as ([] & k2 & Hs & H).
  apply task_stack_check_inv in Hs as (c & ->).
  apply bind_inv_ok in H as (r & k3 & Hd & H).
  assert (r = None) as ->.
  { unfold list_foreach in Hd. apply bind_inv_ok in Hd as (l & k4 & Hg & Hd).
    unfold gets in Hg. inversion Hg; subst. clear Hg.
    destruct (tasks _); [|inversion Hd; reflexivity].
    apply foreach_delay_update_inv in Hd. apply Hd. }
  exists c, k3. split; [exact Hd|].
  apply bind_inv_ok in H as (rt & k4 & Hg & H).
  unfold gets in Hg. inversion Hg; subst. clear Hg.
  apply bind_inv_ok in H as ([] & k5 & Hn & H).
  apply bind_inv_ok in H as (q' & k6 & Hq' & H).
  apply current_task_ptr_state in Hq' as ->.
  assert (k' = k5) as ->.
  { monad_unfold. destruct (tcbs k5 !! q'); inversion H; subst. reflexivity. }
  destruct (rt_sched k4 <? 0).
  - apply bind_inv_ok in Hn as (tid & k6 & Hn & Hr). inversion Hr; subst.
    left. eauto.
  - inversion Hn; subst. auto.
Qed.

Lemma yield_inv k k' :
  yield k = Ok (tt, k') ->
  k' = k \/
  exists c k2 tid,
    (list_foreach delay_update (set_stack_check_counter c k) = Ok (None, k2) \/
     k2 = set_stack_check_counter c k) /\
    schedule_next_task k2 = Ok (tid, k').
Proof.
  intros H. unfold yield in H.
  apply bind_inv_ok in H as (q & k1 & Hq & H).
  apply current_task_ptr_state in Hq as ->.
  destruct (q =? NULL); [inversion H; subst; auto|].
  apply bind_inv_ok in H as ([] & k2 & Hs & H).
  apply task_stack_check_inv in Hs as (c & ->).
  apply bind_inv_ok in H as (pre & k3 & Hg & H).
  unfold gets in Hg. inversion Hg; subst. clear Hg.
  apply bind_inv_ok in H as ([] & k4 & Hd & H).
  apply bind_inv_ok in H as (tid & k5 & Hn & H). inversion H; subst.
  right. exists c, k4, tid. split; [|exact Hn].
  destruct (negb (preemptive _)).
  - apply bind_inv_ok in Hd as (r & k6 & Hd & Hr). inversion Hr; subst.
    left. assert (r = None) as ->; [|exact Hd].
    unfold list_foreach in Hd. apply bind_inv_ok in Hd as (l & k7 & Hg & Hd).
    unfold gets in Hg. inversion Hg; subst. clear Hg.
    destruct (tasks _); [|inversion Hd; reflexivity].
    apply foreach_delay_update_inv in Hd. apply Hd.
  - inversion Hd; subst. auto.
Qed.

(** What [schedule_next_task] does to one task. *)
Lemma schedule_next_task_task k tid k' q t :
  schedule_next_task k = Ok (tid, k') ->
  tcbs k !! q = Some t ->
  exists w s, tcbs k' !! q = Some (set_state (set_prio t w) s) /\
              (state t <> TASK_READY -> state t <> TASK_RUNNING ->
               w = prio t /\ s = state t) /\
              (state t = TASK_READY -> s = TASK_READY \/ s = TASK_RUNNING).
Proof.
  intros H Hq'. apply schedule_next_task_inv in H
    as (c & p & x & n & k2 & l & q0 & t0 & w & Hc & Hp & Hnz & Hx & Hfr & Hl & Hn
        & Hq & Hs & Hr & Hq2 & Hw & Hb & -> & ->).
  destruct Hfr as (_ & _ & Hfr). kcb_simpl.
  assert (H1 : exists s1, tcbs (mark_current_ready k p x) !! q
                          = Some (set_state t s1) /\
                          (state t <> TASK_RUNNING -> s1 = state t)).
  { unfold mark_current_ready.
    destruct (bool_decide (state x = TASK_RUNNING)) eqn:Hbx; kcb_simpl.
    - apply bool_decide_eq_true in Hbx.
      destruct (decide (q = p)) as [->|Hne].
      + rewrite lookup_insert_eq. rewrite Hx in Hq'. inversion Hq'; subst t.
        exists TASK_READY. split; [reflexivity|]. congruence.
      + rewrite lookup_insert_ne by congruence. exists (state t).
        destruct t; cbn; auto.
    - exists (state t). destruct t; cbn; auto. }
  destruct H1 as (s1 & Hq1 & Hs1).
  specialize (Hfr q). rewrite Hq1 in Hfr.
  destruct Hfr as (w2 & Hq2' & Hb2 & Hsame).
  destruct (decide (q = q0)) as [->|Hne].
  - rewrite lookup_insert_eq. rewrite Hq1 in Hq. inversion Hq; subst t0.
    exists w, TASK_RUNNING. destruct t; cbn in *. split_and!; auto.
    intros Hnr Hnrun. exfalso. apply Hnr. rewrite <- (Hs1 Hnrun). exact Hs.
  - rewrite lookup_insert_ne by congruence. rewrite Hq2'.
    exists w2, s1. destruct t; cbn in *. split_and!; auto.
    + intros Hnr Hnrun. rewrite (Hs1 Hnrun) in *. split; [|reflexivity].
      apply Hsame. left. exact Hnr.
    + intros Hst. left. rewrite Hs1; congruence.
Qed.

Lemma age_sleeping t :
  state t = TASK_BLOCKED -> 0 < delay t < 2 ^ 16 ->
  age t = if delay t =? 1 then set_state (set_delay t 0) TASK_READY
          else set_delay t (delay t - 1).
Proof.
  intros Hs Hd. unfold age.
  rewrite (bool_decide_eq_true_2 _ Hs), (proj2 (Z.ltb_lt 0 (delay t))) by lia.
  cbn [andb]. cbv zeta. rewrite u16_small by lia.
  destruct (Z.eqb_spec (delay t) 1) as [->|Hne]; [reflexivity|].
  rewrite (proj2 (Z.eqb_neq _ 0)) by lia. reflexivity.
Qed.

Lemma age_waiting t :
  state t <> TASK_READY -> state t <> TASK_RUNNING ->
  (state t = TASK_BLOCKED -> delay t = 0) -> age t = t.
Proof.
  intros _ _ Hd. unfold age.
  destruct (bool_decide (state t = TASK_BLOCKED)) eqn:Hb; [|reflexivity].
  apply bool_decide_eq_true in Hb. rewrite (Hd Hb). reflexivity.
Qed.

(** X11. One pass of [dispatch] takes one tick off the delay of a
    sleeping task of the list: the task stays BLOCKED while ticks remain,
    and when the last tick goes it is READY, or already RUNNING if the
    scheduler chose it in the same pass. *)
Theorem dispatch_ages_sleeper k k' l q t :
  dispatch k = Ok (tt, k') ->
  tasks k = Some l -> NoDup l -> q ∈ l -> q <> NULL ->
  tcbs k !! q = Some t -> state t = TASK_BLOCKED -> 0 < delay t < 2 ^ 16 ->
  (1 < delay t -> tcbs k' !! q = Some (set_delay t (delay t - 1))) /\
  (delay t = 1 ->
   exists w s, tcbs k' !! q = Some (set_state (set_prio (set_delay t 0) w) s) /\
               (s = TASK_READY \/ s = TASK_RUNNING)).
Proof.
  intros H Hl Hnd Hq Hnz Ht Hs Hd.
  apply dispatch_inv in H as (c & k2 & Hf & Hsched).
  apply list_foreach_delay_update_inv in Hf as (_ & _ & Hin).
  specialize (Hin l Hl Hnd q Hq Hnz). kcb_simpl. rewrite Ht in Hin.
  cbn [fmap option_fmap option_map] in Hin. rewrite (age_sleeping t Hs Hd) in Hin.
  split.
  - intros H1. rewrite (proj2 (Z.eqb_neq _ 1)) in Hin by lia.
    destruct Hsched as [[tid Hsched]| ->]; [|exact Hin].
    destruct (schedule_next_task_task _ _ _ _ _ Hsched Hin)
      as (w & s & Hq' & Hsame & _).
    destruct Hsame as [-> ->]; [cbn; congruence..|].
    rewrite Hq'. destruct t; reflexivity.
  - intros H1. rewrite H1 in Hin. cbn [Z.eqb Pos.eqb] in Hin.
    destruct Hsched as [[tid Hsched]| ->].
    + destruct (schedule_next_task_task _ _ _ _ _ Hsched Hin)
        as (w & s & Hq' & _ & Hready).
      exists w, s. split; [rewrite Hq'; destruct t; reflexivity|].
      apply Hready. reflexivity.
    + exists (prio t), TASK_READY. split; [|auto].
      rewrite Hin. destruct t; reflexivity.
Qed.

Lemma dispatch_ages_sleeper_witness :
  exists k', dispatch (blocked_pair 5) = Ok (tt, k') /\
             tcbs k' !! 0x2000
               = Some (set_delay (sample_tcb 2 TASK_BLOCKED 0x1F00 5) (5 - 1)).
Proof.
  eexists. split; [vm_compute; reflexivity|].
  refine (proj1 (dispatch_ages_sleeper (blocked_pair 5) _ [0x1000; 0x2000]
                   0x2000 (sample_tcb 2 TASK_BLOCKED 0x1F00 5)
                   _ _ _ _ _ _ _ _) _).
  - vm_compute. reflexivity.
  - reflexivity.
  - apply (bool_decide_unpack _). vm_compute. exact I.
  - apply (bool_decide_unpack _). vm_compute. exact I.
  - discriminate.
  - reflexivity.
  - reflexivity.
  - cbn. lia.
  - cbn. lia.
Defined.

(** X12. Neither [dispatch] nor [yield] touches a task that is STOPPED
    or SUSPENDED, or BLOCKED with no delay pending (a task waiting on a
    semaphore, mutex or condition variable): only the primitive it waits
    on can make it READY. *)
Theorem waiting_task_untouched k k' q t :
  tcbs k !! q = Some t ->
  state t <> TASK_READY -> state t <> TASK_RUNNING ->
  (state t = TASK_BLOCKED -> delay t = 0) ->
  dispatch k = Ok (tt, k') \/ yield k = Ok (tt, k') ->
  tcbs k' !! q = Some t.
Proof.
  intros Ht Hnr Hnrun Hd H.
  pose proof (age_waiting t Hnr Hnrun Hd) as Hage.
  assert (Hsched : forall k2 tid, tcbs k2 !! q = Some t ->
            schedule_next_task k2 = Ok (tid, k') -> tcbs k' !! q = Some t).
  { intros k2 tid Hq2 Hs.
    destruct (schedule_next_task_task _ _ _ _ _ Hs Hq2)
      as (w & s & Hq' & Hsame & _).
    destruct (Hsame Hnr Hnrun) as [-> ->]. rewrite Hq'.
    destruct t; reflexivity. }
  destruct H as [H|H].
  - apply dispatch_inv in H as (c & k2 & Hf & Hs).
    apply list_foreach_delay_update_inv in Hf as (_ & Hkeep & _).
    specialize (Hkeep q t Ht Hage).
    destruct Hs as [[tid Hs]| ->]; [|exact Hkeep]. eapply Hsched; eauto.
  - apply yield_inv in H as [->|(c & k2 & tid & Hf & Hs)]; [exact Ht|].
    eapply Hsched; [|exact Hs].
    destruct Hf as [Hf| ->]; [|exact Ht].
    apply list_foreach_delay_update_inv in Hf as (_ & Hkeep & _).
    exact (Hkeep q t Ht Hage).
Qed.

Lemma waiting_task_untouched_witness :
  exists k', dispatch (blocked_pair 0) = Ok (tt, k') /\
             tcbs k' !! 0x2000 = Some (sample_tcb 2 TASK_BLOCKED 0x1F00 0).
Proof.
  eexists. split; [vm_compute; reflexivity|].
  apply (waiting_task_untouched (blocked_pair 0) _ 0x2000
           (sample_tcb 2 TASK_BLOCKED 0x1F00 0));
    [reflexivity|discriminate|discriminate|reflexivity|].
  left. vm_compute. reflexivity.
Defined.

Lemma schedule_next_task_picks_ready_witness :
  exists n l q t w,
    tasks ready_pair = Some l /\ l !! n = Some q /\
    tcbs ready_pair !! q = Some t /\
    (state t = TASK_READY \/
     (state t = TASK_RUNNING /\
      current_task_ptr ready_pair = Ok (q, ready_pair))) /\
    rt_prio t = NULL /\ id t = 2 /\
    tasks ready_pair_switched = Some l /\
    task_current ready_pair_switched = Some n /\
    tcbs ready_pair_switched !! q
      = Some (set_state (set_prio t w) TASK_RUNNING) /\
    prio_counter w = prio_base w /\ prio_base w = prio_base (prio t).
Proof.
  apply (schedule_next_task_picks_ready ready_pair 2 ready_pair_switched).
  vm_compute. reflexivity.
Defined.

Lemma schedule_next_task_one_running_witness :
  only_current_runs ready_pair_switched /\
  exists q t, current_task_ptr ready_pair_switched = Ok (q, ready_pair_switched)
              /\ tcbs ready_pair_switched !! q = Some t /\
              state t = TASK_RUNNING /\ id t = 2.
Proof.
  apply (schedule_next_task_one_running ready_pair 2 ready_pair_switched).
  - intros q t Hq Hrun. unfold ready_pair in Hq. cbn [tcbs] in Hq.
    apply lookup_insert_Some in Hq as [[<- <-]|[_ Hq]]; [reflexivity|].
    apply lookup_insert_Some in Hq as [[<- <-]|[_ Hq]]; [discriminate|].
    rewrite lookup_empty in Hq. discriminate.
  - vm_compute. reflexivity.
Defined.

Lemma schedule_next_task_frame_witness :
  let k' := set_last_ready_hint (Some 0%nat) two_tasks in
  tasks k' = tasks two_tasks /\
  forall q t, tcbs two_tasks !! q = Some t ->
    exists w s, tcbs k' !! q = Some (set_state (set_prio t w) s) /\
                prio_base w = prio_base (prio t) /\
                (state t <> TASK_READY -> state t <> TASK_RUNNING ->
                 tcbs k' !! q = Some t).
Proof.
  apply (schedule_next_task_frame two_tasks 1
           (set_last_ready_hint (Some 0%nat) two_tasks)).
  vm_compute. reflexivity.
Defined.

Lemma land_align16 x :
  0 <= x < 2 ^ 32 -> Z.land x (u32 (Z.lnot 0xF)) = 16 * (x / 16).
Proof.
  intros Hx.
  change (u32 (Z.lnot 0xF)) with (Z.shiftl (Z.ones 28) 4).
  transitivity (Z.shiftl (Z.shiftr x 4) 4).
  - apply Z.bits_inj'. intros i Hi. rewrite Z.land_spec.
    destruct (Z.ltb_spec i 4) as [Hlt|Hge].
    + rewrite !Z.shiftl_spec_low by lia. apply andb_false_r.
    + rewrite !Z.shiftl_spec, Z.shiftr_spec by lia.
      replace (i - 4 + 4) with i by lia.
      destruct (Z.ltb_spec i 32) as [Hlt|Hge32].
      * rewrite Z.ones_spec_low by lia. apply andb_true_r.
      * rewrite Z.ones_spec_high by lia. rewrite andb_false_r.
        symmetry. rewrite <- (Z.mod_small x (2 ^ 32)) by lia.
        apply Z.mod_pow2_bits_high. lia.
  - rewrite Z.shiftl_mul_pow2, Z.shiftr_div_pow2 by lia.
    change (2 ^ 4) with 16. lia.
Qed.

Lemma spawn_stack_size_rounds req :
  0 <= req < 2 ^ 16 ->
  let sz := spawn_stack_size req in
  sz mod 16 = 0 /\ MIN_TASK_STACK_SIZE <= sz /\ req <= sz /\
  sz < Z.max req MIN_TASK_STACK_SIZE + 16.
Proof.
  intros Hr. unfold spawn_stack_size, MIN_TASK_STACK_SIZE.
  set (s := if req <? 256 then 256 else req).
  assert (Hs : s = Z.max req 256) by (subst s; destruct (Z.ltb_spec req 256); lia).
  clearbody s.
  change (2 ^ 16) with 65536 in Hr.
  assert (Hx : 0 <= s + 15 < 2 ^ 32) by (change (2 ^ 32) with 4294967296; lia).
  rewrite land_align16 by exact Hx.
  assert (Hdm : s + 15 = 16 * ((s + 15) / 16) + (s + 15) mod 16)
    by (apply Z.div_mod; lia).
  assert (Hm : 0 <= (s + 15) mod 16 < 16) by (apply Z.mod_pos_bound; lia).
  cbv zeta. unfold u32. change (2 ^ 32) with 4294967296 in *.
  rewrite (Z.mod_small (16 * ((s + 15) / 16)) 4294967296) by lia.
  split_and!; try lia.
  rewrite Z.mul_comm. apply Z.mod_mul. lia.
Qed.

(** X13. When the heap has an aligned stack block and the memory for
    the control block and the list node, [mo_task_spawn] returns the next
    task id and does not panic.  The new task is appended to the task list,
    READY, with no delay and no real-time priority; its stack is the
    request raised to at least 256 bytes and rounded up to a multiple of
    16, with the canary at both ends.  The id counter and the task count go
    up by one, the first task spawned becomes the current one, and no
    other task changes. *)
Theorem mo_task_spawn_creates task_entry req tcb stk list_ok k :
  task_entry <> NULL -> tcb <> NULL -> stk <> NULL -> Z.land stk 0x3 = 0 ->
  0 <= req < 2 ^ 16 -> (tasks k = None -> list_ok = true) ->
  exists k' sz,
    mo_task_spawn task_entry req tcb stk list_ok true k = Ok (next_tid k, k') /\
    tasks k' = Some (default [] (tasks k) ++ [tcb]) /\
    tcbs k' !! tcb = Some (Tcb stk sz task_entry 0x1F00 0 (next_tid k)
                               TASK_READY 0 NULL STACK_CANARY STACK_CANARY) /\
    sz mod 16 = 0 /\ MIN_TASK_STACK_SIZE <= sz /\ req <= sz /\
    sz < Z.max req MIN_TASK_STACK_SIZE + 16 /\
    (forall q, q <> tcb -> tcbs k' !! q = tcbs k !! q) /\
    next_tid k' = u16 (next_tid k + 1) /\
    task_count k' = u16 (task_count k + 1) /\
    task_current k' = match task_current k with
                      | None => Some (length (default [] (tasks k)))
                      | Some c => Some c
                      end.
Proof.
  intros He Ht Hs Ha Hr Hl.
  destruct (spawn_stack_size_rounds req Hr) as (H16 & Hmin & Hle & Hlt).
  assert (Hsz : spawn_stack_size req <> 0)
    by (unfold MIN_TASK_STACK_SIZE in Hmin; lia).
  unfold mo_task_spawn, init_task_stack, cache_task.
  rewrite spawn_prio_value.
  change (u32 (Z.land ((if req <? MIN_TASK_STACK_SIZE then MIN_TASK_STACK_SIZE
                        else req) + 15) (u32 (Z.lnot 15))))
    with (spawn_stack_size req).
  rewrite (proj2 (Z.eqb_neq task_entry NULL) He), (proj2 (Z.eqb_neq tcb NULL) Ht).
  unfold malloc. rewrite (proj2 (Z.eqb_neq _ 0) Hsz), (proj2 (Z.eqb_neq stk NULL) Hs).
  rewrite Ha. cbn [Z.eqb negb].
  monad_unfold. kcb_simpl. rewrite !lookup_insert_eq. kcb_simpl.
  assert (Hother : forall (m : gmap Z tcb_t) a b c d q, q <> tcb ->
             (<[tcb := a]> (<[tcb := b]> (<[tcb := c]> (<[tcb := d]> m)))) !! q
             = m !! q).
  { intros m a b c d q Hq. rewrite !lookup_insert_ne by congruence. reflexivity. }
  destruct (tasks k) as [l|] eqn:Hlk; [|rewrite (Hl eq_refl)]; kcb_simpl;
    rewrite !lookup_insert_eq; kcb_simpl;
    destruct (task_current k) eqn:Hck; kcb_simpl;
    rewrite !lookup_insert_eq; kcb_simpl;
    eexists _, (spawn_stack_size req);
    (split; [reflexivity|]); kcb_simpl; rewrite ?Hlk, ?Hck, lookup_insert_eq;
    split_and!; auto.
Qed.

Lemma mo_task_spawn_creates_witness :
  exists k' sz,
    mo_task_spawn 0x400 1000 0x1000 0x8000 true true kernel_state
      = Ok (next_tid kernel_state, k') /\
    tasks k' = Some (default [] (tasks kernel_state) ++ [0x1000]) /\
    tcbs k' !! 0x1000
      = Some (Tcb 0x8000 sz 0x400 0x1F00 0 (next_tid kernel_state)
                  TASK_READY 0 NULL STACK_CANARY STACK_CANARY) /\
    sz mod 16 = 0 /\ MIN_TASK_STACK_SIZE <= sz /\ 1000 <= sz /\
    sz < Z.max 1000 MIN_TASK_STACK_SIZE + 16 /\
    (forall q, q <> 0x1000 -> tcbs k' !! q = tcbs kernel_state !! q) /\
    next_tid k' = u16 (next_tid kernel_state + 1) /\
    task_count k' = u16 (task_count kernel_state + 1) /\
    task_current k' = match task_current kernel_state with
                      | None => Some (length (default [] (tasks kernel_state)))
                      | Some c => Some c
                      end.
Proof.
  apply (mo_task_spawn_creates 0x400 1000 0x1000 0x8000 true kernel_state);
    [discriminate|discriminate|discriminate|reflexivity
    |split; [discriminate|reflexivity]|reflexivity].
Defined.

(** X14. [mo_task_spawn] never returns an error code: it either
    returns the id it assigned, which is the kernel's next task id, or
    halts the machine in [panic] with one of the three allocation codes. *)
Theorem mo_task_spawn_or_panic task_entry req tcb stk list_ok node_ok k :
  (exists k', mo_task_spawn task_entry req tcb stk list_ok node_ok k
              = Ok (next_tid k, k')) \/
  (exists e, mo_task_spawn task_entry req tcb stk list_ok node_ok k = Panic e /\
             (e = ERR_TCB_ALLOC \/ e = ERR_STACK_ALLOC \/ e = ERR_KCB_ALLOC)).
Proof.
  unfold mo_task_spawn, init_task_stack, cache_task.
  destruct (task_entry =? NULL); [right; eauto|].
  destruct (tcb =? NULL); [right; eauto|].
  monad_unfold. kcb_simpl.
  destruct (malloc _ stk =? NULL); kcb_simpl; [right; eauto|].
  destruct (negb (Z.land _ 3 =? 0)); kcb_simpl; [right; eauto|].
  rewrite !lookup_insert_eq. kcb_simpl.
  destruct (tasks k) as [l|]; [|destruct list_ok; [|right; eauto 6]];
    kcb_simpl; (destruct node_ok; [|right; eauto]); kcb_simpl;
    rewrite !lookup_insert_eq; kcb_simpl;
    destruct (task_current k); kcb_simpl;
    rewrite !lookup_insert_eq; left; eauto.
Qed.

(** A call of [task_stack_check] that stops, in [panic] or on a dangling
    pointer. *)
Ltac stack_check_stops :=
  split; [intros ? H; cbv beta in H; inversion H; auto
         |intros ? H; cbv beta in H; discriminate H].

(** X15. [task_stack_check] looks at the stack only on every 32nd
    call.  On the 31 calls between, it succeeds whatever the stacks and the
    task list hold, and only counts; when it does fail, it is on a 32nd
    call and with ERR_STACK_CHECK; and a call that returns has changed
    nothing but the counter, which cycles through 0..31. *)
Theorem task_stack_check_every_32nd k :
  0 <= stack_check_counter k < STACK_CHECK_INTERVAL ->
  (stack_check_counter k < STACK_CHECK_INTERVAL - 1 ->
   task_stack_check k
     = Ok (tt, set_stack_check_counter (stack_check_counter k + 1) k)) /\
  (forall e, task_stack_check k = Panic e ->
     e = ERR_STACK_CHECK /\ stack_check_counter k = STACK_CHECK_INTERVAL - 1) /\
  (forall k', task_stack_check k = Ok (tt, k') ->
     k' = set_stack_check_counter
            ((stack_check_counter k + 1) mod STACK_CHECK_INTERVAL) k).
Proof.
  unfold STACK_CHECK_INTERVAL. intros Hc.
  assert (Hu : u32 (stack_check_counter k + 1) = stack_check_counter k + 1).
  { unfold u32. apply Z.mod_small. change (2 ^ 32) with 4294967296. lia. }
  unfold task_stack_check, STACK_CHECK_INTERVAL. monad_unfold. kcb_simpl.
  rewrite Hu.
  destruct (Z.leb_spec 32 (stack_check_counter k + 1)) as [Hge|Hlt]; kcb_simpl.
  - assert (Hk : stack_check_counter k = 31) by lia.
    split; [lia|].
    replace ((stack_check_counter k + 1) mod 32) with 0 by (rewrite Hk; reflexivity).
    destruct (task_current k); kcb_simpl; [|stack_check_stops].
    destruct (tasks k) as [l|]; kcb_simpl; [|stack_check_stops].
    destruct (l !! n) as [q|]; kcb_simpl; [|stack_check_stops].
    destruct (q =? NULL) eqn:Hq; kcb_simpl; [stack_check_stops|].
    unfold is_valid_task. rewrite Hq. monad_unfold. kcb_simpl.
    destruct (tcbs k !! q) as [t|] eqn:Htq; kcb_simpl; [|stack_check_stops].
    match goal with |- context [if negb ?c then _ else _] =>
      destruct c; kcb_simpl; [|stack_check_stops] end.
    rewrite Htq. kcb_simpl.
    match goal with |- context [if ?c then _ else _] =>
      destruct c; kcb_simpl; [stack_check_stops|] end.
    split; [discriminate|]. intros k' H. inversion H. reflexivity.
  - rewrite Z.mod_small by lia.
    split; [reflexivity|]. split; [discriminate|].
    intros k' H. inversion H. reflexivity.
Qed.

Lemma task_stack_check_every_32nd_witness :
  (stack_check_counter two_tasks < STACK_CHECK_INTERVAL - 1 ->
   task_stack_check two_tasks
     = Ok (tt, set_stack_check_counter (stack_check_counter two_tasks + 1)
                 two_tasks)) /\
  (forall e, task_stack_check two_tasks = Panic e ->
     e = ERR_STACK_CHECK /\
     stack_check_counter two_tasks = STACK_CHECK_INTERVAL - 1) /\
  (forall k', task_stack_check two_tasks = Ok (tt, k') ->
     k' = set_stack_check_counter
            ((stack_check_counter two_tasks + 1) mod STACK_CHECK_INTERVAL)
            two_tasks).
Proof.
  apply (task_stack_check_every_32nd two_tasks).
  split; [discriminate|reflexivity].
Defined.

Lemma cache_lookup_from_inv c tid : forall k p k',
  cache_lookup_from c tid k = Ok (p, k') ->
  k' = k /\ (p = NULL \/ (p <> NULL /\ (tid, p) ∈ c /\ is_Some (tcbs k !! p))).
Proof.
  induction c as [|[cid ctask] c IH]; intros k p k' H; cbn [cache_lookup_from] in H.
  - inversion H; subst. auto.
  - destruct (Z.eqb_spec cid tid) as [->|Hne].
    + apply bind_inv_ok in H as (v & k1 & Hv & H).
      pose proof (is_valid_task_state _ _ _ _ Hv) as ->.
      destruct v.
      * unfold ret in H. inversion H; subst p k'. split; [reflexivity|]. right.
        unfold is_valid_task in Hv.
        destruct (Z.eqb_spec ctask NULL) as [|Hnz]; [inversion Hv|].
        monad_unfold. destruct (tcbs k !! ctask) eqn:Hp; [|discriminate].
        split_and!; [exact Hnz|apply list_elem_of_here|eauto].
      * apply IH in H as [-> H]. split; [reflexivity|].
        destruct H as [H|(H1 & H2 & H3)]; [auto|].
        right. split_and!; auto. apply list_elem_of_further, H2.
    + apply IH in H as [-> H]. split; [reflexivity|].
      destruct H as [H|(H1 & H2 & H3)]; [auto|].
      right. split_and!; auto. apply list_elem_of_further, H2.
Qed.

Lemma find_data_from_inv l p : forall i n,
  find_data_from i l p = Some n ->
  exists j, n = (i + j)%nat /\ l !! j = Some p.
Proof.
  induction l as [|q l IH]; intros i n H; cbn [find_data_from] in H;
    [discriminate|].
  destruct (Z.eqb_spec q p) as [->|Hne].
  - inversion H; subst. exists 0%nat. split; [lia|reflexivity].
  - apply IH in H as (j & -> & Hj). exists (S j). split; [lia|exact Hj].
Qed.

(** The full search with [idcmp] returns the first node whose task has
    the id, and none only when there is no such node. *)
Lemma foreach_idcmp_inv tid l : forall i k r k',
  list_foreach_from i l (idcmp tid) k = Ok (r, k') ->
  k' = k /\
  match r with
  | Some n => exists j q t, n = (i + j)%nat /\ l !! j = Some q /\ q <> NULL /\
                            tcbs k !! q = Some t /\ id t = u16 tid
  | None => forall j q t, l !! j = Some q -> q <> NULL ->
                          tcbs k !! q = Some t -> id t <> u16 tid
  end.
Proof.
  induction l as [|p l IH]; intros i k r k' H; cbn [list_foreach_from] in H.
  - inversion H; subst. split; [reflexivity|]. intros j q t Hj. 
    rewrite lookup_nil in Hj. discriminate.
  - apply bind_inv_ok in H as (r1 & k1 & Hc & H).
    unfold idcmp in Hc.
    destruct (Z.eqb_spec p NULL) as [->|Hnz].
    + inversion Hc; subst. apply IH in H as [-> H]. split; [reflexivity|].
      destruct r as [n|].
      * destruct H as (j & q & t & -> & Hj & Hq & Ht & Hid).
        exists (S j), q, t. split_and!; auto; lia.
      * intros [|j] q t Hj Hq Ht; [inversion Hj; subst; contradiction|].
        eapply H; eauto.
    + monad_unfold. destruct (tcbs k !! p) as [x|] eqn:Hx; [|discriminate].
      inversion Hc; subst. clear Hc.
      destruct (Z.eqb_spec (id x) (u16 tid)) as [Hid|Hid].
      * inversion H; subst. split; [reflexivity|].
        exists 0%nat, p, x. split_and!; auto; lia.
      * apply IH in H as [-> H]. split; [reflexivity|].
        destruct r as [n|].
        -- destruct H as (j & q & t & -> & Hj & Hq & Ht & Hid').
           exists (S j), q, t. split_and!; auto; lia.
        -- intros [|j] q t Hj Hq Ht.
           ++ inversion Hj; subst. rewrite Hx in Ht. inversion Ht; subst. exact Hid.
           ++ eapply H; eauto.
Qed.

Lemma cache_task_coherent tid p t k :
  cache_coherent k -> tcbs k !! p = Some t -> id t = tid ->
  forall k', cache_task tid p k = Ok (tt, k') ->
  cache_coherent k' /\ exists c i, k' = set_cache c i k.
Proof.
  intros Hco Hp Hid k' H. unfold cache_task in H. monad_unfold.
  inversion H; subst k'. clear H. split; [|eauto].
  intros cid ctask t' Hin Ht'. kcb_simpl.
  apply list_elem_of_lookup in Hin as (i & Hi).
  destruct (decide (i = Z.to_nat (cache_index k))) as [->|Hne].
  - pose proof (lookup_lt_Some _ _ _ Hi) as Hlen.
    rewrite length_insert in Hlen.
    rewrite list_lookup_insert_eq in Hi.
    + inversion Hi; subst. congruence.
    + exact Hlen.
  - rewrite list_lookup_insert_ne in Hi by congruence.
    eapply Hco; [|exact Ht']. eapply list_elem_of_lookup_2. exact Hi.
Qed.

(** [find_task_node_by_id] is a correct lookup when the cache is
    coherent: a node it returns holds a task with the id asked for, and
    when it returns none, no node of the list holds such a task.  The
    search changes nothing but the cache, which stays coherent. *)
Lemma find_task_node_by_id_inv tid k r k' :
  cache_coherent k -> 0 <= tid < 2 ^ 16 ->
  find_task_node_by_id tid k = Ok (r, k') ->
  (exists c i, k' = set_cache c i k) /\ cache_coherent k' /\
  match r with
  | Some n => tid <> 0 /\ node_has_id k n tid
  | None => tid = 0 \/ forall n, ~ node_has_id k n tid
  end.
Proof.
  intros Hco Hr H. unfold find_task_node_by_id in H.
  assert (Hsame : exists c i, k = set_cache c i k)
    by (exists (task_cache k), (cache_index k); destruct k; reflexivity).
  apply bind_inv_ok in H as (ol & k1 & Hg & H).
  unfold gets in Hg. inversion Hg; subst ol k1. clear Hg.
  destruct (tasks k) as [l|] eqn:Hl.
  2:{ unfold ret in H. inversion H; subst r k'. split_and!; auto. right.
      intros n (l & q & t & Hl' & _). congruence. }
  destruct (Z.eqb_spec tid 0) as [->|Hnz];
    [unfold ret in H; inversion H; subst r k'; split_and!; auto|].
  apply bind_inv_ok in H as (cached & k2 & Hc & H).
  unfold cache_lookup_task in Hc.
  apply bind_inv_ok in Hc as (c & k3 & Hg & Hc).
  unfold gets in Hg. inversion Hg; subst c k3. clear Hg.
  apply cache_lookup_from_inv in Hc as [-> Hc].
  destruct (if cached =? NULL then None else find_data_from 0 l cached)
    as [n|] eqn:Hfd.
  - unfold ret in H. inversion H; subst r k'. split_and!; auto.
    destruct (Z.eqb_spec cached NULL) as [|Hcnz]; [discriminate|].
    destruct Hc as [Hc|(_ & Hin & [t Ht])]; [contradiction|].
    apply find_data_from_inv in Hfd as (j & -> & Hj).
    exists l, cached, t. split_and!; auto. eapply Hco; eauto.
  - clear Hfd Hc.
    apply bind_inv_ok in H as (node & k2 & Hf & H).
    unfold list_foreach in Hf.
    apply bind_inv_ok in Hf as (ol & k4 & Hg & Hf).
    unfold gets in Hg. inversion Hg; subst ol k4. clear Hg.
    rewrite Hl in Hf. apply foreach_idcmp_inv in Hf as [-> Hf].
    rewrite u16_small in Hf by exact Hr.
    destruct node as [n|].
    + destruct Hf as (j & q & t & -> & Hj & Hq & Ht & Hid).
      apply bind_inv_ok in H as (p & k5 & Hd & H).
      apply node_data_inv in Hd as (-> & l' & Hl' & Hp).
      rewrite Hl in Hl'. inversion Hl'; subst l'. cbn [Nat.add] in Hp.
      rewrite Hj in Hp. inversion Hp; subst p.
      rewrite (proj2 (Z.eqb_neq q NULL) Hq) in H.
      apply bind_inv_ok in H as ([] & k6 & Hct & H).
      destruct (cache_task_coherent _ _ _ _ Hco Ht Hid _ Hct) as (Hco' & Hk6).
      unfold ret in H. inversion H; subst r k'.
      split_and!; [exact Hk6|exact Hco'|exact Hnz|].
      exists l, q, t. split_and!; auto.
    + unfold ret in H. inversion H; subst r k'. split_and!; auto. right.
      intros n (l' & q & t & Hl' & Hn & Hq & Ht & Hid).
      rewrite Hl in Hl'. inversion Hl'; subst l'.
      exact (Hf n q t Hn Hq Ht Hid).
Qed.

(** A store to a task that keeps its id keeps the cache coherent. *)
Lemma cache_coherent_store k q t t' :
  cache_coherent k -> tcbs k !! q = Some t -> id t' = id t ->
  cache_coherent (set_tcbs (fun h => <[q := t']> h) k).
Proof.
  intros Hco Hq Hid cid ctask x Hin Hx. kcb_simpl.
  destruct (decide (ctask = q)) as [->|Hne].
  - rewrite lookup_insert_eq in Hx. inversion Hx; subst x.
    rewrite Hid. eapply Hco; eauto.
  - rewrite lookup_insert_ne in Hx by congruence. eapply Hco; eauto.
Qed.





(** With two tasks of the id 2, the first of them READY, the SUSPENDED
    one is not resumed. *)
Example mo_task_resume_twin_ids :
  mo_task_resume 2 twin_ids =
    Ok (ERR_TASK_CANT_RESUME,
        set_cache [(2, 0x1000); (0, NULL); (0, NULL); (0, NULL)] 1 twin_ids).
Proof. vm_compute. reflexivity. Qed.

Lemma blocked_pair_cache_coherent dl : cache_coherent (blocked_pair dl).
Proof.
  intros cid ctask t Hin Ht. unfold blocked_pair in Hin, Ht.
  cbn [task_cache tcbs] in Hin, Ht.
  repeat (apply elem_of_cons in Hin as [Hin|Hin];
          [inversion Hin; subst; vm_compute in Ht; inversion Ht; reflexivity|]).
  apply elem_of_nil in Hin. contradiction.
Qed.


(** X17. With a coherent cache, [mo_task_priority] returns ERR_OK
    exactly for a valid priority and the id of a task of the list; it then
    stores the base byte of the priority in both halves of that task's
    priority word and changes nothing else.  An id of 0 or a priority that
    is not one of the eight levels gives ERR_TASK_INVALID_PRIO, an unknown
    id ERR_TASK_NOT_FOUND, and then no task changes. *)
Theorem mo_task_priority_correct tid priority k e k' :
  cache_coherent k -> 0 <= tid < 2 ^ 16 ->
  mo_task_priority tid priority k = Ok (e, k') ->
  tasks k' = tasks k /\ task_current k' = task_current k /\
  cache_coherent k' /\
  ((e = ERR_OK /\ is_valid_priority priority = true /\
    exists n l q t w, tasks k = Some l /\ l !! n = Some q /\
      tcbs k !! q = Some t /\ id t = tid /\
      tcbs k' = <[q := set_prio t w]> (tcbs k) /\
      prio_base w = prio_base priority /\
      prio_counter w = prio_base priority) \/
   (e = ERR_TASK_INVALID_PRIO /\ tcbs k' = tcbs k /\
    (tid = 0 \/ is_valid_priority priority = false)) \/
   (e = ERR_TASK_NOT_FOUND /\ tcbs k' = tcbs k /\
    forall n, ~ node_has_id k n tid)).
Proof.
  intros Hco Hr H. unfold mo_task_priority in H.
  destruct (Z.eqb_spec tid 0) as [->|Hnz]; cbn [orb] in H.
  { unfold ret in H. inversion H; subst e k'.
    split_and!; [reflexivity|reflexivity|exact Hco|]. right. left. auto. }
  destruct (is_valid_priority priority) eqn:Hv; cbn [negb] in H.
  2:{ unfold ret in H. inversion H; subst e k'.
      split_and!; [reflexivity|reflexivity|exact Hco|]. right. left. auto. }
  apply bind_inv_ok in H as (node & k1 & Hf & H).
  apply find_task_node_by_id_inv in Hf as ((c & i & ->) & Hco1 & Hnode);
    [|exact Hco|exact Hr].
  destruct node as [n|].
  2:{ unfold ret in H. inversion H; subst e k'.
      split_and!; [reflexivity|reflexivity|exact Hco1|]. right. right.
      destruct Hnode as [Hz|Hnone]; [contradiction|auto]. }
  destruct Hnode as (_ & l & q & t & Hl & Hn & Hq & Ht & Hid).
  apply bind_inv_ok in H as (p & k2 & Hd & H).
  apply node_data_inv in Hd as (-> & l' & Hl' & Hp). kcb_simpl.
  rewrite Hl in Hl'. inversion Hl'; subst l'.
  rewrite Hn in Hp. inversion Hp; subst p.
  rewrite (proj2 (Z.eqb_neq q NULL) Hq) in H.
  monad_unfold. kcb_simpl. rewrite Ht in H. kcb_simpl.
  inversion H; subst e k'. kcb_simpl.
  destruct (valid_priority_dup priority Hv) as (H1 & H2 & _).
  split_and!; auto.
  - apply (cache_coherent_store _ q t); auto.
  - left. split_and!; auto. eexists n, l, q, t, _. split_and!; eauto.
Qed.

Lemma mo_task_priority_correct_witness :
  let k := two_tasks in
  let k' := set_tcbs (fun h => <[0x2000 := sample_tcb 2 TASK_BLOCKED 0x0707 5]> h)
                     two_tasks in
  tasks k' = tasks k /\ task_current k' = task_current k /\
  cache_coherent k' /\
  ((ERR_OK = ERR_OK /\ is_valid_priority TASK_PRIO_HIGH = true /\
    exists n l q t w, tasks k = Some l /\ l !! n = Some q /\
      tcbs k !! q = Some t /\ id t = 2 /\
      tcbs k' = <[q := set_prio t w]> (tcbs k) /\
      prio_base w = prio_base TASK_PRIO_HIGH /\
      prio_counter w = prio_base TASK_PRIO_HIGH) \/
   (ERR_OK = ERR_TASK_INVALID_PRIO /\ tcbs k' = tcbs k /\
    (2 = 0 \/ is_valid_priority TASK_PRIO_HIGH = false)) \/
   (ERR_OK = ERR_TASK_NOT_FOUND /\ tcbs k' = tcbs k /\
    forall n, ~ node_has_id k n 2)).
Proof.
  apply (mo_task_priority_correct 2 TASK_PRIO_HIGH two_tasks ERR_OK).
  - apply blocked_pair_cache_coherent.
  - split; [discriminate|reflexivity].
  - vm_compute. reflexivity.
Defined.

(** X18. With a coherent cache, [mo_task_suspend] refuses an id that
    no task has (ERR_TASK_NOT_FOUND) and a task that is STOPPED or already
    SUSPENDED (ERR_TASK_CANT_SUSPEND), changing no task.  When it suspends
    a task other than the current one, that task becomes SUSPENDED and
    keeps its other fields, no other task changes, the current task stays
    current and the ready hint no longer names the suspended node. *)
Theorem mo_task_suspend_correct tid k e k' :
  cache_coherent k -> 0 <= tid < 2 ^ 16 ->
  mo_task_suspend tid k = Ok (e, k') ->
  (e = ERR_OK /\
   exists n l q t, tasks k = Some l /\ l !! n = Some q /\
     tcbs k !! q = Some t /\ id t = tid /\
     (state t = TASK_READY \/ state t = TASK_RUNNING \/ state t = TASK_BLOCKED) /\
     (task_current k <> Some n ->
      tcbs k' = <[q := set_state t TASK_SUSPENDED]> (tcbs k) /\
      tasks k' = tasks k /\ task_current k' = task_current k /\
      last_ready_hint k' <> Some n)) \/
  (e = ERR_TASK_NOT_FOUND /\ tcbs k' = tcbs k /\ tasks k' = tasks k /\
   (tid = 0 \/ forall n, ~ node_has_id k n tid)) \/
  (e = ERR_TASK_CANT_SUSPEND /\ tcbs k' = tcbs k /\ tasks k' = tasks k /\
   exists n l q t, tasks k = Some l /\ l !! n = Some q /\
     tcbs k !! q = Some t /\ id t = tid /\
     (state t = TASK_STOPPED \/ state t = TASK_SUSPENDED)).
Proof.
  intros Hco Hr H. unfold mo_task_suspend in H.
  destruct (Z.eqb_spec tid 0) as [->|Hnz].
  { unfold ret in H. inversion H; subst e k'. right. left. auto. }
  apply bind_inv_ok in H as (node & k1 & Hf & H).
  apply find_task_node_by_id_inv in Hf as ((c & i & ->) & Hco1 & Hnode);
    [|exact Hco|exact Hr].
  destruct node as [n|].
  2:{ unfold ret in H. inversion H; subst e k'. right. left. auto. }
  destruct Hnode as (_ & l & q & t & Hl & Hn & Hq & Ht & Hid).
  apply bind_inv_ok in H as (p & k2 & Hd & H).
  apply node_data_inv in Hd as (-> & l' & Hl' & Hp). kcb_simpl.
  rewrite Hl in Hl'. inversion Hl'; subst l'.
  rewrite Hn in Hp. inversion Hp; subst p.
  rewrite (proj2 (Z.eqb_neq q NULL) Hq) in H.
  apply bind_inv_ok in H as (t' & k2 & Hd & H).
  unfold deref in Hd. kcb_simpl. rewrite Ht in Hd. inversion Hd; subst t' k2.
  clear Hd.
  destruct (state t) eqn:Hs; cbn [bool_decide decide_rel negb andb] in H;
    try (unfold ret in H; inversion H; subst e k'; right; right;
         split_and!; auto; exists n, l, q, t; rewrite Hs; split_and!; auto).
  all: left; 
    apply bind_inv_ok in H as ([] & k3 & Hst & H);
    apply bind_inv_ok in H as (cur & k4 & Hg & H);
    apply bind_inv_ok in H as (hint & k5 & Hg' & H);
    apply bind_inv_ok in H as ([] & k6 & Hh & H);
    apply bind_inv_ok in H as ([] & k7 & Hy & H);
    unfold ret in H; inversion H; subst e k7; clear H;
    (split; [reflexivity|]); exists n, l, q, t; rewrite Hs;
    (split_and!; auto); intros Hcur;
    monad_unfold; kcb_simpl;
    inversion Hst; subst k3; inversion Hg; subst cur k4;
    inversion Hg'; subst hint k5; kcb_simpl;
    rewrite (bool_decide_eq_false_2 _ Hcur) in Hy; inversion Hy; subst k6;
    (destruct (bool_decide (last_ready_hint k = Some n)) eqn:Hb;
     [|apply bool_decide_eq_false in Hb]; inversion Hh; subst k'; kcb_simpl;
     split_and!; auto; discriminate).
Qed.

Lemma mo_task_suspend_correct_witness :
  let k := two_tasks in
  let k' := set_tcbs (fun h => <[0x2000 := sample_tcb 2 TASK_SUSPENDED 0x1F00 5]> h)
                     two_tasks in
  (ERR_OK = ERR_OK /\
   exists n l q t, tasks k = Some l /\ l !! n = Some q /\
     tcbs k !! q = Some t /\ id t = 2 /\
     (state t = TASK_READY \/ state t = TASK_RUNNING \/ state t = TASK_BLOCKED) /\
     (task_current k <> Some n ->
      tcbs k' = <[q := set_state t TASK_SUSPENDED]> (tcbs k) /\
      tasks k' = tasks k /\ task_current k' = task_current k /\
      last_ready_hint k' <> Some n)) \/
  (ERR_OK = ERR_TASK_NOT_FOUND /\ tcbs k' = tcbs k /\ tasks k' = tasks k /\
   (2 = 0 \/ forall n, ~ node_has_id k n 2)) \/
  (ERR_OK = ERR_TASK_CANT_SUSPEND /\ tcbs k' = tcbs k /\ tasks k' = tasks k /\
   exists n l q t, tasks k = Some l /\ l !! n = Some q /\
     tcbs k !! q = Some t /\ id t = 2 /\
     (state t = TASK_STOPPED \/ state t = TASK_SUSPENDED)).
Proof.
  apply (mo_task_suspend_correct 2 two_tasks ERR_OK).
  - apply blocked_pair_cache_coherent.
  - split; [discriminate|reflexivity].
  - vm_compute. reflexivity.
Defined.

(** X19. A task that [mo_task_rt_priority] has given a real-time
    priority is passed over by the round-robin scheduler: the task
    [schedule_next_task] makes current next is another one. *)
Theorem rt_task_not_scheduled tid priority k k1 tid' k2 :
  cache_coherent k -> 0 <= tid < 2 ^ 16 -> priority <> NULL ->
  mo_task_rt_priority tid priority k = Ok (ERR_OK, k1) ->
  schedule_next_task k1 = Ok (tid', k2) ->
  exists n l q t,
    tasks k = Some l /\ l !! n = Some q /\ tcbs k !! q = Some t /\ id t = tid /\
    tcbs k1 !! q = Some (set_rt_prio t priority) /\
    forall q', current_task_ptr k2 = Ok (q', k2) -> q' <> q.
Proof.
  intros Hco Hr Hp H Hs. unfold mo_task_rt_priority in H.
  destruct (Z.eqb_spec tid 0) as [->|Hnz]; [discriminate|].
  apply bind_inv_ok in H as (node & k0 & Hf & H).
  apply find_task_node_by_id_inv in Hf as ((c & i & ->) & Hco1 & Hnode);
    [|exact Hco|exact Hr].
  destruct node as [n|]; [|discriminate].
  destruct Hnode as (_ & l & q & t & Hl & Hn & Hq & Ht & Hid).
  apply bind_inv_ok in H as (p & k3 & Hd & H).
  apply node_data_inv in Hd as (-> & l' & Hl' & Hp'). kcb_simpl.
  rewrite Hl in Hl'. inversion Hl'; subst l'.
  rewrite Hn in Hp'. inversion Hp'; subst p.
  rewrite (proj2 (Z.eqb_neq q NULL) Hq) in H.
  monad_unfold. kcb_simpl. rewrite Ht in H. kcb_simpl.
  inversion H; subst k1. clear H.
  exists n, l, q, t. kcb_simpl. rewrite lookup_insert_eq.
  split_and!; auto.
  intros q' Hcur. 
  apply schedule_next_task_inv in Hs
    as (c0 & p0 & x & n0 & k4 & l0 & q0 & t0 & w & Hc0 & Hp0 & Hnz0 & Hx & Hfr
        & Hl0 & Hn0 & Hq0 & Hst & Hrt & Hq4 & Hw & Hb & _ & ->).
  destruct Hfr as (Ht4 & _).
  assert (Hmt : forall kk pp xx, tasks (mark_current_ready kk pp xx) = tasks kk)
    by (intros; unfold mark_current_ready; destruct (bool_decide _); reflexivity).
  rewrite Hmt in Ht4. kcb_simpl.
  assert (Hq' : q' = q0).
  { unfold current_task_ptr in Hcur. monad_unfold. kcb_simpl.
    rewrite Ht4, Hl0, Hn0 in Hcur. inversion Hcur. reflexivity. }
  subst q'. intros ->.
  unfold mark_current_ready in Hq0.
  destruct (bool_decide (state x = TASK_RUNNING)); kcb_simpl.
  - destruct (decide (q = p0)) as [->|Hne].
    + rewrite lookup_insert_eq in Hx. inversion Hx; subst x.
      rewrite lookup_insert_eq in Hq0. inversion Hq0; subst t0.
      cbn in Hrt. contradiction.
    + rewrite lookup_insert_ne in Hq0 by congruence.
      rewrite lookup_insert_eq in Hq0. inversion Hq0; subst t0.
      cbn in Hrt. contradiction.
  - rewrite lookup_insert_eq in Hq0. inversion Hq0; subst t0.
    cbn in Hrt. contradiction.
Qed.

Lemma ready_pair_cache_coherent : cache_coherent ready_pair.
Proof.
  intros cid ctask t Hin Ht. unfold ready_pair in Hin, Ht.
  cbn [task_cache tcbs] in Hin, Ht.
  repeat (apply elem_of_cons in Hin as [Hin|Hin];
          [inversion Hin; subst; vm_compute in Ht; inversion Ht; reflexivity|]).
  apply elem_of_nil in Hin. contradiction.
Qed.

Lemma rt_task_not_scheduled_witness :
  exists k1 k2,
    mo_task_rt_priority 1 0x500 ready_pair = Ok (ERR_OK, k1) /\
    schedule_next_task k1 = Ok (2, k2) /\
    exists n l q t,
      tasks ready_pair = Some l /\ l !! n = Some q /\
      tcbs ready_pair !! q = Some t /\ id t = 1 /\
      tcbs k1 !! q = Some (set_rt_prio t 0x500) /\
      forall q', current_task_ptr k2 = Ok (q', k2) -> q' <> q.
Proof.
  eexists _, _. split; [vm_compute; reflexivity|].
  split; [vm_compute; reflexivity|].
  apply (rt_task_not_scheduled 1 0x500 ready_pair _ 2 _).
  - apply ready_pair_cache_coherent.
  - split; [discriminate|reflexivity].
  - discriminate.
  - vm_compute. reflexivity.
  - vm_compute. reflexivity.
Defined.

(** ** The ready search when no countdown reaches zero *)

Lemma visits_within_step n len c i :
  len <> 0%nat ->
  visits_within (S n) len c i
  = ((if ((c + 1) mod len =? i)%nat then 1 else 0)
     + visits_within n len ((c + 1) mod len) i)%nat.
Proof.
  intros Hlen. unfold visits_within. cbn [seq List.filter].
  assert (Hshift : length (List.filter (fun j => ((c + j) mod len =? i)%nat)
                             (seq 2 n))
                   = length (List.filter
                               (fun j => (((c + 1) mod len + j) mod len =? i)%nat)
                               (seq 1 n))).
  { rewrite <- (seq_shift n 1). generalize (seq 1 n). intros l.
    induction l as [|a l IH]; [reflexivity|]. cbn [map List.filter].
    replace ((c + S a) mod len)%nat with (((c + 1) mod len + a) mod len)%nat
      by (rewrite Nat.Div0.add_mod_idemp_l; f_equal; lia).
    destruct (_ =? i)%nat; cbn [length]; rewrite IH; reflexivity. }
  destruct ((c + 1) mod len =? i)%nat; cbn [length]; rewrite Hshift; reflexivity.
Qed.

Lemma list_cnext_mod (l : list Z) c :
  (c < length l)%nat ->
  list_cnext (Some l) (Some c) = Some ((c + 1) mod length l)%nat.
Proof.
  intros Hc. unfold list_cnext.
  destruct (Nat.ltb_spec (S c) (length l)) as [Hlt|Hge].
  - rewrite Nat.mod_small by lia. f_equal. lia.
  - replace (c + 1)%nat with (length l) by lia.
    rewrite Nat.Div0.mod_same. destruct l; [cbn in Hc; lia|reflexivity].
Qed.

(** No countdown reaches zero: every READY task of the list without a
    real-time priority has a countdown above the number of its visits. *)
Lemma countdown_reaches_zero_false n k l c :
  countdown_reaches_zero n k l c = false <->
  forall i p t, l !! i = Some p -> tcbs k !! p = Some t ->
    state t = TASK_READY -> rt_prio t = NULL ->
    Z.of_nat (visits_within n (length l) c i) < prio_counter (prio t).
Proof.
  unfold countdown_reaches_zero. split.
  - intros H i p t Hi Hp Hs Hr.
    destruct (Z.ltb_spec (Z.of_nat (visits_within n (length l) c i))
                (prio_counter (prio t))) as [Hlt|Hge]; [exact Hlt|].
    exfalso. apply not_true_iff_false in H. apply H.
    apply existsb_exists. exists i. split.
    + apply in_seq. pose proof (lookup_lt_Some _ _ _ Hi). lia.
    + rewrite Hi, Hp. rewrite (bool_decide_eq_true_2 _ Hs), Hr.
      cbn [andb Z.eqb NULL]. apply Z.leb_le. lia.
  - intros H. apply not_true_iff_false. intros He.
    apply existsb_exists in He as (i & _ & Hi).
    destruct (l !! i) as [p|] eqn:Hl; [|discriminate].
    destruct (tcbs k !! p) as [t|] eqn:Hp; [|discriminate].
    apply andb_true_iff in Hi as [Hi Hle].
    apply andb_true_iff in Hi as [Hs Hr].
    apply bool_decide_eq_true in Hs. apply Z.eqb_eq in Hr.
    apply Z.leb_le in Hle. specialize (H i p t Hl Hp Hs Hr). lia.
Qed.

Lemma prio_counter_range w : 0 <= prio_counter w < 256.
Proof.
  unfold prio_counter. change 0xFF with (Z.ones 8).
  rewrite Z.land_ones by lia. apply Z.mod_pos_bound. lia.
Qed.

(** When no countdown reaches zero, the loop runs all its iterations and
    comes back without a node; it leaves the list, the hint and the
    current node. *)
Lemma ready_walk_no_zero l n : forall c v k,
  tasks k = Some l -> NoDup l ->
  (forall p, p ∈ l -> p <> NULL /\ is_Some (tcbs k !! p)) ->
  (c < length l)%nat ->
  countdown_reaches_zero n k l c = false ->
  exists k',
    ready_walk n (Some c) v k = Ok ((None, (v + n)%nat), k') /\
    tasks k' = tasks k /\ last_ready_hint k' = last_ready_hint k /\
    task_current k' = task_current k.
Proof.
  induction n as [|n IH]; intros c v k Hl Hnd Hval Hc Hno.
  - exists k. cbn [ready_walk]. unfold ret. rewrite Nat.add_0_r. auto.
  - assert (Hlen : length l <> 0%nat) by lia.
    rewrite countdown_reaches_zero_false in Hno.
    set (i := ((c + 1) mod length l)%nat).
    assert (Hi : (i < length l)%nat) by (apply Nat.mod_upper_bound; exact Hlen).
    destruct (lookup_lt_is_Some_2 l i Hi) as [p Hp].
    destruct (Hval p (list_elem_of_lookup_2 _ _ _ Hp)) as [Hpn [t Ht]].
    assert (Hstep : forall j,
              visits_within (S n) (length l) c j
              = ((if (i =? j)%nat then 1 else 0)
                 + visits_within n (length l) i j)%nat)
      by (intros j; apply visits_within_step; exact Hlen).
    replace (v + S n)%nat with (S v + n)%nat by lia.
    assert (Hrun : forall k1 : kcb_t,
              ready_walk (S n) (Some c) v k =
              (if negb (bool_decide (state t = TASK_READY))
                  || negb (rt_prio t =? NULL)
               then ready_walk n (Some i) (S v) k
               else
                 let counter := u8 (Z.land (prio t) 0xFF) in
                 let counter := if counter =? 0 then counter
                                else u8 (counter - 1) in
                 let task1 :=
                   set_prio t (u16 (Z.lor (Z.land (prio t) 0xFF00) counter)) in
                 if counter =? 0 then
                   let counter := u8 (Z.land (Z.shiftr (prio task1) 8) 0xFF) in
                   (store p (set_prio task1
                               (u16 (Z.lor (Z.land (prio task1) 0xFF00) counter))) ;;
                    modify (set_last_ready_hint (Some i)) ;;
                    ret (Some i, S v)) k
                 else
                   (store p task1 ;; ready_walk n (Some i) (S v)) k)).
    { intros _. cbn [ready_walk]. unfold bind at 1, gets at 1. rewrite Hl.
      rewrite (list_cnext_mod l c Hc). fold i.
      unfold bind at 1, node_data at 1. rewrite Hl, Hp.
      rewrite (proj2 (Z.eqb_neq p NULL) Hpn).
      unfold bind at 1, deref at 1. rewrite Ht.
      destruct (negb _ || negb _); [reflexivity|]. cbv zeta.
      destruct (u8 (Z.land (prio t) 255) =? 0);
        destruct (_ =? 0); reflexivity. }
    rewrite (Hrun k). clear Hrun.
    destruct (bool_decide (state t = TASK_READY)) eqn:Hs; cbn [negb orb].
    2:{ apply (IH i (S v) k); auto.
        apply countdown_reaches_zero_false. intros j q x Hj Hq Hsx Hrx.
        specialize (Hno j q x Hj Hq Hsx Hrx). rewrite Hstep in Hno. lia. }
    apply bool_decide_eq_true in Hs.
    destruct (Z.eqb_spec (rt_prio t) NULL) as [Hr|Hr]; cbn [negb].
    2:{ apply (IH i (S v) k); auto.
        apply countdown_reaches_zero_false. intros j q x Hj Hq Hsx Hrx.
        specialize (Hno j q x Hj Hq Hsx Hrx). rewrite Hstep in Hno. lia. }
    cbv zeta. fold (prio_counter (prio t)).
    pose proof (prio_counter_range (prio t)) as Hrange.
    pose proof (Hno i p t Hp Ht Hs Hr) as Hself.
    rewrite Hstep, Nat.eqb_refl in Hself.
    rewrite u8_prio_counter.
    destruct (Z.eqb_spec (prio_counter (prio t)) 0) as [H0|_]; [lia|].
    assert (Hdec : u8 (prio_counter (prio t) - 1) = prio_counter (prio t) - 1)
      by (unfold u8; apply Z.mod_small; lia).
    destruct (Z.eqb_spec (u8 (prio_counter (prio t) - 1)) 0) as [H0|_]; [lia|].
    set (task1 := set_prio t (u16 (Z.lor (Z.land (prio t) 65280)
                                     (u8 (prio_counter (prio t) - 1))))).
    unfold bind at 1, store at 1, modify at 1.
    destruct (IH i (S v)
                (set_tcbs (fun h => <[p := task1]> h) k))
      as (k' & Hw & Ht' & Hh' & Hc'); kcb_simpl; auto.
    + intros q Hq. destruct (Hval q Hq) as [Hqn Hqs]. split; [exact Hqn|].
      destruct (decide (p = q)) as [->|Hne].
      * rewrite lookup_insert_eq. eauto.
      * rewrite lookup_insert_ne by exact Hne. exact Hqs.
    + apply countdown_reaches_zero_false. kcb_simpl.
      intros j q x Hj Hq Hsx Hrx.
      destruct (decide (p = q)) as [<-|Hne].
      * assert (Hji : j = i) by (eapply NoDup_lookup; eauto).
        rewrite Hji.
        rewrite lookup_insert_eq in Hq. inversion Hq; subst x.
        unfold task1. cbn [prio set_prio].
        rewrite prio_counter_countdown, Hdec. lia.
      * rewrite lookup_insert_ne in Hq by exact Hne.
        specialize (Hno j q x Hj Hq Hsx Hrx). rewrite Hstep in Hno.
        destruct (Nat.eqb_spec i j) as [Hij|_]; [|lia].
        rewrite <- Hij, Hp in Hj. congruence.
    + exists k'. split; [exact Hw|]. auto.
Qed.

(** With no countdown at zero the hint is not taken. *)
Lemma ready_hint_no_zero n k l c :
  task_list_ok k l -> countdown_reaches_zero n k l c = false ->
  ready_hint k = Ok (None, k).
Proof.
  intros (Hl & Hnd & Hval & Hh) Hno.
  rewrite countdown_reaches_zero_false in Hno.
  unfold ready_hint. unfold bind at 1, gets at 1.
  destruct (last_ready_hint k) as [h|] eqn:Hhint; [|reflexivity].
  destruct (lookup_lt_is_Some_2 l h (Hh h eq_refl)) as [p Hp].
  destruct (Hval p (list_elem_of_lookup_2 _ _ _ Hp)) as [Hpn [t Ht]].
  unfold bind at 1, node_data at 1. rewrite Hl, Hp.
  rewrite (proj2 (Z.eqb_neq p NULL) Hpn).
  unfold bind at 1, deref at 1. rewrite Ht.
  destruct (bool_decide (state t = TASK_READY)) eqn:Hs; [|reflexivity].
  apply bool_decide_eq_true in Hs.
  destruct (Z.eqb_spec (rt_prio t) NULL) as [Hr|Hr]; [|reflexivity].
  cbn [andb]. cbv zeta. fold (prio_counter (prio t)).
  rewrite u8_prio_counter.
  specialize (Hno h p t Hp Ht Hs Hr).
  destruct (Z.eqb_spec (prio_counter (prio t)) 0) as [H0|_]; [lia|reflexivity].
Qed.

Lemma find_next_ready_task_no_zero k l c :
  task_list_ok k l -> task_current k = Some c -> (c < length l)%nat ->
  countdown_reaches_zero (Z.to_nat SCHED_IMAX) k l c = false ->
  exists k',
    find_next_ready_task_visits k
      = Ok ((None, Z.to_nat SCHED_IMAX), k') /\
    last_ready_hint k' = None.
Proof.
  intros Hok Hcur Hc Hno.
  pose proof (ready_hint_no_zero _ k l c Hok Hno) as Hh.
  destruct Hok as (Hl & Hnd & Hval & _).
  destruct (ready_walk_no_zero l (Z.to_nat SCHED_IMAX) c 0%nat k
              Hl Hnd Hval Hc Hno) as (k' & Hw & _).
  unfold find_next_ready_task_visits.
  unfold bind at 1, gets at 1. rewrite Hcur.
  unfold bind at 1. rewrite Hh.
  unfold bind at 1. rewrite Hw. cbn [fst Nat.add].
  eexists. split; [reflexivity|]. reflexivity.
Qed.

(** A list of at most [n] nodes is gone round in [n] iterations: each
    node is visited. *)
Lemma visits_within_pos n len c i :
  (c < len)%nat -> (i < len)%nat -> (len <= n)%nat ->
  (1 <= visits_within n len c i)%nat.
Proof.
  intros Hc Hi Hn. unfold visits_within.
  assert (Hj : exists j, (1 <= j <= len)%nat /\ ((c + j) mod len)%nat = i).
  { destruct (le_lt_dec i c) as [Hle|Hlt].
    - exists (i + len - c)%nat. split; [lia|].
      replace (c + (i + len - c))%nat with (i + 1 * len)%nat by lia.
      rewrite Nat.Div0.mod_add. apply Nat.mod_small. exact Hi.
    - exists (i - c)%nat. split; [lia|].
      replace (c + (i - c))%nat with i by lia.
      apply Nat.mod_small. exact Hi. }
  destruct Hj as (j & Hjr & Hji).
  assert (Hin : In j (List.filter (fun j => ((c + j) mod len =? i)%nat)
                        (seq 1 n))).
  { apply filter_In. split; [apply in_seq; lia|].
    apply Nat.eqb_eq. exact Hji. }
  destruct (List.filter _ _); [destruct Hin|]. cbn [length]. lia.
Qed.

Lemma countdown_reaches_zero_true n k l c :
  countdown_reaches_zero n k l c = true ->
  exists i p t, l !! i = Some p /\ tcbs k !! p = Some t /\
    state t = TASK_READY /\ rt_prio t = NULL /\
    prio_counter (prio t) <= Z.of_nat (visits_within n (length l) c i).
Proof.
  unfold countdown_reaches_zero. intros He.
  apply existsb_exists in He as (i & _ & Hi).
  destruct (l !! i) as [p|] eqn:Hl; [|discriminate].
  destruct (tcbs k !! p) as [t|] eqn:Hp; [|discriminate].
  apply andb_true_iff in Hi as [Hi Hle].
  apply andb_true_iff in Hi as [Hs Hr].
  apply bool_decide_eq_true in Hs. apply Z.eqb_eq in Hr.
  apply Z.leb_le in Hle. exists i, p, t. auto.
Qed.

(** When the countdown of a READY task without a real-time priority is
    at most the number of visits its node gets, and the node is visited,
    the loop comes back with a node. *)
Lemma ready_walk_reaches_zero l n : forall c v k,
  tasks k = Some l -> NoDup l ->
  (forall p, p ∈ l -> p <> NULL /\ is_Some (tcbs k !! p)) ->
  (c < length l)%nat ->
  (exists i p t, l !! i = Some p /\ tcbs k !! p = Some t /\
     state t = TASK_READY /\ rt_prio t = NULL /\
     (1 <= visits_within n (length l) c i)%nat /\
     prio_counter (prio t) <= Z.of_nat (visits_within n (length l) c i)) ->
  exists j visits k',
    ready_walk n (Some c) v k = Ok ((Some j, visits), k').
Proof.
  induction n as [|n IH]; intros c v k Hl Hnd Hval Hc Hex.
  - destruct Hex as (j & q & x & _ & _ & _ & _ & Hv & _).
    unfold visits_within in Hv. cbn in Hv. lia.
  - assert (Hlen : length l <> 0%nat) by lia.
    set (i := ((c + 1) mod length l)%nat).
    assert (Hi : (i < length l)%nat) by (apply Nat.mod_upper_bound; exact Hlen).
    destruct (lookup_lt_is_Some_2 l i Hi) as [p Hp].
    destruct (Hval p (list_elem_of_lookup_2 _ _ _ Hp)) as [Hpn [t Ht]].
    assert (Hstep : forall j,
              visits_within (S n) (length l) c j
              = ((if (i =? j)%nat then 1 else 0)
                 + visits_within n (length l) i j)%nat)
      by (intros j; apply visits_within_step; exact Hlen).
    assert (Hrun : 
              ready_walk (S n) (Some c) v k =
              (if negb (bool_decide (state t = TASK_READY))
                  || negb (rt_prio t =? NULL)
               then ready_walk n (Some i) (S v) k
               else
                 let counter := u8 (Z.land (prio t) 0xFF) in
                 let counter := if counter =? 0 then counter
                                else u8 (counter - 1) in
                 let task1 :=
                   set_prio t (u16 (Z.lor (Z.land (prio t) 0xFF00) counter)) in
                 if counter =? 0 then
                   let counter := u8 (Z.land (Z.shiftr (prio task1) 8) 0xFF) in
                   (store p (set_prio task1
                               (u16 (Z.lor (Z.land (prio task1) 0xFF00) counter))) ;;
                    modify (set_last_ready_hint (Some i)) ;;
                    ret (Some i, S v)) k
                 else
                   (store p task1 ;; ready_walk n (Some i) (S v)) k)).
    { cbn [ready_walk]. unfold bind at 1, gets at 1. rewrite Hl.
      rewrite (list_cnext_mod l c Hc). fold i.
      unfold bind at 1, node_data at 1. rewrite Hl, Hp.
      rewrite (proj2 (Z.eqb_neq p NULL) Hpn).
      unfold bind at 1, deref at 1. rewrite Ht.
      destruct (negb _ || negb _); [reflexivity|]. cbv zeta.
      destruct (u8 (Z.land (prio t) 255) =? 0);
        destruct (_ =? 0); reflexivity. }
    rewrite Hrun. clear Hrun.
    destruct Hex as (j & q & x & Hj & Hq & Hsx & Hrx & Hv & Hle).
    rewrite Hstep in Hv, Hle.
    assert (Hskip : state t <> TASK_READY \/ rt_prio t <> NULL ->
              exists j0 visits k',
                ready_walk n (Some i) (S v) k = Ok (Some j0, visits, k')).
    { intros Hne. apply (IH i (S v) k); auto.
      exists j, q, x. destruct (Nat.eqb_spec i j) as [Hij|_].
      - rewrite <- Hij, Hp in Hj. inversion Hj; subst q.
        rewrite Ht in Hq. inversion Hq; subst x. tauto.
      - split_and!; auto; lia. }
    destruct (bool_decide (state t = TASK_READY)) eqn:Hs; cbn [negb orb].
    2:{ apply bool_decide_eq_false in Hs. auto. }
    apply bool_decide_eq_true in Hs.
    destruct (Z.eqb_spec (rt_prio t) NULL) as [Hr|Hr]; cbn [negb]; [|auto].
    clear Hskip.
    cbv zeta. fold (prio_counter (prio t)).
    pose proof (prio_counter_range (prio t)) as Hrange.
    rewrite u8_prio_counter.
    destruct (Z.eqb_spec (prio_counter (prio t)) 0) as [H0|H0].
    { rewrite H0. cbn [Z.eqb]. monad_unfold. eauto. }
    assert (Hdec : u8 (prio_counter (prio t) - 1) = prio_counter (prio t) - 1)
      by (unfold u8; apply Z.mod_small; lia).
    destruct (Z.eqb_spec (u8 (prio_counter (prio t) - 1)) 0) as [H1|H1].
    { monad_unfold. eauto. }
    set (task1 := set_prio t (u16 (Z.lor (Z.land (prio t) 65280)
                                     (u8 (prio_counter (prio t) - 1))))).
    unfold bind at 1, store at 1, modify at 1.
    apply (IH i (S v) (set_tcbs (fun h => <[p := task1]> h) k));
      kcb_simpl; auto.
    + intros q0 Hq0. destruct (Hval q0 Hq0) as [Hqn Hqs]. split; [exact Hqn|].
      destruct (decide (p = q0)) as [->|Hne].
      * rewrite lookup_insert_eq. eauto.
      * rewrite lookup_insert_ne by exact Hne. exact Hqs.
    + destruct (Nat.eqb_spec i j) as [Hij|Hij].
      * rewrite <- Hij, Hp in Hj. inversion Hj; subst q.
        rewrite Ht in Hq. inversion Hq; subst x.
        exists i, p, task1. rewrite lookup_insert_eq.
        assert (Hpc : prio_counter (prio task1) = prio_counter (prio t) - 1).
        { unfold task1. cbn [prio set_prio].
          rewrite prio_counter_countdown. exact Hdec. }
        rewrite Hpc. rewrite <- Hij in Hv, Hle.
        split_and!; try exact Hs; try exact Hr; auto; lia.
      * exists j, q, x. rewrite lookup_insert_ne.
        -- split_and!; auto; lia.
        -- intros ->. apply Hij. eapply NoDup_lookup; eauto.
Qed.

(** The hint either gives a node or leaves the state as it is. *)
Lemma ready_hint_total k l :
  task_list_ok k l ->
  (exists n k', ready_hint k = Ok (Some n, k')) \/ ready_hint k = Ok (None, k).
Proof.
  intros (Hl & Hnd & Hval & Hh).
  unfold ready_hint. monad_unfold.
  destruct (last_ready_hint k) as [h|] eqn:Hhint; [|right; reflexivity].
  destruct (lookup_lt_is_Some_2 l h (Hh h eq_refl)) as [p Hp].
  destruct (Hval p (list_elem_of_lookup_2 _ _ _ Hp)) as [Hpn [t Ht]].
  rewrite Hl, Hp. rewrite (proj2 (Z.eqb_neq p NULL) Hpn). rewrite Ht.
  destruct (bool_decide (state t = TASK_READY) && (rt_prio t =? NULL));
    [|right; reflexivity].
  cbv zeta. destruct (_ =? 0); [|right; reflexivity].
  left. eauto.
Qed.

Lemma find_next_ready_task_reaches_zero k l c :
  task_list_ok k l -> task_current k = Some c -> (c < length l)%nat ->
  (length l <= Z.to_nat SCHED_IMAX)%nat ->
  countdown_reaches_zero (Z.to_nat SCHED_IMAX) k l c = true ->
  exists j visits k',
    find_next_ready_task_visits k = Ok ((Some j, visits), k').
Proof.
  intros Hok Hcur Hc Hlen Hyes.
  unfold find_next_ready_task_visits.
  unfold bind at 1, gets at 1. rewrite Hcur.
  destruct (ready_hint_total k l Hok) as [(h & k1 & Hh)|Hh];
    unfold bind at 1; rewrite Hh.
  - unfold ret. eauto.
  - destruct Hok as (Hl & Hnd & Hval & _).
    apply countdown_reaches_zero_true in Hyes
      as (i & p & t & Hi & Hp & Hs & Hr & Hle).
    destruct (ready_walk_reaches_zero l (Z.to_nat SCHED_IMAX) c 0%nat k
                Hl Hnd Hval Hc) as (j & vis & k' & Hw).
    { exists i, p, t. split_and!; auto.
      apply visits_within_pos; auto. eapply lookup_lt_Some. exact Hi. }
    unfold bind at 1. rewrite Hw. cbn [fst]. unfold ret. eauto.
Qed.

(** C5.  The ready search visits at most 500 nodes of the circular task
    list, whatever the state.  If no countdown reaches zero within the
    500 iterations, that is, if every READY task of the list without a
    real-time priority has a countdown above the number of visits the 500
    iterations pay to its node, the search runs its 500 iterations, comes
    back without a node and clears the hint, and [schedule_next_task]
    panics with ERR_NO_TASKS.  If on a list of at most 500 nodes some
    countdown does reach zero, the search comes back with a node.
    Whenever the search comes back without a node (also when the walk met
    a node without a task), [schedule_next_task] panics with
    ERR_NO_TASKS: it does not search again. *)
Theorem ready_search_bounded :
  (forall k node visits k',
     find_next_ready_task_visits k = Ok ((node, visits), k') ->
     (visits <= 500)%nat) /\
  (forall k c p t l,
     task_current k = Some c -> node_data c k = Ok (p, k) -> p <> NULL ->
     tcbs k !! p = Some t ->
     task_list_ok (mark_current_ready k p t) l ->
     countdown_reaches_zero 500 (mark_current_ready k p t) l c = false ->
     exists k',
       find_next_ready_task_visits (mark_current_ready k p t)
         = Ok ((None, 500%nat), k') /\
       last_ready_hint k' = None /\
       schedule_next_task k = Panic ERR_NO_TASKS) /\
  (forall k c p t l,
     task_current k = Some c -> node_data c k = Ok (p, k) -> p <> NULL ->
     tcbs k !! p = Some t ->
     task_list_ok (mark_current_ready k p t) l -> (length l <= 500)%nat ->
     countdown_reaches_zero 500 (mark_current_ready k p t) l c = true ->
     exists node visits k',
       find_next_ready_task_visits (mark_current_ready k p t)
         = Ok ((Some node, visits), k')) /\
  (forall k c p t visits k',
     task_current k = Some c -> node_data c k = Ok (p, k) -> p <> NULL ->
     tcbs k !! p = Some t ->
     find_next_ready_task_visits (mark_current_ready k p t)
       = Ok ((None, visits), k') ->
     last_ready_hint k' = None /\
     schedule_next_task k = Panic ERR_NO_TASKS).
Proof.
  assert (Hpanic : forall k c p t visits k',
     task_current k = Some c -> node_data c k = Ok (p, k) -> p <> NULL ->
     tcbs k !! p = Some t ->
     find_next_ready_task_visits (mark_current_ready k p t)
       = Ok ((None, visits), k') ->
     last_ready_hint k' = None /\
     schedule_next_task k = Panic ERR_NO_TASKS).
  { intros k c p t visits k' Hc Hd Hp Ht H. split.
    + assert (Hcur : task_current (mark_current_ready k p t) = Some c).
      { unfold mark_current_ready. destruct (bool_decide _); exact Hc. }
      unfold find_next_ready_task_visits in H.
      apply bind_inv_ok in H as (cur & k1 & Hg & H).
      unfold gets in Hg. rewrite Hcur in Hg. inversion Hg; subst cur k1.
      apply bind_inv_ok in H as (h & k2 & Hh & H).
      destruct h; [inversion H|].
      apply bind_inv_ok in H as (r' & k3 & Hw & H).
      destruct (r'.1) eqn:Hr; monad_unfold; inversion H; subst;
        [cbn in Hr; discriminate|reflexivity].
    + unfold schedule_next_task.
      assert (Hg : gets task_current k = Ok (Some c, k))
        by (unfold gets; rewrite Hc; reflexivity).
      rewrite (bind_ok _ _ _ _ _ Hg), (bind_ok _ _ _ _ _ Hd).
      apply Z.eqb_neq in Hp. rewrite Hp.
      assert (Hde : deref p k = Ok (t, k))
        by (unfold deref; rewrite Ht; reflexivity).
      rewrite (bind_ok _ _ _ _ _ Hde).
      assert (Hm : (if bool_decide (state t = TASK_RUNNING)
                    then store p (set_state t TASK_READY) else ret ()) k
                   = Ok (tt, mark_current_ready k p t)).
      { unfold mark_current_ready. destruct (bool_decide _); reflexivity. }
      rewrite (bind_ok _ _ _ _ _ Hm).
      unfold find_next_ready_task.
      unfold bind at 1. unfold bind at 1. rewrite H. reflexivity. }
  assert (Hnode : forall k c p t l,
     task_current k = Some c -> node_data c k = Ok (p, k) ->
     task_list_ok (mark_current_ready k p t) l ->
     task_current (mark_current_ready k p t) = Some c /\
     (c < length l)%nat).
  { intros k c p t l Hc Hd (Hl & _). split.
    - unfold mark_current_ready. destruct (bool_decide _); exact Hc.
    - assert (Hl0 : tasks k = Some l).
      { unfold mark_current_ready in Hl. destruct (bool_decide _); exact Hl. }
      unfold node_data in Hd. rewrite Hl0 in Hd.
      destruct (l !! c) eqn:Hlc; [|discriminate].
      eapply lookup_lt_Some. exact Hlc. }
  split; [|split; [|split; [|exact Hpanic]]].
  - intros k node visits k' H.
    apply find_next_ready_task_visits_bound in H. exact H.
  - intros k c p t l Hc Hd Hp Ht Hok Hno.
    destruct (Hnode k c p t l Hc Hd Hok) as [Hcur Hlen].
    destruct (find_next_ready_task_no_zero _ l c Hok Hcur Hlen Hno)
      as (k' & Hf & Hh).
    exists k'. split; [exact Hf|]. split; [exact Hh|].
    exact (proj2 (Hpanic k c p t _ k' Hc Hd Hp Ht Hf)).
  - intros k c p t l Hc Hd Hp Ht Hok Hle Hyes.
    destruct (Hnode k c p t l Hc Hd Hok) as [Hcur Hlen].
    exact (find_next_ready_task_reaches_zero _ l c Hok Hcur Hlen Hle Hyes).
Qed.

Ltac task_list_ok_concrete :=
  split; [reflexivity|];
  split; [apply (bool_decide_unpack _); vm_compute; exact I|];
  split;
  [ let q := fresh "q" in let Hq := fresh "Hq" in
    intros q Hq; cbn in Hq;
    repeat (apply elem_of_cons in Hq as [->|Hq];
            [split; [discriminate|eexists; vm_compute; reflexivity]|]);
    apply elem_of_nil in Hq; contradiction
  | let h := fresh "h" in let Hh := fresh "Hh" in
    intros h Hh; cbn in Hh; first [discriminate | inversion Hh; subst; cbn; lia] ].

(** With a task of priority IDLE ready and one other task asleep, each
    of the two nodes is visited 250 times: the countdown comes from 255 to
    5 only, and the scheduler panics. *)
Lemma ready_search_bounded_witness :
  exists k',
    find_next_ready_task_visits
      (mark_current_ready idle_and_sleeper 0x1000
         (sample_tcb 1 TASK_RUNNING 0xFFFF 0)) = Ok ((None, 500%nat), k') /\
    last_ready_hint k' = None /\
    schedule_next_task idle_and_sleeper = Panic ERR_NO_TASKS.
Proof.
  refine (proj1 (proj2 ready_search_bounded) idle_and_sleeper 0%nat 0x1000
            (sample_tcb 1 TASK_RUNNING 0xFFFF 0) [0x1000; 0x2000]
            _ _ _ _ _ _).
  - reflexivity.
  - reflexivity.
  - discriminate.
  - reflexivity.
  - task_list_ok_concrete.
  - vm_compute. reflexivity.
Defined.

(** One visit more would do: with the countdown at 250 the task is
    selected in the last of the 500 iterations, and with 251 it is not. *)
Example ready_search_threshold :
  let k c := Kcb (<[0x1000 := sample_tcb 1 TASK_READY (0xFF00 + c) 0]>
                    (<[0x2000 := sample_tcb 2 TASK_BLOCKED 0x1F1F 1000]> ∅))
               (Some [0x1000; 0x2000]) (Some 0%nat) 3 2 0 true None (-1) 0
               [(1, 0x1000); (2, 0x2000); (0, NULL); (0, NULL)] 2 in
  countdown_reaches_zero 500 (k 250) [0x1000; 0x2000] 0 = true /\
  (exists k', find_next_ready_task_visits (k 250)
                = Ok ((Some 0%nat, 500%nat), k')) /\
  countdown_reaches_zero 500 (k 251) [0x1000; 0x2000] 0 = false /\
  (exists k', find_next_ready_task_visits (k 251)
                = Ok ((None, 500%nat), k')).
Proof.
  cbv zeta. split; [vm_compute; reflexivity|].
  split; [eexists; vm_compute; reflexivity|].
  split; [vm_compute; reflexivity|].
  eexists; vm_compute; reflexivity.
Qed.

(** ** Semaphores: invariant, blocking and hand-over *)

Lemma i32_small x : - 2 ^ 31 <= x < 2 ^ 31 -> i32 x = x.
Proof.
  intros Hx. unfold i32.
  change (2 ^ 31) with 2147483648 in *. change (2 ^ 32) with 4294967296.
  rewrite Z.mod_small by lia. lia.
Qed.

Lemma queue_count_nil q : queue_count q = 0 <-> q_buf q = [].
Proof.
  unfold queue_count. destruct (q_buf q); cbn [length]; split;
    intros H; try reflexivity; try discriminate; lia.
Qed.

Lemma queue_count_nonneg q : 0 <= queue_count q.
Proof. unfold queue_count. lia. Qed.

Lemma sem_is_valid_keep s q c :
  sem_is_valid s = true ->
  sem_is_valid (Sem (Some q) c (sem_max_waiters s) (sem_magic s)) = true.
Proof.
  unfold sem_is_valid. cbn. intros H.
  apply andb_true_iff in H as [-> _]. reflexivity.
Qed.


Section SemaphoreOps.

Variable SEM_MAX_COUNT : Z.
Hypothesis SEM_MAX_COUNT_range : 0 <= SEM_MAX_COUNT < 2 ^ 31.

Lemma sem_inv_slow s q :
  sem_inv SEM_MAX_COUNT s -> sem_wait_q s = Some q ->
  (0 <? sem_count s) && (queue_count q =? 0) = false -> sem_count s = 0.
Proof.
  intros (_ & Hc & q' & Hq' & Hempty & _) Hq Hf.
  rewrite Hq in Hq'. inversion Hq'; subst q'.
  destruct (Z.ltb_spec 0 (sem_count s)) as [Hpos|]; [|lia].
  rewrite (proj2 (queue_count_nil q) (Hempty Hpos)) in Hf. discriminate.
Qed.

(** X20. The semaphore invariant: a semaphore that [mo_sem_create]
    returns is valid, with a count between 0 and SEM_MAX_COUNT, never a
    token and a waiter at the same time, and at most [max_waiters] tasks
    waiting; and [mo_sem_trywait], [mo_sem_signal] and [mo_sem_wait] keep
    it so. *)
Theorem sem_invariant :
  (forall max_waiters initial_count sem_found queue_ok s,
     0 <= max_waiters ->
     mo_sem_create SEM_MAX_COUNT max_waiters initial_count sem_found queue_ok
       = Some s ->
     sem_inv SEM_MAX_COUNT s) /\
  (forall s, sem_inv SEM_MAX_COUNT s ->
     sem_inv SEM_MAX_COUNT (mo_sem_trywait s).2) /\
  (forall s k s' y k',
     sem_inv SEM_MAX_COUNT s ->
     mo_sem_signal_locked SEM_MAX_COUNT s k = Ok ((s', y), k') ->
     sem_inv SEM_MAX_COUNT s') /\
  (forall s k s' k',
     sem_inv SEM_MAX_COUNT s ->
     mo_sem_wait s k = Ok (s', k') ->
     sem_inv SEM_MAX_COUNT s').
Proof.
  assert (Hdec : forall s, sem_inv SEM_MAX_COUNT s -> 0 < sem_count s ->
            sem_inv SEM_MAX_COUNT (set_sem_count s (i32 (sem_count s - 1)))).
  { intros s (Hv & Hc & q & Hq & Hempty & Hsz & Hpos & Hcnt) Hp.
    rewrite i32_small by lia.
    split; [exact Hv|]. split; [cbn; lia|].
    exists q. cbn. split_and!; auto. }
  split_and!.
  - intros mw ic found ok s Hmw H. unfold mo_sem_create in H.
    destruct (Z.eqb_spec mw 0); [discriminate|].
    destruct (Z.ltb_spec ic 0); [discriminate|].
    destruct (Z.ltb_spec SEM_MAX_COUNT ic); [discriminate|]. cbn [orb] in H.
    destruct (found =? NULL); [discriminate|].
    unfold queue_create in H. destruct ok; [|discriminate].
    inversion H; subst s. clear H.
    split; [reflexivity|]. split; [cbn; lia|].
    eexists. split; [reflexivity|]. unfold queue_count. cbn.
    split_and!; auto; lia.
  - intros s Hinv. unfold mo_sem_trywait.
    destruct Hinv as (Hv & Hrest). rewrite Hv. cbn [negb].
    destruct Hrest as (Hc & q & Hq & Hrest). rewrite Hq.
    destruct ((0 <? sem_count s) && (queue_count q =? 0)) eqn:Hf; cbn [snd].
    + apply Hdec; [split; eauto|].
      apply andb_true_iff in Hf as [Hf _]. apply Z.ltb_lt in Hf. exact Hf.
    + split; eauto.
  - intros s k s' y k' Hinv H.
    destruct Hinv as (Hv & Hc & q & Hq & Hempty & Hsz & Hpos & Hcnt).
    unfold mo_sem_signal_locked in H. rewrite Hq in H.
    destruct (Z.ltb_spec 0 (queue_count q)) as [Hw|Hw].
    + assert (Hc0 : sem_count s = 0).
      { destruct (Z.ltb_spec 0 (sem_count s)) as [Hp|]; [|lia].
        rewrite (proj2 (queue_count_nil q) (Hempty Hp)) in Hw. lia. }
      unfold queue_dequeue in H. unfold queue_count in Hw, Hcnt.
      destruct (q_buf q) as [|w rest] eqn:Hbuf; [cbn in Hw; lia|].
      assert (Hs' : sem_inv SEM_MAX_COUNT
                (Sem (Some (Queue rest (q_size q))) (sem_count s)
                     (sem_max_waiters s) (sem_magic s))).
      { split; [apply sem_is_valid_keep, Hv|].
        split; [cbn; lia|]. eexists. cbn. split_and!; try reflexivity; auto.
        - intros Hp. lia.
        - unfold queue_count. cbn in *. lia. }
      destruct (w =? NULL); [inversion H; subst; exact Hs'|].
      monad_unfold. destruct (tcbs k !! w) as [t|]; [|discriminate].
      destruct (bool_decide _); [|discriminate].
      inversion H; subst. exact Hs'.
    + assert (Hq0 : q_buf q = []).
      { apply queue_count_nil. pose proof (queue_count_nonneg q). lia. }
      destruct (Z.ltb_spec (sem_count s) SEM_MAX_COUNT) as [Hlt|Hge];
        inversion H; subst; [|split; eauto 10].
      rewrite i32_small by lia.
      split; [apply sem_is_valid_keep, Hv|]. split; [cbn; lia|].
      exists q. cbn. split_and!; auto.
  - intros s k s' k' Hinv H. unfold mo_sem_wait in H.
    pose proof Hinv as (Hv & Hc & q & Hq & Hempty & Hsz & Hpos & Hcnt).
    rewrite Hv, Hq in H. cbn [negb] in H.
    destruct ((0 <? sem_count s) && (queue_count q =? 0)) eqn:Hf.
    + inversion H; subst. apply Hdec; [exact Hinv|].
      apply andb_true_iff in Hf as [Hf _]. apply Z.ltb_lt in Hf. exact Hf.
    + pose proof (sem_inv_slow s q Hinv Hq Hf) as Hc0.
      destruct (Z.leb_spec (sem_max_waiters s) (queue_count q)) as [|Hroom];
        [discriminate|].
      apply bind_inv_ok in H as (q' & k1 & Hb & H). inversion H; subst s' k1.
      unfold _sched_block in Hb.
      apply bind_inv_ok in Hb as (self & k2 & Hself & Hb).
      destruct (self =? NULL); [discriminate|].
      unfold queue_enqueue, queue_is_full in Hb.
      rewrite (proj2 (Z.leb_gt _ _)) in Hb by lia.
      apply bind_inv_ok in Hb as (t & k3 & _ & Hb).
      apply bind_inv_ok in Hb as ([] & k4 & _ & Hb).
      apply bind_inv_ok in Hb as ([] & k5 & _ & Hb).
      inversion Hb; subst q'.
      split; [apply sem_is_valid_keep, Hv|].
      split; [cbn; lia|]. eexists. cbn. split_and!; try reflexivity; auto.
      * intros Hp. lia.
      * unfold queue_count in *. cbn. rewrite length_app. cbn. lia.
Qed.





End SemaphoreOps.

(** [sem_inv] of a concrete semaphore. *)
Ltac sem_inv_concrete :=
  split; [reflexivity|]; split; [cbn; lia|];
  eexists; split; [reflexivity|]; unfold queue_count; cbn;
  split_and!; first [reflexivity | lia | intros; lia | intros; reflexivity].

Lemma sem_invariant_witness :
  sem_inv 32767 (mo_sem_trywait stocked_sem).2.
Proof.
  refine (proj1 (proj2 (sem_invariant 32767 _)) stocked_sem _).
  - split; [discriminate|reflexivity].
  - sem_inv_concrete.
Defined.




(** ** Mutexes and condition variables *)



Section MutexOpsProps.

Variable MUTEX_MAGIC : Z.
Variable COND_MAGIC : Z.









End MutexOpsProps.






(** ** The life of a mutex and of a condition variable *)

Section SyncLife.

Variable MUTEX_MAGIC : Z.
Variable COND_MAGIC : Z.

(** A mutex that [mo_mutex_init] has set up is valid, free and without
    waiters, and [mo_mutex_destroy] takes it back. *)
Lemma mo_mutex_init_fresh m0 :
  exists m,
    mo_mutex_init MUTEX_MAGIC (Some m0) true = (ERR_OK, Some m) /\
    mutex_is_valid MUTEX_MAGIC m = true /\ owner_tid m = 0 /\
    mo_mutex_waiting_count MUTEX_MAGIC m = 0 /\
    mo_mutex_destroy MUTEX_MAGIC (Some m) = (ERR_OK, Some (Mutex None 0 0)).
Proof.
  eexists. split; [reflexivity|].
  unfold mo_mutex_destroy, mo_mutex_waiting_count, mutex_is_valid. cbn.
  rewrite Z.eqb_refl. cbn. auto.
Qed.

(** Without memory for the list the mutex stays invalid, whatever it
    held. *)
Lemma mo_mutex_init_no_memory m0 :
  exists m,
    mo_mutex_init MUTEX_MAGIC (Some m0) false = (ERR_FAIL, Some m) /\
    mutex_is_valid MUTEX_MAGIC m = false /\
    mo_mutex_waiting_count MUTEX_MAGIC m = -1.
Proof.
  eexists. split; [reflexivity|].
  unfold mo_mutex_waiting_count, mutex_is_valid. cbn.
  rewrite andb_false_r. auto.
Qed.

(** [mo_mutex_destroy] takes a valid mutex only when it is free and no
    task waits; otherwise it answers ERR_TASK_BUSY and leaves it.  A
    destroyed mutex is invalid: a second destroy fails. *)
Lemma mo_mutex_destroy_cases m l :
  mutex_is_valid MUTEX_MAGIC m = true -> mutex_waiters m = Some l ->
  mo_mutex_destroy MUTEX_MAGIC (Some m) =
    (if bool_decide (l = [] /\ owner_tid m = 0)
     then (ERR_OK, Some (Mutex None 0 0))
     else (ERR_TASK_BUSY, Some m)) /\
  mutex_is_valid MUTEX_MAGIC (Mutex None 0 0) = false /\
  mo_mutex_destroy MUTEX_MAGIC (Some (Mutex None 0 0))
    = (ERR_FAIL, Some (Mutex None 0 0)).
Proof.
  intros Hv Hl. unfold mo_mutex_destroy. rewrite Hv, Hl. cbn [negb default].
  split.
  - destruct l as [|a l]; cbn [list_is_empty negb].
    + destruct (Z.eqb_spec (owner_tid m) 0) as [Ho|Ho]; cbn [negb].
      * rewrite bool_decide_eq_true_2 by auto. reflexivity.
      * rewrite bool_decide_eq_false_2 by tauto. reflexivity.
    + rewrite bool_decide_eq_false_2 by (intros [? _]; discriminate).
      reflexivity.
  - unfold mutex_is_valid. cbn. rewrite andb_false_r. auto.
Qed.

Lemma mo_mutex_waiting_count_length m l :
  mutex_is_valid MUTEX_MAGIC m = true -> mutex_waiters m = Some l ->
  Z.of_nat (length l) < 2 ^ 31 ->
  mo_mutex_waiting_count MUTEX_MAGIC m = Z.of_nat (length l).
Proof.
  intros Hv Hl Hn. unfold mo_mutex_waiting_count. rewrite Hv, Hl. cbn [negb].
  apply i32_small. lia.
Qed.

(** The same for a condition variable, which has no owner. *)
Lemma mo_cond_init_fresh c0 :
  exists c,
    mo_cond_init COND_MAGIC (Some c0) true = (ERR_OK, Some c) /\
    cond_is_valid COND_MAGIC c = true /\
    mo_cond_waiting_count COND_MAGIC c = 0 /\
    mo_cond_destroy COND_MAGIC (Some c) = (ERR_OK, Some (Cond None 0)).
Proof.
  eexists. split; [reflexivity|].
  unfold mo_cond_destroy, mo_cond_waiting_count, cond_is_valid. cbn.
  rewrite Z.eqb_refl. cbn. auto.
Qed.

Lemma mo_cond_init_no_memory c0 :
  exists c,
    mo_cond_init COND_MAGIC (Some c0) false = (ERR_FAIL, Some c) /\
    cond_is_valid COND_MAGIC c = false /\
    mo_cond_waiting_count COND_MAGIC c = -1.
Proof.
  eexists. split; [reflexivity|].
  unfold mo_cond_waiting_count, cond_is_valid. cbn.
  rewrite andb_false_r. auto.
Qed.

Lemma mo_cond_destroy_cases c l :
  cond_is_valid COND_MAGIC c = true -> cond_waiters c = Some l ->
  mo_cond_destroy COND_MAGIC (Some c) =
    (if bool_decide (l = []) then (ERR_OK, Some (Cond None 0))
     else (ERR_TASK_BUSY, Some c)) /\
  cond_is_valid COND_MAGIC (Cond None 0) = false /\
  mo_cond_destroy COND_MAGIC (Some (Cond None 0))
    = (ERR_FAIL, Some (Cond None 0)).
Proof.
  intros Hv Hl. unfold mo_cond_destroy. rewrite Hv, Hl. cbn [negb default].
  split.
  - destruct l as [|a l]; cbn [list_is_empty negb].
    + rewrite bool_decide_eq_true_2 by auto. reflexivity.
    + rewrite bool_decide_eq_false_2 by discriminate. reflexivity.
  - unfold cond_is_valid. cbn. rewrite andb_false_r. auto.
Qed.

Lemma mo_cond_waiting_count_length c l :
  cond_is_valid COND_MAGIC c = true -> cond_waiters c = Some l ->
  Z.of_nat (length l) < 2 ^ 31 ->
  mo_cond_waiting_count COND_MAGIC c = Z.of_nat (length l).
Proof.
  intros Hv Hl Hn. unfold mo_cond_waiting_count. rewrite Hv, Hl. cbn [negb].
  apply i32_small. lia.
Qed.

End SyncLife.

(** * The timer interface: arming and cancelling *)

Ltac treg_simpl :=
  cbn [timer_store active_list now_ticks initialized free_mask
       all_timers_list timer_cache timer_cache_index
       set_timer_store set_active_list set_free_mask set_timer_cache] in *.

Lemma filter_ne_absent (t : Z) (l : list Z) :
  t ∉ l -> filter (fun u => u <> t) l = l.
Proof.
  induction l as [|a l IH]; intros Hn; [reflexivity|].
  apply not_elem_of_cons in Hn as [Hne Hn].
  rewrite filter_cons_True by congruence. f_equal. apply IH. exact Hn.
Qed.

Lemma filter_ne_not_elem (t : Z) (l : list Z) :
  t ∉ filter (fun u => u <> t) l.
Proof. intros H. apply list_elem_of_filter in H as [H _]. congruence. Qed.

Lemma deadline_sorted_filter tm (P : Z -> Prop) `{!forall u, Decision (P u)} l :
  deadline_sorted tm l -> deadline_sorted tm (filter P l).
Proof.
  unfold deadline_sorted. induction l as [|a l IH]; intros Hs; [constructor|].
  cbn [map] in Hs. apply StronglySorted_inv in Hs as [Hs Hall].
  destruct (decide (P a)) as [Ha|Ha].
  - rewrite filter_cons_True by exact Ha. cbn [map].
    constructor; [apply IH; exact Hs|].
    apply Forall_forall. intros d Hd. apply list_elem_of_In in Hd.
    apply in_map_iff in Hd as (u & <- & Hu).
    apply list_elem_of_In, list_elem_of_filter in Hu as [_ Hu].
    rewrite Forall_forall in Hall. apply Hall.
    apply list_elem_of_In. apply in_map. apply list_elem_of_In. exact Hu.
  - rewrite filter_cons_False by exact Ha. apply IH. exact Hs.
Qed.

(** Unlinking takes the one node of a timer out of the list. *)
Lemma unlink_by_data_spec data : forall l,
  NoDup l.*2 ->
  match unlink_by_data data l with
  | Some (node, rest) =>
      (node, data) ∈ l /\ rest.*2 = filter (fun u => u <> data) l.*2
  | None => data ∉ l.*2
  end.
Proof.
  induction l as [|[n d] l IH]; intros Hnd.
  - cbn. apply not_elem_of_nil.
  - cbn [unlink_by_data fst snd]. cbn [fmap list_fmap snd] in Hnd.
    apply NoDup_cons in Hnd as [Hd Hnd].
    destruct (Z.eqb_spec d data) as [->|Hne].
    + split; [left|].
      cbn [fmap list_fmap snd].
      rewrite filter_cons_False by (intros H; apply H; reflexivity).
      symmetry. apply filter_ne_absent. exact Hd.
    + specialize (IH Hnd).
      destruct (unlink_by_data data l) as [[node rest]|].
      * destruct IH as [Hin Hrest]. split; [right; exact Hin|].
        cbn [fmap list_fmap snd]. rewrite filter_cons_True by exact Hne.
        f_equal. exact Hrest.
      * cbn [fmap list_fmap snd]. apply not_elem_of_cons. split; [congruence|exact IH].
Qed.

(** The walk with the nodes is the walk of the tick handler's model. *)
Lemma insert_node_by_deadline_data tm d node t : forall l,
  timers_valid tm l.*2 ->
  exists l', insert_node_by_deadline tm d (node, t) l = Some l' /\
             insert_by_deadline tm d t l.*2 = Some l'.*2 /\
             (node, t) ∈ l' /\
             filter (fun u => u <> t) l'.*2 = filter (fun u => u <> t) l.*2.
Proof.
  induction l as [|[n c] rest IH]; intros Hv.
  - exists [(node, t)]. split_and!; try reflexivity; [left|].
    cbn [fmap list_fmap snd].
    rewrite filter_cons_False by (intros H; apply H; reflexivity). reflexivity.
  - cbn [insert_node_by_deadline insert_by_deadline fmap list_fmap snd].
    destruct (Hv c ltac:(left)) as [x Hx]. rewrite Hx.
    destruct (d <? deadline_ticks x).
    + eexists. split_and!; try reflexivity; [left|].
      cbn [fmap list_fmap snd].
      rewrite (filter_cons_False _ t) by (intros H; apply H; reflexivity).
      reflexivity.
    + destruct IH as (l' & Hl' & Hd & Hin & Hf).
      { intros u Hu. apply Hv. right. exact Hu. }
      rewrite Hl'. cbn [option_map] in *.
      change (list_fmap _ _ snd rest) with (rest.*2). rewrite Hd.
      exists ((n, c) :: l'). split_and!; try reflexivity; [right; exact Hin|].
      cbn [fmap list_fmap snd option_map].
      rewrite !(filter_cons (fun u => u <> t) c).
      change (list_fmap _ _ snd l') with (l'.*2).
      change (list_fmap _ _ snd rest) with (rest.*2).
      rewrite Hf. reflexivity.
Qed.

Lemma cache_lookup_entries_spec id : forall entries,
  cache_lookup_entries id entries = NULL \/
  exists e, e ∈ entries /\ e.1 = id /\ e.2 <> NULL /\
            cache_lookup_entries id entries = e.2.
Proof.
  induction entries as [|e rest IH]; [left; reflexivity|].
  cbn [cache_lookup_entries].
  destruct (Z.eqb_spec e.1 id) as [He|He]; cbn [andb].
  - destruct (Z.eqb_spec e.2 NULL) as [Hn|Hn]; cbn [negb].
    + destruct IH as [IH|(e' & Hin & H)]; [left; exact IH|].
      right. exists e'. split; [right; exact Hin|exact H].
    + right. exists e. split; [left|]. auto.
  - destruct IH as [IH|(e' & Hin & H)]; [left; exact IH|].
    right. exists e'. split; [right; exact Hin|exact H].
Qed.

Lemma id_of_lookup tm t x : tm !! t = Some x -> id_of tm t = timer_id x.
Proof. intros H. unfold id_of. rewrite H. reflexivity. Qed.

(** In a registry in the strict order of the ids the walk finds the
    timer of an id, and nothing for an id no timer has. *)
Lemma find_in_registry_found tm id t : forall l,
  timers_valid tm l -> StronglySorted Z.lt (map (id_of tm) l) ->
  t ∈ l -> id_of tm t = id ->
  find_in_registry tm id l = Some (Some t).
Proof.
  induction l as [|c rest IH]; intros Hv Hs Hin Hid.
  - apply elem_of_nil in Hin. contradiction.
  - cbn [find_in_registry]. destruct (Hv c ltac:(left)) as [x Hx]. rewrite Hx.
    cbn [map] in Hs. apply StronglySorted_inv in Hs as [Hs Hall].
    rewrite (id_of_lookup _ _ _ Hx) in Hall.
    assert (Hrest : forall u, u ∈ rest -> timer_id x < id_of tm u).
    { intros u Hu. rewrite Forall_forall in Hall. apply Hall.
      apply list_elem_of_In. apply in_map. apply list_elem_of_In. exact Hu. }
    apply elem_of_cons in Hin as [->|Hin].
    + rewrite (id_of_lookup _ _ _ Hx) in Hid. subst id.
      rewrite Z.eqb_refl. reflexivity.
    + specialize (Hrest t Hin). rewrite Hid in Hrest.
      destruct (Z.eqb_spec (timer_id x) id) as [He|He]; [lia|].
      destruct (Z.ltb_spec id (timer_id x)) as [Hl|Hl]; [lia|].
      apply IH; auto. intros u Hu. apply Hv. right. exact Hu.
Qed.

Lemma id_of_insert_same tm t x x' u :
  tm !! t = Some x -> timer_id x' = timer_id x ->
  id_of (<[t := x']> tm) u = id_of tm u.
Proof.
  intros Hx Hid. unfold id_of. destruct (decide (t = u)) as [->|Hne].
  - rewrite lookup_insert_eq, Hx. exact Hid.
  - rewrite lookup_insert_ne by exact Hne. reflexivity.
Qed.

Lemma sorted_ids_unique tm : forall l a b,
  StronglySorted Z.lt (map (id_of tm) l) ->
  a ∈ l -> b ∈ l -> id_of tm a = id_of tm b -> a = b.
Proof.
  induction l as [|c rest IH]; intros a b Hs Ha Hb Hid.
  - apply elem_of_nil in Ha. contradiction.
  - cbn [map] in Hs. apply StronglySorted_inv in Hs as [Hs Hall].
    assert (Hrest : forall u, u ∈ rest -> id_of tm c < id_of tm u).
    { intros u Hu. rewrite Forall_forall in Hall. apply Hall.
      apply list_elem_of_In. apply in_map. apply list_elem_of_In. exact Hu. }
    apply elem_of_cons in Ha as [->|Ha]; apply elem_of_cons in Hb as [->|Hb].
    + reflexivity.
    + specialize (Hrest b Hb). lia.
    + specialize (Hrest a Ha). lia.
    + apply IH; assumption.
Qed.

Lemma elem_of_list_insert_inv {A} (y : A) : forall (l : list A) (i : nat) x,
  x ∈ <[i := y]> l -> x = y \/ x ∈ l.
Proof.
  induction l as [|a l IH]; intros i x Hx; [right; exact Hx|].
  destruct i as [|i]; cbn in Hx.
  - apply elem_of_cons in Hx as [->|Hx]; [left; reflexivity|].
    right. right. exact Hx.
  - apply elem_of_cons in Hx as [->|Hx]; [right; left|].
    destruct (IH i x Hx) as [->|H]; [left; reflexivity|right; right; exact H].
Qed.

(** Taking a node of the pool and giving it back leaves the mask as it
    was. *)
Lemma pool_mask_roundtrip m i :
  0 <= m < 65536 -> 0 <= i < 16 -> Z.testbit m i = true ->
  u16 (Z.lor (u16 (Z.land m (Z.lnot (Z.shiftl 1 i)))) (Z.shiftl 1 i)) = m.
Proof.
  intros Hm Hi Hb. unfold u16.
  assert (Hm16 : m mod 2 ^ 16 = m) by (apply Z.mod_small; lia).
  rewrite <- Hm16 at 2.
  apply Z.bits_inj'. intros k Hk.
  destruct (Z.ltb_spec k 16) as [Hlt|Hge].
  - rewrite !Z.mod_pow2_bits_low by lia.
    rewrite Z.lor_spec, Z.mod_pow2_bits_low by lia.
    rewrite Z.land_spec, Z.lnot_spec, Z.shiftl_spec by lia.
    destruct (Z.eq_dec k i) as [->|Hne].
    + rewrite Z.sub_diag. cbn. rewrite Hb, orb_true_r. reflexivity.
    + replace (Z.testbit 1 (k - i)) with false.
      * cbn. rewrite andb_true_r, orb_false_r. reflexivity.
      * symmetry. destruct (Z.ltb_spec k i).
        -- apply Z.testbit_neg_r. lia.
        -- change 1 with (Z.ones 1). apply Z.ones_spec_high. lia.
  - rewrite !Z.mod_pow2_bits_high by lia. reflexivity.
Qed.

Lemma unlink_after_insert tm d node t : forall l l',
  t ∉ l.*2 ->
  insert_node_by_deadline tm d (node, t) l = Some l' ->
  unlink_by_data t l' = Some (node, l).
Proof.
  induction l as [|[n c] rest IH]; intros l' Hn Hl'.
  - cbn in Hl'. inversion Hl'; subst l'. cbn [unlink_by_data fst snd].
    rewrite Z.eqb_refl. reflexivity.
  - cbn [insert_node_by_deadline snd] in Hl'.
    cbn [fmap list_fmap snd] in Hn. apply not_elem_of_cons in Hn as [Hne Hn].
    destruct (tm !! c) as [y|]; [|discriminate].
    destruct (d <? deadline_ticks y).
    + inversion Hl'; subst l'. cbn [unlink_by_data fst snd].
      rewrite Z.eqb_refl. reflexivity.
    + destruct (insert_node_by_deadline tm d (node, t) rest) as [l''|] eqn:Hr;
        [|discriminate].
      cbn [option_map] in Hl'. inversion Hl'; subst l'.
      cbn [unlink_by_data fst snd].
      destruct (Z.eqb_spec c t) as [He|_]; [congruence|].
      rewrite (IH l'' Hn eq_refl). reflexivity.
Qed.

Lemma start_mode_accepted m :
  m <> TIMER_DISABLED ->
  bool_decide (m <> TIMER_ONESHOT) && bool_decide (m <> TIMER_AUTORELOAD)
  = false.
Proof. destruct m; [congruence|reflexivity|reflexivity]. Qed.

(** Re-arming or disarming timer [t] keeps the state of the interface,
    when the active list holds [t] as its new mode asks and is in the
    order of the deadlines. *)
Lemma timer_wf_rearm r r' t x x' :
  timer_wf r -> timer_store r !! t = Some x -> timer_id x' = timer_id x ->
  timer_store r' = <[t := x']> (timer_store r) ->
  initialized r' = initialized r ->
  all_timers_list r' = all_timers_list r ->
  timer_cache r' = timer_cache r ->
  0 <= free_mask r' < 65536 ->
  (active_list r').*2 ≡ₚ
    (if bool_decide (mode x' = TIMER_DISABLED) then others t r
     else t :: others t r) ->
  deadline_sorted (timer_store r') (active_list r').*2 ->
  timer_wf r'.
Proof.
  intros [Hi Hm Hv Hs Hnd Hd (l & Hl & Hlv & Hls) Hc]
         Hx Hid Hst Hi' Hl' Hc' Hm' Hp Hs'.
  assert (Hoth : forall u, u ∈ others t r -> u <> t /\ u ∈ (active_list r).*2).
  { intros u Hu. apply list_elem_of_filter in Hu. exact Hu. }
  assert (Hin : forall u, u ∈ (active_list r').*2 ->
                (u = t /\ mode x' <> TIMER_DISABLED) \/
                (u <> t /\ u ∈ (active_list r).*2)).
  { intros u Hu. rewrite Hp in Hu.
    destruct (bool_decide (mode x' = TIMER_DISABLED)) eqn:Hb.
    - right. apply Hoth. exact Hu.
    - apply bool_decide_eq_false in Hb.
      apply elem_of_cons in Hu as [->|Hu]; [left; auto|right; auto]. }
  constructor.
  - congruence.
  - exact Hm'.
  - intros u Hu. rewrite Hst.
    destruct (Hin u Hu) as [[-> _]|[Hne Hu']].
    + rewrite lookup_insert_eq. eauto.
    + rewrite lookup_insert_ne by congruence. apply Hv. exact Hu'.
  - exact Hs'.
  - rewrite Hp. destruct (bool_decide (mode x' = TIMER_DISABLED)).
    + apply NoDup_filter. exact Hnd.
    + apply NoDup_cons. split; [apply filter_ne_not_elem|].
      apply NoDup_filter. exact Hnd.
  - intros u y Hu Hy Hu'. rewrite Hst in Hu.
    destruct (Hin u Hu') as [[-> Hne]|[Hne Hu'']].
    + rewrite lookup_insert_eq in Hu. congruence.
    + rewrite lookup_insert_ne in Hu by congruence.
      exact (Hd u y Hu Hy Hu'').
  - exists l. rewrite Hl', Hst. split; [exact Hl|]. split.
    + apply timers_valid_insert. exact Hlv.
    + erewrite map_ext; [exact Hls|].
      intros u. cbn. apply (id_of_insert_same _ _ x); assumption.
  - intros e He Hne. rewrite Hc' in He. rewrite Hl', Hst.
    destruct (Hc e He Hne) as [H1 H2]. split; [exact H1|].
    rewrite (id_of_insert_same _ _ x) by assumption. exact H2.
Qed.

Section TimerApiProps.

Variable MS_TO_TICKS : Z -> Z.
Variable malloc_node : Z.

Lemma get_timer_node_spec r :
  0 <= free_mask r < 65536 ->
  exists node m,
    TimerApi.get_timer_node malloc_node r = (node, set_free_mask m r) /\
    0 <= m < 65536 /\
    match node with
    | None => malloc_node = NULL /\ m = free_mask r
    | Some heap_node => m = free_mask r
    | Some (pool_node i) =>
        0 <= i < 16 /\ Z.testbit (free_mask r) i = true /\
        m = u16 (Z.land (free_mask r) (Z.lnot (Z.shiftl 1 i)))
    end.
Proof.
  intros Hm. unfold TimerApi.get_timer_node.
  destruct (pool_first_free _ _ _) as [i|] eqn:Hp.
  - apply pool_first_free_spec in Hp as [Hi Hb]; [|lia].
    change (Z.of_nat (Z.to_nat TIMER_NODE_POOL_SIZE)) with 16 in Hi.
    eexists _, _. split; [reflexivity|]. split.
    + unfold u16. change (2 ^ 16) with 65536. apply Z.mod_pos_bound. lia.
    + split_and!; [lia|lia|exact Hb|reflexivity].
  - destruct (Z.eqb_spec malloc_node NULL) as [He|He].
    + exists None, (free_mask r). split; [destruct r; reflexivity|]. auto.
    + exists (Some heap_node), (free_mask r).
      split; [destruct r; reflexivity|]. auto.
Qed.

Lemma timer_sorted_insert_run t x r node m :
  timer_store r !! t = Some x ->
  TimerApi.get_timer_node malloc_node r = (Some node, set_free_mask m r) ->
  TimerApi.timer_sorted_insert malloc_node t r =
    option_map (fun l' => (ERR_OK, set_active_list l' (set_free_mask m r)))
      (insert_node_by_deadline (timer_store r) (deadline_ticks x) (node, t)
         (active_list r)).
Proof.
  intros Hx Hg. unfold TimerApi.timer_sorted_insert. rewrite Hg. treg_simpl.
  rewrite Hx. destruct (active_list r); [reflexivity|].
  destruct (insert_node_by_deadline _ _ _ _); reflexivity.
Qed.

(** What [timer_remove_item_by_data] leaves of the state. *)
Lemma timer_remove_item_by_data_spec t r :
  NoDup (active_list r).*2 -> 0 <= free_mask r < 65536 ->
  let r' := TimerApi.timer_remove_item_by_data t r in
  timer_store r' = timer_store r /\
  (active_list r').*2 = others t r /\
  0 <= free_mask r' < 65536 /\
  now_ticks r' = now_ticks r /\ initialized r' = initialized r /\
  all_timers_list r' = all_timers_list r /\ timer_cache r' = timer_cache r.
Proof.
  intros Hnd Hm. cbv zeta. unfold TimerApi.timer_remove_item_by_data, others.
  pose proof (unlink_by_data_spec t (active_list r) Hnd) as Hu.
  destruct (unlink_by_data t (active_list r)) as [[curr rest]|].
  - destruct Hu as [_ Hrest].
    destruct curr as [i|]; cbn [TimerApi.return_timer_node]; treg_simpl;
      split_and!; auto; try lia.
    + unfold u16. change (2 ^ 16) with 65536.
      apply Z.mod_pos_bound. lia.
    + unfold u16. change (2 ^ 16) with 65536.
      apply Z.mod_pos_bound. lia.
  - rewrite (filter_ne_absent _ _ Hu). split_and!; auto; lia.
Qed.

(** Caching a timer of the registry under its id keeps the state. *)
Lemma cache_timer_wf id t x r :
  timer_wf r ->
  t ∈ default [] (all_timers_list r) -> timer_store r !! t = Some x ->
  timer_id x = id ->
  timer_wf (TimerApi.cache_timer id t r).
Proof.
  intros [Hi Hm Hv Hs Hnd Hd Hl Hc] Ht Hx Hid.
  constructor; unfold TimerApi.cache_timer; treg_simpl; auto.
  intros e He Hne. apply elem_of_list_insert_inv in He as [->|He].
  - cbn [fst snd]. split; [exact Ht|].
    rewrite (id_of_lookup _ _ _ Hx). exact Hid.
  - apply Hc; assumption.
Qed.

(** The lookup finds the timer of a registered id; it changes the cache
    at most. *)
Lemma timer_find_by_id_fast_found id t x r :
  timer_wf r ->
  t ∈ default [] (all_timers_list r) -> timer_store r !! t = Some x ->
  timer_id x = id ->
  exists r1,
    TimerApi.timer_find_by_id_fast id r = Some (Some t, r1) /\
    timer_wf r1 /\ timer_store r1 = timer_store r /\
    active_list r1 = active_list r /\ now_ticks r1 = now_ticks r /\
    free_mask r1 = free_mask r /\ all_timers_list r1 = all_timers_list r.
Proof.
  intros Hwf Ht Hx Hid.
  pose proof (cache_timer_wf id t x r Hwf Ht Hx Hid) as Hwfc.
  destruct Hwf as [Hi Hm Hv Hs Hnd Hd (l & Hl & Hlv & Hls) Hc].
  rewrite Hl in Ht. cbn [default] in Ht.
  change (Datatypes.id l) with l in Ht.
  unfold TimerApi.timer_find_by_id_fast, TimerApi.cache_lookup_timer.
  destruct (cache_lookup_entries_spec id (take 4 (timer_cache r)))
    as [Hnull|(e & He & He1 & He2 & Hfound)].
  - rewrite Hnull. cbn [Z.eqb NULL]. rewrite Hl.
    destruct l as [|c rest] eqn:Hlc; [apply elem_of_nil in Ht; contradiction|].
    cbn [list_is_empty]. rewrite <- Hlc in *.
    replace (list_is_empty l) with false by (rewrite Hlc; reflexivity).
    rewrite (find_in_registry_found (timer_store r) id t l Hlv Hls Ht
               ltac:(rewrite (id_of_lookup _ _ _ Hx); exact Hid)).
    eexists. split; [reflexivity|]. split; [exact Hwfc|].
    unfold TimerApi.cache_timer. treg_simpl. auto 10.
  - rewrite Hfound.
    assert (He' : e ∈ timer_cache r).
    { apply elem_of_take in He as (i & Hi' & _).
      eapply list_elem_of_lookup_2. exact Hi'. }
    destruct (Hc e He' He2) as [Hin Hide]. rewrite Hl in Hin.
    cbn [default] in Hin. change (Datatypes.id l) with l in Hin.
    assert (Het : e.2 = t).
    { apply (sorted_ids_unique (timer_store r) l); auto.
      rewrite Hide, (id_of_lookup _ _ _ Hx). congruence. }
    rewrite Het in *.
    destruct (Z.eqb_spec t NULL) as [Hz|_]; [contradiction|].
    rewrite Hx. rewrite Hid, Z.eqb_refl.
    exists r. split; [reflexivity|].
    split; [constructor; eauto|]. auto 10.
Qed.

Lemma others_idem t (l : list Z) :
  filter (fun u => u <> t) (filter (fun u => u <> t) l)
  = filter (fun u => u <> t) l.
Proof. apply filter_ne_absent. apply filter_ne_not_elem. Qed.

Lemma return_timer_node_fields node r :
  timer_store (TimerApi.return_timer_node node r) = timer_store r /\
  active_list (TimerApi.return_timer_node node r) = active_list r.
Proof. destruct node; split; reflexivity. Qed.

Lemma return_timer_node_mask node r r' :
  free_mask r = free_mask r' ->
  free_mask (TimerApi.return_timer_node node r)
  = free_mask (TimerApi.return_timer_node node r').
Proof. intros H. destruct node; cbn; rewrite ?H; reflexivity. Qed.

(** The run of [mo_timer_start] on a registered timer. *)
Lemma mo_timer_start_run id new_mode t x r :
  timer_wf r -> new_mode <> TIMER_DISABLED ->
  t ∈ default [] (all_timers_list r) -> timer_store r !! t = Some x ->
  timer_id x = id ->
  let armed := set_deadline_ticks (set_mode x new_mode)
                 (u32 (now_ticks r + MS_TO_TICKS (period_ms x))) in
  exists e r',
    TimerApi.mo_timer_start MS_TO_TICKS malloc_node id new_mode r
      = Some (e, r') /\
    timer_wf r' /\ others t r' = others t r /\
    all_timers_list r' = all_timers_list r /\ now_ticks r' = now_ticks r /\
    ((e = ERR_OK /\ timer_store r' = <[t := armed]> (timer_store r) /\
      t ∈ (active_list r').*2 /\
      (mode x = TIMER_DISABLED ->
       exists node,
         unlink_by_data t (active_list r') = Some (node, active_list r) /\
         free_mask (TimerApi.return_timer_node node r') = free_mask r)) \/
     (e = ERR_FAIL /\ malloc_node = NULL /\
      timer_store r' = <[t := set_mode armed TIMER_DISABLED]> (timer_store r) /\
      t ∉ (active_list r').*2)).
Proof.
  intros Hwf Hmode Ht Hx Hid armed.
  unfold TimerApi.mo_timer_start.
  rewrite (start_mode_accepted _ Hmode).
  rewrite (wf_initialized _ Hwf). cbn [negb].
  destruct (timer_find_by_id_fast_found id t x r Hwf Ht Hx Hid)
    as (r1 & Hfind & Hwf1 & Hst1 & Hact1 & Hnow1 & Hmask1 & Hall1).
  rewrite Hfind. rewrite Hst1, Hx. cbv zeta.
  assert (Hidle : mode x = TIMER_DISABLED -> t ∉ (active_list r).*2)
    by (intros Hdis; exact (wf_disabled_idle _ Hwf t x Hx Hdis)).
  set (r2 := if bool_decide (mode x <> TIMER_DISABLED)
             then TimerApi.timer_remove_item_by_data t r1 else r1).
  assert (H2 : timer_store r2 = timer_store r /\
               (active_list r2).*2 = others t r /\
               0 <= free_mask r2 < 65536 /\
               now_ticks r2 = now_ticks r /\
               initialized r2 = initialized r1 /\
               all_timers_list r2 = all_timers_list r1 /\
               timer_cache r2 = timer_cache r1 /\
               (mode x = TIMER_DISABLED -> r2 = r1)).
  { subst r2. destruct (bool_decide (mode x <> TIMER_DISABLED)) eqn:Hb.
    - destruct (timer_remove_item_by_data_spec t r1
                  (wf_active_once _ Hwf1) (wf_free_mask _ Hwf1))
        as (A & B & C & D & E & F & G).
      unfold others in *. rewrite Hact1 in B.
      apply bool_decide_eq_true in Hb.
      split_and!; try congruence; auto. lia. lia.
    - apply bool_decide_eq_false in Hb.
      assert (Hdis : mode x = TIMER_DISABLED)
        by (destruct (decide (mode x = TIMER_DISABLED)); tauto).
      pose proof (wf_free_mask _ Hwf1).
      split_and!; auto; try congruence; try lia.
      unfold others. rewrite Hact1. symmetry. apply filter_ne_absent. auto. }
  clearbody r2.
  destruct H2 as (Hst2 & Hact2 & Hmask2 & Hnow2 & Hini2 & Hall2 & Hc2 & Hsame).
  rewrite Hnow2. fold armed.
  set (r2' := set_timer_store (fun h => <[t := armed]> h) r2).
  assert (Hx' : timer_store r2' !! t = Some armed)
    by (subst r2'; treg_simpl; apply lookup_insert_eq).
  assert (Hnt : t ∉ others t r) by apply filter_ne_not_elem.
  assert (Hso : deadline_sorted (timer_store r) (others t r))
    by (apply deadline_sorted_filter; exact (wf_active_sorted _ Hwf)).
  destruct (get_timer_node_spec r2' Hmask2) as (node & m & Hg & Hm & Hnode).
  destruct node as [node|].
  - rewrite (timer_sorted_insert_run t armed r2' node m Hx' Hg).
    assert (Hv2 : timers_valid (timer_store r2') (active_list r2').*2).
    { subst r2'. treg_simpl. rewrite Hst2, Hact2.
      apply timers_valid_insert. intros u Hu.
      apply list_elem_of_filter in Hu as [_ Hu].
      exact (wf_active_valid _ Hwf u Hu). }
    destruct (insert_node_by_deadline_data (timer_store r2')
                (deadline_ticks armed) node t (active_list r2') Hv2)
      as (l' & Hl' & Hd & Hin & Hf).
    destruct (insert_by_deadline_spec (timer_store r2')
                (deadline_ticks armed) t (active_list r2').*2 Hv2)
      as (l'' & Hl'' & Hperm & Hsort).
    rewrite Hd in Hl''. inversion Hl''; subst l''. clear Hl''.
    rewrite Hl'. cbn [option_map].
    rewrite (bool_decide_eq_false_2 (ERR_OK <> ERR_OK))
      by (intros H; apply H; reflexivity).
    eexists ERR_OK, _. split; [reflexivity|].
    subst r2'. treg_simpl. rewrite Hst2, Hact2 in *.
    assert (Hs' : deadline_sorted (<[t := armed]> (timer_store r)) l'.*2).
    { apply Hsort.
      - unfold deadline_of. rewrite lookup_insert_eq. reflexivity.
      - unfold deadline_sorted. rewrite deadline_of_insert_other by exact Hnt.
        exact Hso. }
    split_and!.
    + apply (timer_wf_rearm r1 _ t x armed); treg_simpl; auto; try congruence;
        try (rewrite Hst1; exact Hs').
      rewrite (bool_decide_eq_false_2 (mode armed = TIMER_DISABLED))
        by exact Hmode.
      rewrite Hperm. unfold others. rewrite Hact1. reflexivity.
    + unfold others at 1. treg_simpl. rewrite Hf. apply others_idem.
    + congruence.
    + exact Hnow2.
    + left. split_and!; auto.
      * rewrite Hperm. left.
      * intros Hdis. exists node. rewrite (Hsame Hdis) in *.
        split.
        -- rewrite <- Hact1.
           eapply (unlink_after_insert _ _ _ _ (active_list r1) l');
             [rewrite Hact1; exact (Hidle Hdis)|exact Hl'].
        -- destruct node as [i|]; cbn [TimerApi.return_timer_node]; treg_simpl.
           ++ destruct Hnode as (Hi & Hb & ->). rewrite Hmask1 in *.
              apply pool_mask_roundtrip; auto.
           ++ congruence.
  - destruct Hnode as [Hnull ->].
    unfold TimerApi.timer_sorted_insert. rewrite Hg.
    rewrite (bool_decide_eq_true_2 (ERR_FAIL <> ERR_OK)) by discriminate.
    eexists ERR_FAIL, _. split; [reflexivity|].
    subst r2'. treg_simpl. rewrite Hst2.
    rewrite insert_insert_eq.
    split_and!.
    + apply (timer_wf_rearm r1 _ t x (set_mode armed TIMER_DISABLED));
        treg_simpl; auto; try congruence.
      * rewrite Hst2, insert_insert_eq, Hst1. reflexivity.
      * rewrite (bool_decide_eq_true_2 _ (eq_refl : mode (set_mode armed TIMER_DISABLED) = TIMER_DISABLED)).
        rewrite Hact2. unfold others. rewrite Hact1. reflexivity.
      * rewrite Hst2, insert_insert_eq, Hact2. unfold deadline_sorted.
        rewrite deadline_of_insert_other by exact Hnt. exact Hso.
    + unfold others at 1. treg_simpl. rewrite Hact2. apply others_idem.
    + congruence.
    + exact Hnow2.
    + right. split_and!; auto. rewrite Hact2. exact Hnt.
Qed.

(** The sorted insert with the nodes does to the active list what the
    insert of the tick handler's model does. *)
Lemma timer_sorted_insert_sys_of t x r :
  timer_store r !! t = Some x ->
  timers_valid (timer_store r) (active_list r).*2 ->
  (fun er => (er.1, sys_of er.2)) <$>
    TimerApi.timer_sorted_insert malloc_node t r
  = timer_sorted_insert malloc_node t (sys_of r).
Proof.
  intros Hx Hv. unfold timer_sorted_insert, get_timer_node.
  unfold TimerApi.timer_sorted_insert, TimerApi.get_timer_node.
  cbn [sys_of pool_free_mask].
  destruct (pool_first_free _ _ _) as [i|].
  - cbn [negb timers timer_list set_pool_free_mask sys_of]. treg_simpl.
    rewrite Hx.
    destruct (insert_node_by_deadline_data (timer_store r) (deadline_ticks x)
                (pool_node i) t (active_list r) Hv) as (l' & Hl' & Hd & _).
    rewrite Hd. destruct (active_list r) as [|c rest] eqn:Hl.
    + cbn in Hl'. inversion Hl'; subst l'. reflexivity.
    + rewrite Hl'. reflexivity.
  - destruct (malloc_node =? NULL); cbn [negb]; [reflexivity|].
    cbn [timers timer_list set_pool_free_mask sys_of]. treg_simpl.
    rewrite Hx.
    destruct (insert_node_by_deadline_data (timer_store r) (deadline_ticks x)
                heap_node t (active_list r) Hv) as (l' & Hl' & Hd & _).
    rewrite Hd. destruct (active_list r) as [|c rest] eqn:Hl.
    + cbn in Hl'. inversion Hl'; subst l'. reflexivity.
    + rewrite Hl'. reflexivity.
Qed.

(** X29. [mo_timer_start] on a registered timer, with a mode other than
    DISABLED: the timer gets the mode and the deadline [now +
    MS_TO_TICKS(period_ms)], truncated to 32 bits, and is in the active
    list once, also when it was running before; the other timers keep
    their places, and the list stays in the order of the deadlines.  The
    call fails only when the pool is used up and [malloc] returns NULL;
    the timer is then DISABLED and out of the active list, with the new
    deadline. *)
Theorem mo_timer_start_arms id new_mode t x r :
  timer_wf r -> new_mode <> TIMER_DISABLED ->
  t ∈ default [] (all_timers_list r) -> timer_store r !! t = Some x ->
  timer_id x = id ->
  let armed := set_deadline_ticks (set_mode x new_mode)
                 (u32 (now_ticks r + MS_TO_TICKS (period_ms x))) in
  exists e r',
    TimerApi.mo_timer_start MS_TO_TICKS malloc_node id new_mode r
      = Some (e, r') /\
    timer_wf r' /\ others t r' = others t r /\
    ((e = ERR_OK /\ timer_store r' = <[t := armed]> (timer_store r) /\
      t ∈ (active_list r').*2) \/
     (e = ERR_FAIL /\ malloc_node = NULL /\
      timer_store r' = <[t := set_mode armed TIMER_DISABLED]> (timer_store r) /\
      t ∉ (active_list r').*2)).
Proof.
  intros Hwf Hmode Ht Hx Hid armed.
  destruct (mo_timer_start_run id new_mode t x r Hwf Hmode Ht Hx Hid)
    as (e & r' & Hrun & Hwf' & Hoth & _ & _ & Hcase).
  exists e, r'. split_and!; auto.
  destruct Hcase as [(He & Hst & Hin & _)|Hfail]; [left; auto|right; exact Hfail].
Qed.

(** X30. A timer that is not running cannot be cancelled:
    [mo_timer_cancel] returns ERR_FAIL and leaves the active list.  Once
    [mo_timer_start] has started it, [mo_timer_cancel] returns ERR_OK and
    undoes the start: the active list has the nodes it had, the mask of
    the node pool is what it was, and the timer is DISABLED again, with
    the deadline the start gave it. *)
Theorem timer_start_cancel_roundtrip id new_mode t x r :
  timer_wf r -> new_mode <> TIMER_DISABLED ->
  t ∈ default [] (all_timers_list r) -> timer_store r !! t = Some x ->
  timer_id x = id -> mode x = TIMER_DISABLED ->
  fst <$> TimerApi.mo_timer_start MS_TO_TICKS malloc_node id new_mode r
    = Some ERR_OK ->
  (exists r0, TimerApi.mo_timer_cancel id r = Some (ERR_FAIL, r0) /\
              active_list r0 = active_list r) /\
  exists r1 r2,
    TimerApi.mo_timer_start MS_TO_TICKS malloc_node id new_mode r
      = Some (ERR_OK, r1) /\
    TimerApi.mo_timer_cancel id r1 = Some (ERR_OK, r2) /\
    active_list r2 = active_list r /\ free_mask r2 = free_mask r /\
    timer_store r2 =
      <[t := set_deadline_ticks x
               (u32 (now_ticks r + MS_TO_TICKS (period_ms x)))]>
        (timer_store r).
Proof.
  intros Hwf Hmode Ht Hx Hid Hdis Hok.
  destruct (mo_timer_start_run id new_mode t x r Hwf Hmode Ht Hx Hid)
    as (e & r1 & Hrun & Hwf1 & _ & Hall & _ & Hcase).
  rewrite Hrun in Hok. cbn in Hok.
  destruct Hcase as [(-> & Hst & _ & Hrt)|(-> & _)]; [|discriminate].
  destruct (Hrt Hdis) as (node & Hun & Hmask). split.
  - unfold TimerApi.mo_timer_cancel.
    rewrite (wf_initialized _ Hwf). cbn [negb].
    destruct (timer_find_by_id_fast_found id t x r Hwf Ht Hx Hid)
      as (r0 & Hfind & _ & Hst0 & Hact0 & _).
    rewrite Hfind, Hst0, Hx.
    rewrite (bool_decide_eq_true_2 _ Hdis). exists r0. auto.
  - set (armed := set_deadline_ticks (set_mode x new_mode)
                    (u32 (now_ticks r + MS_TO_TICKS (period_ms x)))) in *.
    assert (Hx1 : timer_store r1 !! t = Some armed)
      by (rewrite Hst; apply lookup_insert_eq).
    destruct (timer_find_by_id_fast_found id t armed r1 Hwf1
                ltac:(rewrite Hall; exact Ht) Hx1 Hid)
      as (r1' & Hfind & _ & Hst1 & Hact1 & _ & Hmask1 & _).
    assert (Hc : TimerApi.mo_timer_cancel id r1 =
                 Some (ERR_OK,
                       set_timer_store
                         (fun h => <[t := set_mode armed TIMER_DISABLED]> h)
                         (TimerApi.timer_remove_item_by_data t r1'))).
    { unfold TimerApi.mo_timer_cancel.
      rewrite (wf_initialized _ Hwf1). cbn [negb].
      rewrite Hfind, Hst1, Hx1.
      rewrite (bool_decide_eq_false_2 (mode armed = TIMER_DISABLED))
        by exact Hmode.
      reflexivity. }
    eexists r1, _. split; [exact Hrun|]. split; [exact Hc|].
    unfold TimerApi.timer_remove_item_by_data. rewrite Hact1, Hun.
    treg_simpl.
    destruct (return_timer_node_fields node
                (set_active_list (active_list r) r1')) as [Hs Ha].
    rewrite Ha, Hs. treg_simpl. split; [reflexivity|]. split.
    + rewrite <- Hmask. apply return_timer_node_mask.
      treg_simpl. exact Hmask1.
    + rewrite Hst1, Hst, insert_insert_eq. f_equal.
      subst armed. destruct x. cbn in Hdis. subst. reflexivity.
Qed.

End TimerApiProps.

Ltac timers_valid_concrete :=
  let u := fresh "u" in let Hu := fresh "Hu" in
  intros u Hu; apply (bool_decide_unpack _);
  revert u Hu; apply Forall_forall; apply (bool_decide_unpack _);
  vm_compute; exact I.

Ltac elem_cases H :=
  repeat (apply elem_of_cons in H as [->|H]);
  [..|apply elem_of_nil in H; contradiction].

Ltac timer_wf_concrete :=
  constructor;
  [ reflexivity
  | cbn; lia
  | timers_valid_concrete
  | unfold deadline_sorted; vm_compute map; repeat constructor; lia
  | apply (bool_decide_unpack _); vm_compute; exact I
  | let t := fresh "t" in let x := fresh "x" in
    let Hx := fresh "Hx" in let Hm := fresh "Hm" in let Hin := fresh "Hin" in
    intros t x Hx Hm Hin; cbn in Hin; elem_cases Hin;
    vm_compute in Hx; inversion Hx; subst x; discriminate
  | eexists; split; [reflexivity|]; split;
    [timers_valid_concrete
    |vm_compute map; repeat constructor; lia]
  | let e := fresh "e" in let He := fresh "He" in let Hne := fresh "Hne" in
    intros e He Hne; cbn in He; elem_cases He;
    first [exfalso; apply Hne; reflexivity
          |split; [apply (bool_decide_unpack _); vm_compute; exact I
                  |vm_compute; reflexivity]] ].

Lemma mo_timer_start_arms_witness :
  exists e r',
    TimerApi.mo_timer_start ms_to_ticks_100hz NULL 0x6001 TIMER_AUTORELOAD
      sample_reg = Some (e, r') /\
    timer_wf r' /\ others 0x9200 r' = [] /\
    ((e = ERR_OK /\
      timer_store r' !! 0x9200
        = Some (Timer 0x6001 0x504 7 2000 300 TIMER_AUTORELOAD) /\
      0x9200 ∈ (active_list r').*2) \/
     e = ERR_FAIL).
Proof.
  destruct (mo_timer_start_arms ms_to_ticks_100hz NULL 0x6001 TIMER_AUTORELOAD
              0x9200 (Timer 0x6001 0x504 7 2000 300 TIMER_ONESHOT) sample_reg)
    as (e & r' & Hrun & Hwf & Hoth & Hcase).
  - timer_wf_concrete.
  - discriminate.
  - apply (bool_decide_unpack _). vm_compute. exact I.
  - vm_compute. reflexivity.
  - reflexivity.
  - exists e, r'. split; [exact Hrun|]. split; [exact Hwf|].
    split; [exact Hoth|].
    destruct Hcase as [(He & Hst & Hin)|(He & _)]; [left|right; exact He].
    split; [exact He|]. split; [|exact Hin].
    rewrite Hst. apply lookup_insert_eq.
Defined.

Lemma timer_start_cancel_roundtrip_witness :
  exists r1 r2,
    TimerApi.mo_timer_start ms_to_ticks_100hz NULL 0x6000 TIMER_ONESHOT
      sample_reg = Some (ERR_OK, r1) /\
    TimerApi.mo_timer_cancel 0x6000 r1 = Some (ERR_OK, r2) /\
    active_list r2 = [(pool_node 2, 0x9200)] /\ free_mask r2 = 0xFFF8.
Proof.
  destruct (timer_start_cancel_roundtrip ms_to_ticks_100hz NULL 0x6000
              TIMER_ONESHOT 0x9100 (Timer 0x6000 0x500 0 50 0 TIMER_DISABLED)
              sample_reg)
    as (_ & r1 & r2 & Hs & Hc & Ha & Hm & _).
  - timer_wf_concrete.
  - discriminate.
  - apply (bool_decide_unpack _). vm_compute. exact I.
  - vm_compute. reflexivity.
  - reflexivity.
  - reflexivity.
  - vm_compute. reflexivity.
  - exists r1, r2. auto.
Defined.
